(** * Asset management: lifecycle engine, notification deriver, bulk mutator,
      CSV codec and AI snapshot

    A shallow embedding of the state-handling code of the asset tracker
    ([App.tsx], the admin view, the type declarations and the summarisation
    service) together with the properties its specification states.

    JavaScript strings are sequences of UTF-16 code units; they are modelled
    as [list N].  React state is modelled by explicit state passing: a
    handler takes the collections it reads and returns the collections it
    sets.  [Math.random()] and [Date.now()] are inputs of the handlers.
    What the platform does with the link of the CSV export ([encodeURI],
    the file saved for a data: URL, [FileReader.readAsText]) is modelled
    after the language, URL and Encoding standards. *)

From Stdlib Require Import List ZArith NArith Lia Bool.
From Stdlib Require Import Permutation Sorted.
From Stdlib Require Ascii String.
Import ListNotations String.StringSyntax.
Delimit Scope string_scope with string.

Local Open Scope N_scope.

(** ** JavaScript strings and the string primitives the code calls *)

Definition jsstring := list N.

Module JS.

(** An ASCII literal as code units. *)
Definition lit (s : String.string) : jsstring :=
  map Ascii.N_of_ascii (String.list_ascii_of_string s).

Definition eqb (s t : jsstring) : bool :=
  if list_eq_dec N.eq_dec s t then true else false.

(** Truthiness of a string: only [''] is falsy. *)
Definition truthy (s : jsstring) : bool :=
  match s with [] => false | _ :: _ => true end.

(** Truthiness of a possibly undefined string. *)
Definition truthy_opt (o : option jsstring) : bool :=
  match o with Some s => truthy s | None => false end.

(** [x || d] for a possibly undefined string [x]. *)
Definition or_else (o : option jsstring) (d : jsstring) : jsstring :=
  match o with
  | Some (c :: s) => c :: s
  | _ => d
  end.

(** WhiteSpace and LineTerminator code units, the ones [trim] removes. *)
Definition is_space (c : N) : bool :=
  (9 <=? c) && (c <=? 13)
  || (c =? 32) || (c =? 160) || (c =? 0x1680)
  || (0x2000 <=? c) && (c <=? 0x200A)
  || (c =? 0x2028) || (c =? 0x2029) || (c =? 0x202F) || (c =? 0x205F)
  || (c =? 0x3000) || (c =? 0xFEFF).

Fixpoint trimStart (s : jsstring) : jsstring :=
  match s with
  | [] => []
  | c :: s' => if is_space c then trimStart s' else s
  end.

Definition trimEnd (s : jsstring) : jsstring := rev (trimStart (rev s)).

Definition trim (s : jsstring) : jsstring := trimEnd (trimStart s).

(** [s.split(sep)] for a one-unit separator: never the empty array. *)
Fixpoint split (sep : N) (s : jsstring) : list jsstring :=
  match s with
  | [] => [[]]
  | c :: s' =>
      if c =? sep then [] :: split sep s'
      else match split sep s' with
           | [] => [[c]]
           | w :: ws => (c :: w) :: ws
           end
  end.

(** [l.join(sep)]. *)
Fixpoint join (sep : jsstring) (l : list jsstring) : jsstring :=
  match l with
  | [] => []
  | [x] => x
  | x :: l' => x ++ sep ++ join sep l'
  end.

Definition quote : N := 34.
Definition comma : N := 44.
Definition newline : N := 10.

(** [s.replace(/^"|"$/g, '')]: one leading and one trailing double quote. *)
Definition dropLeadingQuote (s : jsstring) : jsstring :=
  match s with
  | c :: s' => if c =? quote then s' else s
  | [] => []
  end.

Definition dropTrailingQuote (s : jsstring) : jsstring :=
  rev (dropLeadingQuote (rev s)).

Definition stripQuotes (s : jsstring) : jsstring :=
  dropTrailingQuote (dropLeadingQuote s).

(** Template-literal rendering of a non-negative integer. *)
Fixpoint digits (u : Decimal.uint) : jsstring :=
  match u with
  | Decimal.Nil => []
  | Decimal.D0 u => 48 :: digits u
  | Decimal.D1 u => 49 :: digits u
  | Decimal.D2 u => 50 :: digits u
  | Decimal.D3 u => 51 :: digits u
  | Decimal.D4 u => 52 :: digits u
  | Decimal.D5 u => 53 :: digits u
  | Decimal.D6 u => 54 :: digits u
  | Decimal.D7 u => 55 :: digits u
  | Decimal.D8 u => 56 :: digits u
  | Decimal.D9 u => 57 :: digits u
  end.

Definition ofNat (n : N) : jsstring := digits (N.to_uint n).

(** Lexicographic comparison of code units, the order of the default
    [Array.prototype.sort] on strings. *)
Fixpoint compare (s t : jsstring) : comparison :=
  match s, t with
  | [], [] => Eq
  | [], _ :: _ => Lt
  | _ :: _, [] => Gt
  | c :: s', d :: t' =>
      match N.compare c d with
      | Eq => compare s' t'
      | r => r
      end
  end.

(** [Array.prototype.sort(cmp)]: stable; [cmp x y > 0] puts [x] after [y]. *)
Fixpoint insert {A : Type} (cmp : A -> A -> Z) (x : A) (l : list A) : list A :=
  match l with
  | [] => [x]
  | y :: l' => if (0 <? cmp x y)%Z then y :: insert cmp x l' else x :: l
  end.

Definition sort {A : Type} (cmp : A -> A -> Z) (l : list A) : list A :=
  fold_right (insert cmp) [] l.

Definition sortStrings (l : list jsstring) : list jsstring :=
  sort (fun x y => match compare x y with Lt => (-1)%Z | Eq => 0%Z | Gt => 1%Z end) l.

(** One call of [Math.random()], seen through the two ways the code uses
    it: [Math.floor(r * k)] and the template literal [`${r}`]. *)
Record Draw := mkDraw {
  floorTimes : N -> N;
  shown : jsstring
}.

End JS.

Notation "'js' s" := (JS.lit s%string) (at level 9, s at level 0, only parsing).

(** ** Further primitives of JavaScript strings *)

Module JSText.

Fixpoint startsWith (s p : jsstring) : bool :=
  match p, s with
  | [], _ => true
  | _ :: _, [] => false
  | d :: p', c :: s' => (c =? d) && startsWith s' p'
  end.

(** [s.includes(p)] *)
Fixpoint includes (s p : jsstring) : bool :=
  startsWith s p
  || match s with
     | [] => false
     | _ :: s' => includes s' p
     end.

End JSText.

(** ** The platform: [encodeURI] *)

Module URI.

Definition isHighSurrogate (c : N) : bool := (0xD800 <=? c) && (c <=? 0xDBFF).

Definition isLowSurrogate (c : N) : bool := (0xDC00 <=? c) && (c <=? 0xDFFF).

(** [String.prototype.isWellFormed]: every surrogate code unit is half of
    a pair. *)
Fixpoint wellFormed (s : jsstring) : bool :=
  match s with
  | [] => true
  | c :: s' =>
      if isHighSurrogate c then
        match s' with
        | d :: s'' => isLowSurrogate d && wellFormed s''
        | [] => false
        end
      else negb (isLowSurrogate c) && wellFormed s'
  end.

(** The code units [encodeURI] leaves as they are: letters, digits and
    [; / ? : @ & = + $ , - _ . ! ~ * ' ( ) #]. *)
Definition unescaped (c : N) : bool :=
  (65 <=? c) && (c <=? 90) || (97 <=? c) && (c <=? 122)
  || (48 <=? c) && (c <=? 57)
  || existsb (N.eqb c)
       [59; 47; 63; 58; 64; 38; 61; 43; 36; 44;
        45; 95; 46; 33; 126; 42; 39; 40; 41; 35].

(** The UTF-8 octets of a code point. *)
Definition utf8 (cp : N) : list N :=
  if cp <? 0x80 then [cp]
  else if cp <? 0x800 then [0xC0 + cp / 64; 0x80 + cp mod 64]
  else if cp <? 0x10000 then
    [0xE0 + cp / 64 / 64; 0x80 + (cp / 64) mod 64; 0x80 + cp mod 64]
  else
    [0xF0 + cp / 64 / 64 / 64; 0x80 + (cp / 64 / 64) mod 64;
     0x80 + (cp / 64) mod 64; 0x80 + cp mod 64].

(** An upper-case hexadecimal digit. *)
Definition hexDigit (d : N) : N := if d <? 10 then 48 + d else 55 + d.

(** The escape [%XX] of an octet. *)
Definition percent (octet : N) : jsstring :=
  [37; hexDigit (octet / 16); hexDigit (octet mod 16)].

(** The code point of a surrogate pair. *)
Definition pairCodePoint (high low : N) : N :=
  0x10000 + (high - 0xD800) * 0x400 + (low - 0xDC00).

(** [encodeURI(s)]: an unescaped unit is copied, any other code point is
    replaced by the escapes of its UTF-8 octets; [None] stands for the
    URIError thrown at a surrogate that is not half of a pair. *)
Fixpoint encodeURI (s : jsstring) : option jsstring :=
  match s with
  | [] => Some []
  | c :: s' =>
      if unescaped c then option_map (cons c) (encodeURI s')
      else if isLowSurrogate c then None
      else if isHighSurrogate c then
        match s' with
        | d :: s'' =>
            if isLowSurrogate d then
              option_map (app (flat_map percent (utf8 (pairCodePoint c d))))
                (encodeURI s'')
            else None
        | [] => None
        end
      else option_map (app (flat_map percent (utf8 c))) (encodeURI s')
  end.

End URI.

(** ** The platform: the file saved for a data: link, and reading a file *)

Module Browser.

(** The beginning of the links [handleExportCSV] makes: scheme, media
    type and the comma before the body. *)
Definition csvDataUrlPrefix : jsstring := js "data:text/csv;charset=utf-8,".

(** URL parsing: the fragment starts at the first [#]; it is no part of
    the resource. *)
Fixpoint withoutFragment (url : jsstring) : jsstring :=
  match url with
  | [] => []
  | c :: url' => if c =? 35 then [] else c :: withoutFragment url'
  end.

Definition hexValue (c : N) : option N :=
  if (48 <=? c) && (c <=? 57) then Some (c - 48)
  else if (65 <=? c) && (c <=? 70) then Some (c - 55)
  else if (97 <=? c) && (c <=? 102) then Some (c - 87)
  else None.

(** Percent-decoding of the body of a data: URL: [%] followed by two
    hexadecimal digits is one octet, every other unit stands for itself. *)
Fixpoint percentDecode (s : jsstring) : list N :=
  match s with
  | [] => []
  | c :: s' =>
      if c =? 37 then
        match s' with
        | h :: l :: s'' =>
            match hexValue h, hexValue l with
            | Some x, Some y => (16 * x + y) :: percentDecode s''
            | _, _ => c :: percentDecode s'
            end
        | _ => c :: percentDecode s'
        end
      else c :: percentDecode s'
  end.

(** The octets of the file saved by a click on a link with a [download]
    attribute whose [href] starts with [csvDataUrlPrefix], the other units
    of the [href] being ASCII (as [encodeURI] makes them): the body
    between the comma and the fragment, percent-decoded.  [None]: a link
    that does not start so.  A limit that a browser puts on the length of
    a link is not modelled. *)
Definition savedFile (href : jsstring) : option (list N) :=
  if JSText.startsWith href csvDataUrlPrefix
  then Some (percentDecode
               (withoutFragment (skipn (length csvDataUrlPrefix) href)))
  else None.

End Browser.

Module FileReader.

(** The state of the UTF-8 decoder between two octets: nothing pending, or
    a code point begun, with the number of continuation octets it still
    needs and the range the next one must lie in. *)
Inductive Pending :=
| Idle
| Need (codePoint : N) (more : nat) (lower upper : N).

(** An octet met with nothing pending: the code points to emit and the
    state it leaves.  [0xFFFD] is the replacement character. *)
Definition lead (b : N) : list N * Pending :=
  if b <=? 0x7F then ([b], Idle)
  else if (0xC2 <=? b) && (b <=? 0xDF) then
    ([], Need (b - 0xC0) 1 0x80 0xBF)
  else if (0xE0 <=? b) && (b <=? 0xEF) then
    ([], Need (b - 0xE0) 2
           (if b =? 0xE0 then 0xA0 else 0x80)
           (if b =? 0xED then 0x9F else 0xBF))
  else if (0xF0 <=? b) && (b <=? 0xF4) then
    ([], Need (b - 0xF0) 3
           (if b =? 0xF0 then 0x90 else 0x80)
           (if b =? 0xF4 then 0x8F else 0xBF))
  else ([0xFFFD], Idle).

(** The UTF-8 decoder of the Encoding standard, from octets to code
    points: an octet out of place yields a replacement character and is
    then read again as the start of a sequence. *)
Fixpoint decode (st : Pending) (octets : list N) : list N :=
  match octets with
  | [] =>
      match st with
      | Idle => []
      | Need _ _ _ _ => [0xFFFD]
      end
  | b :: rest =>
      match st with
      | Idle => fst (lead b) ++ decode (snd (lead b)) rest
      | Need cp more lower upper =>
          if (lower <=? b) && (b <=? upper) then
            match more with
            | S (S m) => decode (Need (cp * 64 + (b - 0x80)) (S m) 0x80 0xBF) rest
            | _ => (cp * 64 + (b - 0x80)) :: decode Idle rest
            end
          else 0xFFFD :: fst (lead b) ++ decode (snd (lead b)) rest
      end
  end.

(** The code units of a code point in a JavaScript string. *)
Definition units (cp : N) : jsstring :=
  if cp <? 0x10000 then [cp]
  else [0xD800 + (cp - 0x10000) / 0x400; 0xDC00 + (cp - 0x10000) mod 0x400].

Definition utf8Decode (octets : list N) : jsstring :=
  flat_map units (decode Idle octets).

(** [reader.readAsText(file)] as delivered to [onload]: the octets are
    decoded as UTF-8, a leading byte-order mark EF BB BF being dropped.  A
    file that starts with a UTF-16 mark (FE FF or FF FE) is decoded as
    UTF-16, which is not modelled: [None]. *)
Definition readAsText (file : list N) : option jsstring :=
  match file with
  | 0xEF :: 0xBB :: 0xBF :: rest => Some (utf8Decode rest)
  | 0xFE :: 0xFF :: _ => None
  | 0xFF :: 0xFE :: _ => None
  | _ => Some (utf8Decode file)
  end.

End FileReader.

(** ** types.ts *)

Inductive AssetStatus := AVAILABLE | BORROWED | MAINTENANCE | LOST.

Inductive TransactionType := BORROW | RETURN | MAINTENANCE_LOG.

Definition AssetStatus_eqb (s t : AssetStatus) : bool :=
  match s, t with
  | AVAILABLE, AVAILABLE | BORROWED, BORROWED
  | MAINTENANCE, MAINTENANCE | LOST, LOST => true
  | _, _ => false
  end.

Definition TransactionType_eqb (s t : TransactionType) : bool :=
  match s, t with
  | BORROW, BORROW | RETURN, RETURN | MAINTENANCE_LOG, MAINTENANCE_LOG => true
  | _, _ => false
  end.

(** The string values of the enums. *)
Definition AssetStatus_value (s : AssetStatus) : jsstring :=
  match s with
  | AVAILABLE => js "Available"
  | BORROWED => js "Borrowed"
  | MAINTENANCE => js "Maintenance"
  | LOST => js "Lost"
  end.

Definition TransactionType_value (t : TransactionType) : jsstring :=
  match t with
  | BORROW => js "Borrow"
  | RETURN => js "Return"
  | MAINTENANCE_LOG => js "Maintenance"
  end.

Module Asset.
Record t := mk {
  id : jsstring;
  name : jsstring;
  category : jsstring;
  model : jsstring;
  serialNumber : jsstring;
  purchaseDate : jsstring;
  status : AssetStatus;
  currentHolder : option jsstring;
  imageUrl : jsstring;
  qrCode : jsstring;
  description : option jsstring;
  customFeatures : option (list (jsstring * jsstring))
}.
End Asset.

Module Transaction.
Record t := mk {
  id : jsstring;
  assetId : jsstring;
  assetName : jsstring;
  userId : jsstring;
  userName : jsstring;
  type : TransactionType;
  timestamp : Z;
  signatureUrl : jsstring;
  notes : option jsstring
}.
End Transaction.

(** ** App.tsx: the store and its handlers *)

Module App.

Record Store := mkStore {
  assets : list Asset.t;
  transactions : list Transaction.t
}.

(** [{...a, status: s, currentHolder: h}] *)
Definition withStatusHolder (a : Asset.t) (s : AssetStatus)
    (h : option jsstring) : Asset.t :=
  Asset.mk (Asset.id a) (Asset.name a) (Asset.category a) (Asset.model a)
    (Asset.serialNumber a) (Asset.purchaseDate a) s h (Asset.imageUrl a)
    (Asset.qrCode a) (Asset.description a) (Asset.customFeatures a).

(** [handleTransaction]; [txDraw] and [userDraw] are its two calls of
    [Math.random()], [now] its call of [Date.now()]. *)
Definition handleTransaction (st : Store) (txDraw userDraw : JS.Draw) (now : Z)
    (assetId : jsstring) (type : TransactionType) (userName signature : jsstring)
    (notes : option jsstring) : Store :=
  match find (fun a => JS.eqb (Asset.id a) assetId) (assets st) with
  | None => st
  | Some asset =>
      let newTx :=
        Transaction.mk
          (js "TX-" ++ JS.ofNat (JS.floorTimes txDraw 10000))
          assetId
          (Asset.name asset)
          (js "U-" ++ JS.ofNat (JS.floorTimes userDraw 1000))
          userName
          type
          now
          signature
          notes in
      let updatedAssets :=
        map (fun a =>
               if JS.eqb (Asset.id a) assetId then
                 withStatusHolder a
                   (if TransactionType_eqb type BORROW then BORROWED else AVAILABLE)
                   (if TransactionType_eqb type BORROW then Some userName else None)
               else a)
            (assets st) in
      mkStore updatedAssets (transactions st ++ [newTx])
  end.

Definition handleAddAsset (st : Store) (newAsset : Asset.t) : Store :=
  mkStore (assets st ++ [newAsset]) (transactions st).

Definition handleBulkAddAssets (st : Store) (newAssets : list Asset.t) : Store :=
  mkStore (assets st ++ newAssets) (transactions st).

Definition handleUpdateAsset (st : Store) (updatedAsset : Asset.t) : Store :=
  mkStore
    (map (fun a => if JS.eqb (Asset.id a) (Asset.id updatedAsset)
                   then updatedAsset else a) (assets st))
    (transactions st).

(** [new Map(updatedAssets.map(a => [a.id, a]))]: the last entry of a key
    is the one [get] returns. *)
Definition updateMap_get (updatedAssets : list Asset.t) (k : jsstring)
    : option Asset.t :=
  find (fun u => JS.eqb (Asset.id u) k) (rev updatedAssets).

Definition handleBulkUpdateAssets (st : Store) (updatedAssets : list Asset.t)
    : Store :=
  mkStore
    (map (fun a => match updateMap_get updatedAssets (Asset.id a) with
                   | Some u => u
                   | None => a
                   end) (assets st))
    (transactions st).

End App.

(** ** The admin view: notifications, bulk edit, CSV export and import *)

Inductive Lang := zh | en.

Inductive Severity := warning | critical.

Module Notification.
Record t := mk {
  id : jsstring;
  title : jsstring;
  message : jsstring;
  type : Severity;
  timestamp : Z
}.
End Notification.

Module BulkEditForm.
Record t := mk {
  status : option AssetStatus;
  category : option jsstring
}.
End BulkEditForm.

Module AdminView.

(** The entries of [TRANSLATIONS] (constants.ts) that the handlers below
    read. *)
Definition TRANSLATIONS (lang : Lang) : list (jsstring * jsstring) :=
  match lang with
  | zh =>
      [ (js "th_id", js "ID");
        (js "th_name", [0x8D44; 0x4EA7; 0x540D; 0x79F0]);
        (js "th_category", [0x7C7B; 0x522B]);
        (js "th_status", [0x72B6; 0x6001]);
        (js "th_holder", [0x6301; 0x6709; 0x8005]);
        (js "success", [0x6210; 0x529F]) ]
  | en =>
      [ (js "th_id", js "ID");
        (js "th_name", js "Asset Name");
        (js "th_category", js "Category");
        (js "th_status", js "Status");
        (js "th_holder", js "Holder");
        (js "success", js "Success") ]
  end.

(** Property lookup in a string-keyed object. *)
Fixpoint lookup (k : jsstring) (o : list (jsstring * jsstring)) : option jsstring :=
  match o with
  | [] => None
  | (k', v) :: o' => if JS.eqb k' k then Some v else lookup k o'
  end.

Definition t (lang : Lang) (key : jsstring) : jsstring :=
  JS.or_else (lookup key (TRANSLATIONS lang)) key.

(** *** Notification derivation (the effect on [assets], [transactions]) *)

Definition sevenDaysMs : Z := (7 * 24 * 60 * 60 * 1000)%Z.

Definition lostNotification (lang : Lang) (stamp : Z) (a : Asset.t)
    : Notification.t :=
  Notification.mk
    (js "lost-" ++ Asset.id a)
    (match lang with
     | zh => [0x8D44; 0x4EA7; 0x62A5; 0x5931; 0x63D0; 0x9192]
     | en => js "Asset Lost Alert"
     end)
    (Asset.name a ++ js " (" ++ Asset.id a ++ js ") "
       ++ (match lang with
           | zh => [0x76EE; 0x524D; 0x72B6; 0x6001; 0x4E3A; 0x201C; 0x5DF2;
                    0x4E22; 0x5931; 0x201D]
           | en => js "is marked as Lost"
           end)
       ++ js ".")
    critical
    stamp.

(** The most recent Borrow transaction of an asset:
    [transactions.filter(..).sort((x, y) => y.timestamp - x.timestamp)[0]]. *)
Definition lastBorrowTx (transactions : list Transaction.t) (a : Asset.t)
    : option Transaction.t :=
  hd_error
    (JS.sort (fun x y => (Transaction.timestamp y - Transaction.timestamp x)%Z)
       (filter (fun tx => JS.eqb (Transaction.assetId tx) (Asset.id a)
                          && JS.eqb (TransactionType_value (Transaction.type tx))
                                    (js "Borrow"))
               transactions)).

Definition overdueNotification (lang : Lang) (stamp : Z) (a : Asset.t)
    (lastTx : Transaction.t) : Notification.t :=
  Notification.mk
    (js "overdue-" ++ Asset.id a)
    (match lang with
     | zh => [0x8D85; 0x671F; 0x501F; 0x7528; 0x63D0; 0x9192]
     | en => js "Overdue Alert"
     end)
    (Asset.name a ++ js " "
       ++ (match lang with zh => [0x5DF2; 0x88AB] | en => js "held by" end)
       ++ js " " ++ Transaction.userName lastTx ++ js " "
       ++ (match lang with
           | zh => [0x501F; 0x7528; 0x8D85; 0x8FC7; 0x0037; 0x5929]
           | en => js "for >7 days"
           end)
       ++ js ".")
    warning
    stamp.

(** The body of the second [forEach]: push at most one overdue alert. *)
Definition pushOverdue (lang : Lang) (transactions : list Transaction.t)
    (now stamp : Z) (newNotifications : list Notification.t) (a : Asset.t)
    : list Notification.t :=
  match lastBorrowTx transactions a with
  | Some lastTx =>
      if (sevenDaysMs <? now - Transaction.timestamp lastTx)%Z
      then newNotifications ++ [overdueNotification lang stamp a lastTx]
      else newNotifications
  | None => newNotifications
  end.

(** The array handed to [setNotifications].  [now] is the [Date.now()] the
    overdue test reads, [stamp] the one stored in the alerts. *)
Definition newNotifications (lang : Lang) (assets : list Asset.t)
    (transactions : list Transaction.t) (now stamp : Z) : list Notification.t :=
  let lostAssets :=
    filter (fun a => AssetStatus_eqb (Asset.status a) LOST) assets in
  let afterLost :=
    fold_left (fun acc a => acc ++ [lostNotification lang stamp a])
      lostAssets [] in
  fold_left (pushOverdue lang transactions now stamp)
    (filter (fun a => AssetStatus_eqb (Asset.status a) BORROWED) assets)
    afterLost.

(** One run of the effect: it replaces the notification state,
    [setNotifications(newNotifications)].  The effect runs after the admin
    view is mounted and after a render in which [assets], [transactions]
    or [lang] is another value than before; [now] and [stamp] are the
    [Date.now()] of that run. *)
Definition notificationsEffect (lang : Lang) (assets : list Asset.t)
    (transactions : list Transaction.t) (now stamp : Z)
    (notifications : list Notification.t) : list Notification.t :=
  newNotifications lang assets transactions now stamp.

(** *** Bulk edit *)

Definition withStatus (a : Asset.t) (s : AssetStatus) : Asset.t :=
  Asset.mk (Asset.id a) (Asset.name a) (Asset.category a) (Asset.model a)
    (Asset.serialNumber a) (Asset.purchaseDate a) s (Asset.currentHolder a)
    (Asset.imageUrl a) (Asset.qrCode a) (Asset.description a)
    (Asset.customFeatures a).

Definition withCategory (a : Asset.t) (c : jsstring) : Asset.t :=
  Asset.mk (Asset.id a) (Asset.name a) c (Asset.model a)
    (Asset.serialNumber a) (Asset.purchaseDate a) (Asset.status a)
    (Asset.currentHolder a) (Asset.imageUrl a) (Asset.qrCode a)
    (Asset.description a) (Asset.customFeatures a).

(** The body of [selectedAssetIds.forEach]. *)
Definition bulkEditStep (assets : list Asset.t) (bulkEditForm : BulkEditForm.t)
    (updates : list Asset.t) (id : jsstring) : list Asset.t :=
  match find (fun a => JS.eqb (Asset.id a) id) assets with
  | Some original =>
      let updated := original in
      let changed := false in
      let '(updated, changed) :=
        match BulkEditForm.status bulkEditForm with
        | Some s => (withStatus updated s, true)
        | None => (updated, changed)
        end in
      let '(updated, changed) :=
        match BulkEditForm.category bulkEditForm with
        | Some (c :: cs) => (withCategory updated (c :: cs), true)
        | _ => (updated, changed)
        end in
      if changed then updates ++ [updated] else updates
  | None => updates
  end.

(** [updates] of [saveBulkEdit]; [selectedAssetIds] lists the selected set
    in its iteration order. *)
Definition bulkEditUpdates (assets : list Asset.t)
    (bulkEditForm : BulkEditForm.t) (selectedAssetIds : list jsstring)
    : list Asset.t :=
  fold_left (bulkEditStep assets bulkEditForm) selectedAssetIds [].

(** [saveBulkEdit]: the new store and the count shown by [alert], if any. *)
Definition saveBulkEdit (st : App.Store) (bulkEditForm : BulkEditForm.t)
    (selectedAssetIds : list jsstring) : App.Store * option nat :=
  let updates := bulkEditUpdates (App.assets st) bulkEditForm selectedAssetIds in
  if (0 <? length updates)%nat
  then (App.handleBulkUpdateAssets st updates, Some (length updates))
  else (st, None).

(** *** CSV export *)

(** [keys.add(k)] on a [Set], kept in insertion order. *)
Definition setAdd (keys : list jsstring) (k : jsstring) : list jsstring :=
  if existsb (JS.eqb k) keys then keys else keys ++ [k].

Definition getAllCustomFeatureKeys (assets : list Asset.t) : list jsstring :=
  JS.sortStrings
    (fold_left
       (fun keys a =>
          match Asset.customFeatures a with
          | Some features => fold_left setAdd (map fst features) keys
          | None => keys
          end)
       assets []).

Definition quoted (s : jsstring) : jsstring := [JS.quote] ++ s ++ [JS.quote].

(** The names of the members a plain object inherits from
    [Object.prototype]. *)
Definition objectPrototypeMembers : list jsstring :=
  [ js "constructor"; js "hasOwnProperty"; js "isPrototypeOf";
    js "propertyIsEnumerable"; js "toLocaleString"; js "toString";
    js "valueOf"; js "__proto__"; js "__defineGetter__";
    js "__defineSetter__"; js "__lookupGetter__"; js "__lookupSetter__" ].

(** [`${features[key] || ''}`] for a plain object [features]: an own
    property gives its string; the name of an inherited member gives the
    text the engine writes for that member, [inheritedText key]; any other
    key gives the empty text. *)
Definition featureText (inheritedText : jsstring -> jsstring)
    (features : list (jsstring * jsstring)) (key : jsstring) : jsstring :=
  match lookup key features with
  | Some v => v
  | None =>
      if existsb (JS.eqb key) objectPrototypeMembers then inheritedText key
      else []
  end.

(** One element of [rows]: the cells of an asset. *)
Definition exportRow (inheritedText : jsstring -> jsstring)
    (featureHeaders : list jsstring) (a : Asset.t) : list jsstring :=
  let featureValues :=
    map (fun key =>
           quoted (match Asset.customFeatures a with
                   | Some features => featureText inheritedText features key
                   | None => []
                   end))
        featureHeaders in
  [ Asset.id a;
    quoted (Asset.name a);
    Asset.category a;
    quoted (Asset.model a);
    Asset.serialNumber a;
    AssetStatus_value (Asset.status a);
    JS.or_else (Asset.currentHolder a) [];
    Asset.purchaseDate a;
    quoted (JS.or_else (Asset.description a) []) ]
  ++ featureValues.

Definition exportHeaders (lang : Lang) (featureHeaders : list jsstring)
    : list jsstring :=
  [ t lang (js "th_id"); t lang (js "th_name"); t lang (js "th_category");
    js "Model"; js "SN"; t lang (js "th_status"); t lang (js "th_holder");
    js "Date"; js "Desc" ] ++ featureHeaders.

Definition BOM : N := 0xFEFF.

(** The text after the data-URI prefix. *)
Definition csvBody (lang : Lang) (inheritedText : jsstring -> jsstring)
    (featureHeaders : list jsstring) (filteredAssets : list Asset.t)
    : jsstring :=
  [BOM] ++ JS.join [JS.comma] (exportHeaders lang featureHeaders)
    ++ [JS.newline]
    ++ JS.join [JS.newline]
         (map (fun a => JS.join [JS.comma]
                          (exportRow inheritedText featureHeaders a))
              filteredAssets).

Definition dataUriPrefix : jsstring := js "data:text/csv;charset=utf-8,".

(** What a call of [handleExportCSV] does. *)
Inductive ExportOutcome :=
| NothingExported
| URIErrorThrown
| LinkClicked (href download : jsstring).

(** [handleExportCSV]: nothing happens for an empty view; otherwise the
    text is encoded and a link to it is clicked, unless [encodeURI]
    throws.  [assets] is the whole store (the feature columns come from
    it), [filteredAssets] the rows on screen, [isoNow] is
    [new Date().toISOString()]. *)
Definition handleExportCSV (lang : Lang) (inheritedText : jsstring -> jsstring)
    (isoNow : jsstring) (assets filteredAssets : list Asset.t)
    : ExportOutcome :=
  match filteredAssets with
  | [] => NothingExported
  | _ :: _ =>
      let csvContent :=
        dataUriPrefix
          ++ csvBody lang inheritedText (getAllCustomFeatureKeys assets)
               filteredAssets in
      match URI.encodeURI csvContent with
      | Some encodedUri =>
          LinkClicked encodedUri
            (js "assets_export_" ++ firstn 10 isoNow ++ js ".csv")
      | None => URIErrorThrown
      end
  end.

(** *** CSV import *)

Definition placeholderImage : jsstring :=
  js "https://picsum.photos/400/300?random=".

(** The body of the [for] loop of [handleFileUpload].  The state is the
    array [newAssets] and the number of [Math.random()] calls made so far;
    [random k] is the k-th call, [today] is
    [new Date().toISOString().split('T')[0]]. *)
Definition importLine (today : jsstring) (random : nat -> JS.Draw)
    (acc : list Asset.t * nat) (rawLine : jsstring) : list Asset.t * nat :=
  let '(newAssets, k) := acc in
  let line := JS.trim rawLine in
  if JS.truthy line then
    let cells :=
      map (fun s => JS.stripQuotes (JS.trim s)) (JS.split JS.comma line) in
    let name := nth_error cells 0 in
    let category := nth_error cells 1 in
    let model := nth_error cells 2 in
    let serialNumber := nth_error cells 3 in
    match name with
    | Some (c :: cs) =>
        let id := js "AST-" ++ JS.ofNat (JS.floorTimes (random k) 100000) in
        (newAssets ++
           [ Asset.mk id (c :: cs)
               (JS.or_else category (js "General"))
               (JS.or_else model (js "Standard"))
               (JS.or_else serialNumber (js "N/A"))
               today
               AVAILABLE
               None
               (placeholderImage ++ JS.shown (random (S k)))
               (js "qr-" ++ id)
               (Some (js "CSV Import"))
               None ],
         S (S k))
    | _ => acc
    end
  else acc.

(** [newAssets] after the loop [for (let i = 1; i < lines.length; i++)]. *)
Definition parseCSV (today : jsstring) (random : nat -> JS.Draw)
    (content : jsstring) : list Asset.t :=
  fst (fold_left (importLine today random)
         (tl (JS.split JS.newline content)) ([], 0%nat)).

(** [reader.onload]: the new store and the count shown by [alert], if any. *)
Definition handleFileUpload (st : App.Store) (today : jsstring)
    (random : nat -> JS.Draw) (content : jsstring) : App.Store * option nat :=
  let newAssets := parseCSV today random content in
  if (0 <? length newAssets)%nat
  then (App.handleBulkAddAssets st newAssets, Some (length newAssets))
  else (st, None).

End AdminView.

(** ** The summarisation service: the snapshot sent to the model *)

Module SummaryTx.
Record t := mk {
  type : TransactionType;
  asset : jsstring;
  date : jsstring;
  notes : option jsstring
}.
End SummaryTx.

Module GeminiService.




End GeminiService.

(** ** constants.ts: the seed data *)

Module Constants.

Definition MOCK_ASSETS : list Asset.t :=
  [ Asset.mk (js "AST-001") (js "MacBook Pro 16" ++ [JS.quote]) (js "Laptop")
      (js "M3 Max") (js "FVFX1234K9") (js "2024-01-15") AVAILABLE None
      (js "https://picsum.photos/400/300?random=1") (js "qr-ast-001")
      (Some (js "High performance laptop."))
      (Some [(js "Color", js "Space Gray"); (js "RAM", js "64GB")]);
    Asset.mk (js "AST-002") (js "Sony Alpha a7 IV") (js "Camera")
      (js "ILCE-7M4") (js "SNY887221") (js "2023-11-20") BORROWED
      (Some (js "Alice Chen"))
      (js "https://picsum.photos/400/300?random=2") (js "qr-ast-002")
      (Some (js "Full frame mirrorless."))
      (Some [(js "Lens", js "24-70mm GM"); (js "Warranty", js "Extended")]);
    Asset.mk (js "AST-003") (js "DJI Mavic 3 Pro") (js "Drone")
      (js "Mavic 3") (js "DJI998877") (js "2024-02-10") MAINTENANCE None
      (js "https://picsum.photos/400/300?random=3") (js "qr-ast-003")
      (Some (js "Triple camera drone.")) None;
    Asset.mk (js "AST-004") (js "Projector 4K") (js "Office")
      (js "Epson Pro") (js "EPS445566") (js "2023-05-05") AVAILABLE None
      (js "https://picsum.photos/400/300?random=4") (js "qr-ast-004")
      (Some (js "Main meeting room projector."))
      (Some [(js "Resolution", js "4K"); (js "Mount", js "Ceiling")]);
    Asset.mk (js "AST-005") (js "iPad Pro 12.9" ++ [JS.quote]) (js "Tablet")
      (js "6th Gen") (js "APP998811") (js "2024-03-01") AVAILABLE None
      (js "https://picsum.photos/400/300?random=5") (js "qr-ast-005")
      (Some (js "Design tablet."))
      (Some [(js "Storage", js "1TB"); (js "Connectivity", js "5G + Wi-Fi")]) ].

(** [loaded] is the [Date.now()] of module initialisation. *)
Definition MOCK_TRANSACTIONS (loaded : Z) : list Transaction.t :=
  [ Transaction.mk (js "TX-1001") (js "AST-002") (js "Sony Alpha a7 IV")
      (js "U001") (js "Alice Chen") BORROW (loaded - 86400000 * 2)%Z []
      (Some (js "Project photoshoot"));
    Transaction.mk (js "TX-1002") (js "AST-003") (js "DJI Mavic 3 Pro")
      (js "U002") (js "Bob Smith") MAINTENANCE_LOG (loaded - 86400000 * 5)%Z []
      (Some (js "Propeller check")) ].

Definition initialStore (loaded : Z) : App.Store :=
  App.mkStore MOCK_ASSETS (MOCK_TRANSACTIONS loaded).

End Constants.

(** ** Vocabulary of the properties *)

(** The store lookup [assets.find(a => a.id === id)]. *)
Definition findAsset (assets : list Asset.t) (k : jsstring) : option Asset.t :=
  find (fun a => JS.eqb (Asset.id a) k) assets.

(** The asset update of [handleTransaction], as a function of one asset. *)
Definition transition (assetId : jsstring) (type : TransactionType)
    (userName : jsstring) (a : Asset.t) : Asset.t :=
  if JS.eqb (Asset.id a) assetId then
    App.withStatusHolder a
      (if TransactionType_eqb type BORROW then BORROWED else AVAILABLE)
      (if TransactionType_eqb type BORROW then Some userName else None)
  else a.

(** [b'] is [b] with status [s] and holder [h], every other field being
    as it was. *)
Definition updatedTo (b b' : Asset.t) (s : AssetStatus) (h : option jsstring)
    : Prop :=
  Asset.status b' = s
  /\ Asset.currentHolder b' = h
  /\ Asset.id b' = Asset.id b
  /\ Asset.name b' = Asset.name b
  /\ Asset.category b' = Asset.category b
  /\ Asset.model b' = Asset.model b
  /\ Asset.serialNumber b' = Asset.serialNumber b
  /\ Asset.purchaseDate b' = Asset.purchaseDate b
  /\ Asset.imageUrl b' = Asset.imageUrl b
  /\ Asset.qrCode b' = Asset.qrCode b
  /\ Asset.description b' = Asset.description b
  /\ Asset.customFeatures b' = Asset.customFeatures b.

(** What a lifecycle transition on asset [a] must do to the store: exactly
    one ledger entry is appended, of type [ty], for the id of [a], naming
    [userName] and carrying the instant, signature and notes of the call;
    the collection keeps its length and order; the assets with the id of
    [a], and [a] among them, get status [s] and holder [h] and keep their
    other fields; the other assets stay as they are. *)
Definition transitionEffect (st st' : App.Store) (a : Asset.t)
    (ty : TransactionType) (userName signature : jsstring)
    (notes : option jsstring) (now : Z) (s : AssetStatus)
    (h : option jsstring) : Prop :=
  (exists tx,
     App.transactions st' = App.transactions st ++ [tx]
     /\ Transaction.type tx = ty
     /\ Transaction.assetId tx = Asset.id a
     /\ Transaction.userName tx = userName
     /\ Transaction.timestamp tx = now
     /\ Transaction.signatureUrl tx = signature
     /\ Transaction.notes tx = notes)
  /\ length (App.assets st') = length (App.assets st)
  /\ (forall i b,
        nth_error (App.assets st) i = Some b ->
        exists b',
          nth_error (App.assets st') i = Some b'
          /\ (Asset.id b = Asset.id a -> updatedTo b b' s h)
          /\ (Asset.id b <> Asset.id a -> b' = b))
  /\ (exists a', In a' (App.assets st') /\ updatedTo a a' s h).

(** The holder invariant of the data model. *)
Definition holderInvariant (a : Asset.t) : Prop :=
  Asset.currentHolder a <> None <-> Asset.status a = BORROWED.

(** An asset as the CSV import creates it. *)
Definition freshlyImported (today : jsstring) (a : Asset.t) : Prop :=
  Asset.status a = AVAILABLE
  /\ Asset.currentHolder a = None
  /\ Asset.purchaseDate a = today
  /\ (exists r, Asset.imageUrl a = AdminView.placeholderImage ++ r)
  /\ (exists n, Asset.id a = js "AST-" ++ JS.ofNat n)
  /\ Asset.qrCode a = js "qr-" ++ Asset.id a.

(** Whether the bulk-edit form holds a field to apply. *)
Definition patchPresent (form : BulkEditForm.t) : bool :=
  match BulkEditForm.status form with
  | Some _ => true
  | None => JS.truthy_opt (BulkEditForm.category form)
  end.

(** The fields of the form that are present, written into an asset. *)
Definition applyPatch (form : BulkEditForm.t) (a : Asset.t) : Asset.t :=
  Asset.mk (Asset.id a) (Asset.name a)
    (JS.or_else (BulkEditForm.category form) (Asset.category a))
    (Asset.model a) (Asset.serialNumber a) (Asset.purchaseDate a)
    (match BulkEditForm.status form with
     | Some s => s
     | None => Asset.status a
     end)
    (Asset.currentHolder a) (Asset.imageUrl a) (Asset.qrCode a)
    (Asset.description a) (Asset.customFeatures a).

(** The store entries the selected ids resolve to, in selection order; an
    id without an entry contributes nothing. *)
Definition existingTargets (assets : list Asset.t) (selected : list jsstring)
    : list Asset.t :=
  flat_map (fun k => match findAsset assets k with
                     | Some a => [a]
                     | None => []
                     end) selected.

Definition Severity_eqb (s u : Severity) : bool :=
  match s, u with
  | warning, warning | critical, critical => true
  | _, _ => false
  end.

(** The alerts of one severity. *)
Definition alertsOfSeverity (s : Severity) (ns : list Notification.t)
    : list Notification.t :=
  filter (fun n => Severity_eqb (Notification.type n) s) ns.

(** The alerts whose key is [key]. *)
Definition alertsWithKey (key : jsstring) (ns : list Notification.t)
    : list Notification.t :=
  filter (fun n => JS.eqb (Notification.id n) key) ns.

(** [tx] records a Borrow of asset [a]. *)
Definition isBorrowOf (a : Asset.t) (tx : Transaction.t) : Prop :=
  Transaction.assetId tx = Asset.id a /\ Transaction.type tx = BORROW.

(** [tx] is a most recent Borrow of [a] in the ledger. *)
Definition latestBorrowOf (transactions : list Transaction.t) (a : Asset.t)
    (tx : Transaction.t) : Prop :=
  In tx transactions /\ isBorrowOf a tx
  /\ forall tx', In tx' transactions -> isBorrowOf a tx' ->
                 (Transaction.timestamp tx' <= Transaction.timestamp tx)%Z.

(** A day, in the milliseconds of [Date.now()]. *)
Definition dayMs : Z := 86400000%Z.

(** The most recent Borrow of [a] is more than seven days before [now]. *)
Definition overdue (transactions : list Transaction.t) (now : Z) (a : Asset.t)
    : Prop :=
  exists tx, latestBorrowOf transactions a tx
             /\ (7 * dayMs < now - Transaction.timestamp tx)%Z.

(** The cells of a CSV line as the import reads them: the trimmed line cut
    at commas, every cell trimmed and relieved of one surrounding pair of
    double quotes. *)
Definition rowCells (rawLine : jsstring) : list jsstring :=
  map (fun s => JS.stripQuotes (JS.trim s))
    (JS.split JS.comma (JS.trim rawLine)).

(** The name cell of a line (empty for a blank line). *)
Definition rowName (rawLine : jsstring) : jsstring :=
  JS.or_else (nth_error (rowCells rawLine) 0) [].

(** The lines after the header line. *)
Definition dataRows (content : jsstring) : list jsstring :=
  tl (JS.split JS.newline content).

(** The data rows whose name cell is not empty. *)
Definition acceptedRows (content : jsstring) : list jsstring :=
  filter (fun r => JS.truthy (rowName r)) (dataRows content).

(** Name, category, model and serial number of an asset. *)
Definition fields4 (a : Asset.t)
    : jsstring * jsstring * jsstring * jsstring :=
  (Asset.name a, Asset.category a, Asset.model a, Asset.serialNumber a).

(** The same four, as the import reads them off a line. *)
Definition importedFields (rawLine : jsstring)
    : jsstring * jsstring * jsstring * jsstring :=
  (rowName rawLine,
   JS.or_else (nth_error (rowCells rawLine) 1) (js "General"),
   JS.or_else (nth_error (rowCells rawLine) 2) (js "Standard"),
   JS.or_else (nth_error (rowCells rawLine) 3) (js "N/A")).

(** The id drawn for the [i]-th accepted row: every accepted row consumes
    two calls of [Math.random()], the first for its id. *)
Definition importedId (random : nat -> JS.Draw) (i : nat) : jsstring :=
  js "AST-" ++ JS.ofNat (JS.floorTimes (random (2 * i)%nat) 100000).


(** The code unit [c] does not occur in [s]. *)
Definition freeOf (c : N) (s : jsstring) : bool :=
  forallb (fun x => negb (x =? c)) s.

(** A text that holds neither the cell delimiter nor a line break. *)
Definition plain (s : jsstring) : bool :=
  freeOf JS.comma s && freeOf JS.newline s.

(** A text that the import's cleaning of a cell leaves as it is. *)
Definition bare (s : jsstring) : bool :=
  JS.eqb (JS.trim s) s && JS.eqb (JS.stripQuotes s) s.

(** The [i]-th asset of the seed data. *)
Definition seedAsset (i : nat) : Asset.t :=
  nth i Constants.MOCK_ASSETS
    (Asset.mk [] [] [] [] [] [] AVAILABLE None [] [] None None).

(** The seed store after the projector (AST-004) was marked Lost by a
    direct edit. *)
Definition seedWithLostProjector : App.Store :=
  App.handleUpdateAsset (Constants.initialStore 0)
    (AdminView.withStatus (seedAsset 3) LOST).

(** ** components/MobileView.tsx *)

Module MobileView.

Inductive ViewState :=
| home | scan_result | sign_flow | history | admin_login | admin_dashboard.

(** The [useState] cells of the component. *)
Record State := mkState {
  viewState : ViewState;
  scannedAsset : option Asset.t;
  userName : jsstring;
  flowType : TransactionType;
  currentAdminPassword : jsstring;
  adminPasswordInput : jsstring;
  isAdminLoggedIn : bool;
  adminSearch : jsstring;
  showPasswordChange : bool;
  newPassword : jsstring
}.

Definition initialState : State :=
  mkState home None [] BORROW (js "123456") [] false [] false [].

Definition setViewState (s : State) (v : ViewState) : State :=
  mkState v (scannedAsset s) (userName s) (flowType s)
    (currentAdminPassword s) (adminPasswordInput s) (isAdminLoggedIn s)
    (adminSearch s) (showPasswordChange s) (newPassword s).

Definition setScannedAsset (s : State) (a : option Asset.t) : State :=
  mkState (viewState s) a (userName s) (flowType s)
    (currentAdminPassword s) (adminPasswordInput s) (isAdminLoggedIn s)
    (adminSearch s) (showPasswordChange s) (newPassword s).

Definition setUserName (s : State) (n : jsstring) : State :=
  mkState (viewState s) (scannedAsset s) n (flowType s)
    (currentAdminPassword s) (adminPasswordInput s) (isAdminLoggedIn s)
    (adminSearch s) (showPasswordChange s) (newPassword s).

Definition setFlowType (s : State) (ty : TransactionType) : State :=
  mkState (viewState s) (scannedAsset s) (userName s) ty
    (currentAdminPassword s) (adminPasswordInput s) (isAdminLoggedIn s)
    (adminSearch s) (showPasswordChange s) (newPassword s).

Definition setCurrentAdminPassword (s : State) (p : jsstring) : State :=
  mkState (viewState s) (scannedAsset s) (userName s) (flowType s)
    p (adminPasswordInput s) (isAdminLoggedIn s)
    (adminSearch s) (showPasswordChange s) (newPassword s).

Definition setAdminPasswordInput (s : State) (p : jsstring) : State :=
  mkState (viewState s) (scannedAsset s) (userName s) (flowType s)
    (currentAdminPassword s) p (isAdminLoggedIn s)
    (adminSearch s) (showPasswordChange s) (newPassword s).

Definition setIsAdminLoggedIn (s : State) (b : bool) : State :=
  mkState (viewState s) (scannedAsset s) (userName s) (flowType s)
    (currentAdminPassword s) (adminPasswordInput s) b
    (adminSearch s) (showPasswordChange s) (newPassword s).

Definition setAdminSearch (s : State) (q : jsstring) : State :=
  mkState (viewState s) (scannedAsset s) (userName s) (flowType s)
    (currentAdminPassword s) (adminPasswordInput s) (isAdminLoggedIn s)
    q (showPasswordChange s) (newPassword s).

Definition setShowPasswordChange (s : State) (b : bool) : State :=
  mkState (viewState s) (scannedAsset s) (userName s) (flowType s)
    (currentAdminPassword s) (adminPasswordInput s) (isAdminLoggedIn s)
    (adminSearch s) b (newPassword s).

Definition setNewPassword (s : State) (p : jsstring) : State :=
  mkState (viewState s) (scannedAsset s) (userName s) (flowType s)
    (currentAdminPassword s) (adminPasswordInput s) (isAdminLoggedIn s)
    (adminSearch s) (showPasswordChange s) p.

(** The entries of [TRANSLATIONS] (constants.ts) that the handlers below
    read. *)
Definition TRANSLATIONS (lang : Lang) : list (jsstring * jsstring) :=
  match lang with
  | zh =>
      [ (js "signerName",
         [0x501F; 0x7528; 0x4EBA; 0x002F; 0x5F52; 0x8FD8; 0x4EBA; 0x59D3;
          0x540D]);
        (js "success", [0x6210; 0x529F]) ]
  | en =>
      [ (js "signerName", js "Name");
        (js "success", js "Success") ]
  end.

Definition t (lang : Lang) (key : jsstring) : jsstring :=
  JS.or_else (AdminView.lookup key (TRANSLATIONS lang)) key.

(** [handleSimulateScan]: [draw] is its call of [Math.random()]; an index
    past the end reads [undefined]. *)
Definition handleSimulateScan (assets : list Asset.t) (draw : JS.Draw)
    (s : State) : State :=
  let randomAsset :=
    nth_error assets
      (N.to_nat (JS.floorTimes draw (N.of_nat (length assets)))) in
  setViewState (setScannedAsset s randomAsset) scan_result.

Definition startTransaction (s : State) (type : TransactionType) : State :=
  setViewState (setFlowType s type) sign_flow.

(** [handleSignatureComplete]: the new component state, the store after
    [onTransaction] (the [handleTransaction] of [App.tsx]) and the text
    shown by [alert]. *)
Definition handleSignatureComplete (lang : Lang) (s : State)
    (store : App.Store) (txDraw userDraw : JS.Draw) (now : Z)
    (signature : jsstring) (notes : option jsstring)
    : State * App.Store * jsstring :=
  match scannedAsset s with
  | Some asset =>
      if JS.truthy (userName s) then
        (setUserName (setScannedAsset (setViewState s home) None) [],
         App.handleTransaction store txDraw userDraw now (Asset.id asset)
           (flowType s) (userName s) signature notes,
         TransactionType_value (flowType s) ++ js " "
           ++ t lang (js "success") ++ js "!")
      else (s, store, t lang (js "signerName"))
  | None => (s, store, t lang (js "signerName"))
  end.

Definition getAssetHistory (transactions : list Transaction.t)
    (assetId : jsstring) : list Transaction.t :=
  JS.sort (fun a b => (Transaction.timestamp b - Transaction.timestamp a)%Z)
    (filter (fun tx => JS.eqb (Transaction.assetId tx) assetId) transactions).

Definition handleAdminLogin (s : State) : State * option jsstring :=
  if JS.eqb (adminPasswordInput s) (currentAdminPassword s) then
    (setAdminPasswordInput
       (setViewState (setIsAdminLoggedIn s true) admin_dashboard) [],
     None)
  else (s, Some (js "Error (Default: 123456)")).

Definition updateAdminPassword (lang : Lang) (s : State)
    : State * option jsstring :=
  if (4 <=? length (newPassword s))%nat then
    (setNewPassword
       (setShowPasswordChange (setCurrentAdminPassword s (newPassword s)) false)
       [],
     Some (t lang (js "success")))
  else (s, Some (js "Min 4 chars")).

(** [filteredAssets] of the [AdminDashboard] sub-component;
    [toLowerCase] is [String.prototype.toLowerCase]. *)
Definition filteredAssets (toLowerCase : jsstring -> jsstring)
    (assets : list Asset.t) (s : State) : list Asset.t :=
  filter (fun a =>
            JSText.includes (toLowerCase (Asset.name a))
              (toLowerCase (adminSearch s))
            || JSText.includes (toLowerCase (Asset.id a))
                 (toLowerCase (adminSearch s)))
         assets.

(** The action button of the [AssetDetail] sub-component: none for a Lost
    asset, Borrow for an Available one, Return otherwise. *)
Definition offeredAction (scanned : Asset.t) : option TransactionType :=
  match Asset.status scanned with
  | LOST => None
  | AVAILABLE => Some BORROW
  | _ => Some RETURN
  end.

(** What the user can do on the screen. *)
Inductive Event :=
| ClickAdminEntry
| ClickScan (draw : JS.Draw)
| ClickBack
| TypeAdminPassword (p : jsstring)
| ClickLogin
| TogglePasswordChange
| TypeNewPassword (p : jsstring)
| ClickUpdatePassword
| TypeSearch (q : jsstring)
| ClickAsset (index : nat)
| ClickAction
| TypeUserName (n : jsstring)
| SaveSignature (signature notes : jsstring) (txDraw userDraw : JS.Draw)
    (now : Z).

(** The handlers wired to the controls that the sub-component of the
    current [viewState] renders ([Home], [AdminLogin], [AdminDashboard],
    [AssetDetail], [SignFlow]); an event for a control that is not on
    screen changes nothing.  The result is the component state, the store
    and the text of the [alert] shown, if any. *)
Definition step (toLowerCase : jsstring -> jsstring) (lang : Lang)
    (s : State) (store : App.Store) (e : Event)
    : State * App.Store * option jsstring :=
  match viewState s, e with
  | home, ClickAdminEntry =>
      (setViewState s
         (if isAdminLoggedIn s then admin_dashboard else admin_login),
       store, None)
  | home, ClickScan draw =>
      (handleSimulateScan (App.assets store) draw s, store, None)
  | admin_login, ClickBack => (setViewState s home, store, None)
  | admin_login, TypeAdminPassword p =>
      (setAdminPasswordInput s p, store, None)
  | admin_login, ClickLogin =>
      let '(s', alert) := handleAdminLogin s in (s', store, alert)
  | admin_dashboard, ClickBack => (setViewState s home, store, None)
  | admin_dashboard, TogglePasswordChange =>
      (setShowPasswordChange s (negb (showPasswordChange s)), store, None)
  | admin_dashboard, TypeNewPassword p =>
      if showPasswordChange s then (setNewPassword s p, store, None)
      else (s, store, None)
  | admin_dashboard, ClickUpdatePassword =>
      if showPasswordChange s then
        let '(s', alert) := updateAdminPassword lang s in (s', store, alert)
      else (s, store, None)
  | admin_dashboard, TypeSearch q => (setAdminSearch s q, store, None)
  | admin_dashboard, ClickAsset index =>
      match nth_error (filteredAssets toLowerCase (App.assets store) s) index
      with
      | Some asset =>
          (setViewState (setScannedAsset s (Some asset)) scan_result,
           store, None)
      | None => (s, store, None)
      end
  | scan_result, ClickBack =>
      match scannedAsset s with
      | Some _ =>
          (setViewState s
             (if isAdminLoggedIn s then admin_dashboard else home),
           store, None)
      | None => (s, store, None)
      end
  | scan_result, ClickAction =>
      match scannedAsset s with
      | Some scanned =>
          match offeredAction scanned with
          | Some type => (startTransaction s type, store, None)
          | None => (s, store, None)
          end
      | None => (s, store, None)
      end
  | sign_flow, ClickBack => (setViewState s scan_result, store, None)
  | sign_flow, TypeUserName n => (setUserName s n, store, None)
  | sign_flow, SaveSignature signature notes txDraw userDraw now =>
      let '(s', store', alert) :=
        handleSignatureComplete lang s store txDraw userDraw now signature
          (Some notes) in
      (s', store', Some alert)
  | _, _ => (s, store, None)
  end.

End MobileView.

(** ** The admin view: data derived for the dashboard and the filters *)

Module AdminData.

(** [Array.from(new Set(assets.map(a => a.category))).sort()] *)
Definition uniqueCategories (assets : list Asset.t) : list jsstring :=
  JS.sortStrings (fold_left AdminView.setAdd (map Asset.category assets) []).

End AdminData.

(** ** The admin view: the selection of the asset table *)

Module Selection.

(** [set.delete(k)] on a [Set] kept in insertion order. *)
Definition setDelete (keys : list jsstring) (k : jsstring) : list jsstring :=
  filter (fun x => negb (JS.eqb x k)) keys.

(** [handleSelectAll]: the new [selectedAssetIds] for the state of the
    check box. *)
Definition handleSelectAll (checked : bool) (filteredAssets : list Asset.t)
    : list jsstring :=
  if checked
  then fold_left AdminView.setAdd (map Asset.id filteredAssets) []
  else [].

(** [handleSelectAsset]: the new [selectedAssetIds]. *)
Definition handleSelectAsset (selectedAssetIds : list jsstring)
    (id : jsstring) : list jsstring :=
  if existsb (JS.eqb id) selectedAssetIds
  then setDelete selectedAssetIds id
  else AdminView.setAdd selectedAssetIds id.

End Selection.

(** ** components/SignaturePad.tsx *)

Module SignaturePad.

(** A position in whole pixels. *)
Definition Point : Type := (Z * Z)%type.

(** The canvas as the component uses it: its size, the current path of the
    2d context (the points since [beginPath]) and the segments that have
    been stroked and not cleared. *)
Record Canvas := mkCanvas {
  width : Z;
  height : Z;
  path : list Point;
  painted : list (Point * Point)
}.

(** [canvasRef.current] and the two [useState] cells. *)
Record State := mkState {
  canvas : option Canvas;
  isDrawing : bool;
  hasSignature : bool
}.

(** A mouse event, or a touch event with its first touch and the others. *)
Inductive PointerEvent :=
| MouseEvent (clientX clientY : Z)
| TouchEvent (first : Point) (others : list Point).


(** [getCoordinates]; [rect] is the left and top of
    [canvas.getBoundingClientRect()]. *)
Definition getCoordinates (s : State) (rect : Point) (event : PointerEvent)
    : Point :=
  match canvas s with
  | None => (0, 0)%Z
  | Some _ =>
      let '(clientX, clientY) :=
        match event with
        | TouchEvent first _ => first
        | MouseEvent x y => (x, y)
        end in
      (clientX - fst rect, clientY - snd rect)%Z
  end.

(** The segments of a path. *)
Fixpoint segments (p : list Point) : list (Point * Point) :=
  match p with
  | a :: ((b :: _) as rest) => (a, b) :: segments rest
  | _ => []
  end.

(** [ctx.beginPath(); ctx.moveTo(x, y)] *)
Definition startDrawing (s : State) (rect : Point) (e : PointerEvent)
    : State :=
  let xy := getCoordinates s rect e in
  mkState
    (match canvas s with
     | Some c => Some (mkCanvas (width c) (height c) [xy] (painted c))
     | None => None
     end)
    true (hasSignature s).

(** [ctx.lineTo(x, y); ctx.stroke(); setHasSignature(true)] *)
Definition draw (s : State) (rect : Point) (e : PointerEvent) : State :=
  if negb (isDrawing s) then s
  else
    let xy := getCoordinates s rect e in
    match canvas s with
    | Some c =>
        let path' := path c ++ [xy] in
        mkState
          (Some (mkCanvas (width c) (height c) path'
                   (painted c ++ segments path')))
          (isDrawing s) true
    | None => s
    end.

Definition stopDrawing (s : State) : State :=
  mkState (canvas s) false (hasSignature s).

(** [ctx.clearRect(0, 0, canvas.width, canvas.height)] *)
Definition clearPad (s : State) : State :=
  match canvas s with
  | Some c =>
      mkState (Some (mkCanvas (width c) (height c) (path c) []))
        (isDrawing s) false
  | None => s
  end.


(** The events of the canvas and of the two buttons. *)
Inductive Event :=
| Down (rect : Point) (e : PointerEvent)
| Move (rect : Point) (e : PointerEvent)
| Up
| ClickClear.

Definition step (s : State) (ev : Event) : State :=
  match ev with
  | Down rect e => startDrawing s rect e
  | Move rect e => draw s rect e
  | Up => stopDrawing s
  | ClickClear => clearPad s
  end.

End SignaturePad.

(** ** Vocabulary of the further properties *)

(** One mutating call on the store, with the arguments of the handler of
    [App.tsx] it stands for. *)
Inductive StoreOp :=
| Transact (txDraw userDraw : JS.Draw) (now : Z) (assetId : jsstring)
    (type : TransactionType) (userName signature : jsstring)
    (notes : option jsstring)
| AddAsset (newAsset : Asset.t)
| BulkAddAssets (newAssets : list Asset.t)
| UpdateAsset (updatedAsset : Asset.t)
| BulkUpdateAssets (updatedAssets : list Asset.t).

Definition applyOp (st : App.Store) (op : StoreOp) : App.Store :=
  match op with
  | Transact txDraw userDraw now assetId type userName signature notes =>
      App.handleTransaction st txDraw userDraw now assetId type userName
        signature notes
  | AddAsset newAsset => App.handleAddAsset st newAsset
  | BulkAddAssets newAssets => App.handleBulkAddAssets st newAssets
  | UpdateAsset updatedAsset => App.handleUpdateAsset st updatedAsset
  | BulkUpdateAssets updatedAssets => App.handleBulkUpdateAssets st updatedAssets
  end.

(** A sequence of calls, in order. *)
Definition runOps (st : App.Store) (ops : list StoreOp) : App.Store :=
  fold_left applyOp ops st.

Definition isTransact (op : StoreOp) : bool :=
  match op with Transact _ _ _ _ _ _ _ _ => true | _ => false end.

(** The order of the default [sort] on strings: code units compared one by
    one. *)
Definition strLt (s u : jsstring) : Prop := JS.compare s u = Lt.

(** The feature names an asset carries. *)
Definition featureKeys (a : Asset.t) : list jsstring :=
  match Asset.customFeatures a with
  | Some features => map fst features
  | None => []
  end.

(** A cell that holds no delimiter and that the import's cleaning leaves
    as it is. *)
Definition cleanCell (c : jsstring) : bool :=
  freeOf JS.comma c && freeOf JS.newline c && bare c.

(** Name, category, model and serial number as the import takes them from
    the cells of a row: the first four cells, with the defaults for the
    cells that are missing or empty. *)
Definition cellsFields (cells : list jsstring)
    : jsstring * jsstring * jsstring * jsstring :=
  (JS.or_else (nth_error cells 0) [],
   JS.or_else (nth_error cells 1) (js "General"),
   JS.or_else (nth_error cells 2) (js "Standard"),
   JS.or_else (nth_error cells 3) (js "N/A")).

(** The text of a table: a header line, then one line per row, the cells
    of a row separated by commas. *)
Definition tableText (header : jsstring) (rows : list (list jsstring))
    : jsstring :=
  header ++ [JS.newline]
    ++ JS.join [JS.newline] (map (JS.join [JS.comma]) rows).

(** Whether a text is empty or starts with a unit that is not white
    space. *)
Definition firstNonSpace (s : jsstring) : bool :=
  match s with
  | [] => true
  | c :: _ => negb (JS.is_space c)
  end.



(** The mobile screen after a sequence of events, with the store. *)
Definition mobileRun (toLowerCase : jsstring -> jsstring) (lang : Lang)
    (s : MobileView.State) (store : App.Store) (events : list MobileView.Event)
    : MobileView.State * App.Store :=
  fold_left
    (fun acc e =>
       let '(s', store', _) :=
         MobileView.step toLowerCase lang (fst acc) (snd acc) e in
       (s', store'))
    events (s, store).

(** A lifecycle call as the mobile screen lets the user make it: signed
    with a name, a Borrow of an asset of the store that is Available or a
    Return of one that is Borrowed or in Maintenance. *)
Definition guardedTransaction (st st' : App.Store) : Prop :=
  exists a txDraw userDraw now ty userName signature notes,
    In a (App.assets st)
    /\ userName <> []
    /\ ((ty = BORROW /\ Asset.status a = AVAILABLE)
        \/ (ty = RETURN
            /\ (Asset.status a = BORROWED \/ Asset.status a = MAINTENANCE)))
    /\ st' = App.handleTransaction st txDraw userDraw now (Asset.id a) ty
               userName signature notes.

(** What holds of the mobile screen at any time: the asset on screen is an
    entry of the store; the signing step is for the action offered for that
    asset; the admin dashboard is only shown after a login; the admin
    password has at least four units. *)
Definition mobileInvariant (s : MobileView.State) (st : App.Store) : Prop :=
  (forall a, MobileView.scannedAsset s = Some a -> In a (App.assets st))
  /\ (MobileView.viewState s = MobileView.sign_flow ->
      exists a, MobileView.scannedAsset s = Some a
                /\ MobileView.offeredAction a = Some (MobileView.flowType s))
  /\ (MobileView.viewState s = MobileView.admin_dashboard ->
      MobileView.isAdminLoggedIn s = true)
  /\ (4 <= length (MobileView.currentAdminPassword s))%nat.

Definition isClickLogin (e : MobileView.Event) : bool :=
  match e with MobileView.ClickLogin => true | _ => false end.

(** ** The CSV import, in the words of its specification *)

(** The white space of the language standard: the WhiteSpace and
    LineTerminator code points. *)
Definition whiteSpaceUnits : list N :=
  [ 0x0009; 0x000A; 0x000B; 0x000C; 0x000D; 0x0020; 0x00A0; 0x1680;
    0x2000; 0x2001; 0x2002; 0x2003; 0x2004; 0x2005; 0x2006; 0x2007;
    0x2008; 0x2009; 0x200A; 0x2028; 0x2029; 0x202F; 0x205F; 0x3000;
    0xFEFF ].

Definition whiteSpace (c : N) : Prop := In c whiteSpaceUnits.

(** [t] is [s] without the white space at its two ends. *)
Definition trimmedTo (s t : jsstring) : Prop :=
  exists l r,
    s = l ++ t ++ r
    /\ Forall whiteSpace l /\ Forall whiteSpace r
    /\ (forall c t', t = c :: t' -> ~ whiteSpace c)
    /\ (forall t' c, t = t' ++ [c] -> ~ whiteSpace c).

(** [u] is [t] without the double quote at its start, if it starts with
    one, and without the double quote at the end of what is left, if that
    ends with one. *)
Definition unquotedTo (t u : jsstring) : Prop :=
  exists m,
    (t = 34 :: m \/ (t = m /\ forall t', t <> 34 :: t'))
    /\ (m = u ++ [34] \/ (m = u /\ forall u', u <> u' ++ [34])).

(** [parts] are the texts between the occurrences of [sep] in a text. *)
Inductive cutAt (sep : N) : jsstring -> list jsstring -> Prop :=
| cutAt_last (f : jsstring) :
    ~ In sep f -> cutAt sep f [f]
| cutAt_next (f rest : jsstring) (parts : list jsstring) :
    ~ In sep f -> cutAt sep rest parts ->
    cutAt sep (f ++ sep :: rest) (f :: parts).

(** The cells of a data line: the line without the white space around it
    is cut at its commas (code unit 44), and every field is relieved of the
    white space around it and then of its surrounding double quotes. *)
Definition cellsOf (rawLine : jsstring) (cells : list jsstring) : Prop :=
  exists line fields,
    trimmedTo rawLine line
    /\ cutAt 44 line fields
    /\ Forall2 (fun f c => exists t, trimmedTo f t /\ unquotedTo t c)
         fields cells.

(** A row is named when its first cell is not empty. *)
Definition named (cells : list jsstring) : bool :=
  match cells with
  | (_ :: _) :: _ => true
  | _ => false
  end.

(** The [i]-th cell, or [d] when it is missing or empty. *)
Definition cellOr (cells : list jsstring) (i : nat) (d : jsstring) : jsstring :=
  match nth_error cells i with
  | Some (c :: s) => c :: s
  | _ => d
  end.

(** The asset to create for the [i]-th named row, of cells [cells]: the
    first four cells with their defaults, a fresh id from the first of the
    row's two random draws, status Available, no holder, the import date
    and a placeholder image. *)
Definition createdFrom (today : jsstring) (random : nat -> JS.Draw) (i : nat)
    (cells : list jsstring) : Asset.t :=
  Asset.mk
    (js "AST-" ++ JS.ofNat (JS.floorTimes (random (2 * i)%nat) 100000))
    (cellOr cells 0 [])
    (cellOr cells 1 (js "General"))
    (cellOr cells 2 (js "Standard"))
    (cellOr cells 3 (js "N/A"))
    today
    AVAILABLE
    None
    (js "https://picsum.photos/400/300?random="
       ++ JS.shown (random (S (2 * i))))
    (js "qr-AST-" ++ JS.ofNat (JS.floorTimes (random (2 * i)%nat) 100000))
    (Some (js "CSV Import"))
    None.

(** The assets to create for the rows of cells [rows], in order. *)
Definition createdFromRows (today : jsstring) (random : nat -> JS.Draw)
    (rows : list (list jsstring)) : list Asset.t :=
  map (fun ic => createdFrom today random (fst ic) (snd ic))
    (combine (seq 0 (length (filter named rows))) (filter named rows)).

(** ** Export followed by import, in the words of the specification *)

(** A text of code units: every unit is below 2^16. *)
Definition codeUnits (s : jsstring) : bool :=
  forallb (fun c => c <? 0x10000) s.

(** A text that [encodeURI] accepts and that the saved file holds in
    full: no surrogate without its partner and no [#] (code unit 35). *)
Definition encodable (s : jsstring) : bool :=
  URI.wellFormed s && codeUnits s && freeOf 35 s.

(** A text that can be written into a cell and read back: encodable, and
    without comma and line break. *)
Definition clean (s : jsstring) : bool := plain s && encodable s.






(** The line the export writes for an asset. *)
Definition exportLine (inheritedText : jsstring -> jsstring)
    (featureHeaders : list jsstring) (a : Asset.t) : jsstring :=
  JS.join [JS.comma] (AdminView.exportRow inheritedText featureHeaders a).

(** The exported text: the header line, then one line per asset. *)
Definition csvText (lang : Lang) (inheritedText : jsstring -> jsstring)
    (featureHeaders : list jsstring) (filteredAssets : list Asset.t)
    : jsstring :=
  JS.join [JS.comma] (AdminView.exportHeaders lang featureHeaders)
    ++ [JS.newline]
    ++ JS.join [JS.newline]
         (map (exportLine inheritedText featureHeaders) filteredAssets).

(** The part of a text before the first occurrence of the unit [c]. *)
Fixpoint beforeFirst (c : N) (s : jsstring) : jsstring :=
  match s with
  | [] => []
  | x :: s' => if x =? c then [] else x :: beforeFirst c s'
  end.

(** The octets of the byte-order mark. *)
Definition utf8Mark : list N := [0xEF; 0xBB; 0xBF].

(** ** Properties *)

(** *** Strings *)

Lemma eqb_eq (s u : jsstring) : JS.eqb s u = true <-> s = u.
Proof.
  unfold JS.eqb. destruct (list_eq_dec N.eq_dec s u); split; congruence.
Qed.

Lemma eqb_refl (s : jsstring) : JS.eqb s s = true.
Proof. now apply eqb_eq. Qed.

Lemma eqb_neq (s u : jsstring) : JS.eqb s u = false <-> s <> u.
Proof.
  unfold JS.eqb. destruct (list_eq_dec N.eq_dec s u); split; congruence.
Qed.

Lemma AssetStatus_eqb_eq (s u : AssetStatus) :
  AssetStatus_eqb s u = true <-> s = u.
Proof. destruct s, u; simpl; split; congruence. Qed.

Lemma TransactionType_eqb_eq (s u : TransactionType) :
  TransactionType_eqb s u = true <-> s = u.
Proof. destruct s, u; simpl; split; congruence. Qed.

(** [t.type === 'Borrow'] singles out the Borrow member of the enum. *)
Lemma type_is_Borrow (ty : TransactionType) :
  JS.eqb (TransactionType_value ty) (js "Borrow") = true <-> ty = BORROW.
Proof. destruct ty; vm_compute; split; congruence. Qed.


Lemma findAsset_none (assets : list Asset.t) (k : jsstring) :
  (forall a, In a assets -> Asset.id a <> k) -> findAsset assets k = None.
Proof.
  intros H. unfold findAsset.
  destruct (find _ assets) as [a|] eqn:E; [|reflexivity].
  apply find_some in E. destruct E as [Hin Hk].
  apply eqb_eq in Hk. now apply H in Hin.
Qed.

Lemma findAsset_some (assets : list Asset.t) (k : jsstring) (a : Asset.t) :
  findAsset assets k = Some a -> In a assets /\ Asset.id a = k.
Proof.
  unfold findAsset. intros E. apply find_some in E.
  destruct E as [Hin Hk]. now apply eqb_eq in Hk.
Qed.

Lemma findAsset_in (assets : list Asset.t) (a : Asset.t) :
  In a assets -> exists b, findAsset assets (Asset.id a) = Some b.
Proof.
  intros Hin. unfold findAsset.
  destruct (find _ assets) as [b|] eqn:E; [now exists b|].
  eapply find_none in E; [|exact Hin]. simpl in E.
  now rewrite eqb_refl in E.
Qed.

(** *** Lifecycle transitions *)

Lemma handleTransaction_found (st : App.Store) (d1 d2 : JS.Draw) (now : Z)
    (a : Asset.t) (type : TransactionType) (userName signature : jsstring)
    (notes : option jsstring) :
  In a (App.assets st) ->
  exists tx,
    App.handleTransaction st d1 d2 now (Asset.id a) type userName signature notes
    = App.mkStore (map (transition (Asset.id a) type userName) (App.assets st))
        (App.transactions st ++ [tx])
    /\ Transaction.type tx = type
    /\ Transaction.assetId tx = Asset.id a
    /\ Transaction.userName tx = userName
    /\ Transaction.timestamp tx = now
    /\ Transaction.signatureUrl tx = signature
    /\ Transaction.notes tx = notes.
Proof.
  intros Hin. destruct (findAsset_in _ _ Hin) as [b Hb].
  unfold App.handleTransaction. unfold findAsset in Hb. rewrite Hb.
  eexists. split; [reflexivity|]. simpl. repeat split.
Qed.

(** C10: a lifecycle transaction on an id that is not in the store changes
    nothing: the asset collection and the ledger are the ones before. *)
Theorem handleTransaction_unknown_id_noop (st : App.Store) (d1 d2 : JS.Draw)
    (now : Z) (assetId : jsstring) (type : TransactionType)
    (userName signature : jsstring) (notes : option jsstring) :
  (forall a, In a (App.assets st) -> Asset.id a <> assetId) ->
  App.handleTransaction st d1 d2 now assetId type userName signature notes = st.
Proof.
  intros H. unfold App.handleTransaction.
  pose proof (findAsset_none _ _ H) as E. unfold findAsset in E.
  now rewrite E.
Qed.

Lemma withStatusHolder_updatedTo (b : Asset.t) (s : AssetStatus)
    (h : option jsstring) :
  updatedTo b (App.withStatusHolder b s h) s h.
Proof. unfold updatedTo. simpl. repeat split. Qed.

Lemma transition_effect (st : App.Store) (d1 d2 : JS.Draw) (now : Z)
    (a : Asset.t) (ty : TransactionType) (userName signature : jsstring)
    (notes : option jsstring) :
  In a (App.assets st) ->
  transitionEffect st
    (App.handleTransaction st d1 d2 now (Asset.id a) ty userName signature notes)
    a ty userName signature notes now
    (if TransactionType_eqb ty BORROW then BORROWED else AVAILABLE)
    (if TransactionType_eqb ty BORROW then Some userName else None).
Proof.
  intros Hin.
  destruct (handleTransaction_found st d1 d2 now a ty userName signature notes Hin)
    as (tx & -> & Hty & Hid & Hu & Hn & Hs & Hno).
  unfold transitionEffect; simpl. split; [|split; [|split]].
  - exists tx. repeat split; assumption.
  - apply length_map.
  - intros i b Hb. rewrite nth_error_map, Hb. simpl.
    eexists. split; [reflexivity|]. unfold transition. split; intros E.
    + apply eqb_eq in E. rewrite E. apply withStatusHolder_updatedTo.
    + apply eqb_neq in E. now rewrite E.
  - eexists. split; [|apply withStatusHolder_updatedTo].
    apply in_map_iff. exists a. split; [|exact Hin].
    unfold transition. now rewrite eqb_refl.
Qed.

(** C3: Borrow on an Available asset gives it status Borrowed and the
    given user as holder, and appends exactly one ledger entry, of type
    Borrow, for its id; Return on a Borrowed asset gives it status
    Available and no holder, and appends exactly one entry, of type Return,
    for its id.  In both cases the entry names the user and carries the
    instant, signature and notes of the call, the asset keeps every other
    field, and the other assets are left as they are. *)
Theorem borrow_and_return_effect (st : App.Store) (d1 d2 : JS.Draw) (now : Z)
    (a : Asset.t) (userName signature : jsstring) (notes : option jsstring) :
  In a (App.assets st) ->
  (Asset.status a = AVAILABLE ->
   transitionEffect st
     (App.handleTransaction st d1 d2 now (Asset.id a) BORROW userName
        signature notes)
     a BORROW userName signature notes now BORROWED (Some userName))
  /\ (Asset.status a = BORROWED ->
      transitionEffect st
        (App.handleTransaction st d1 d2 now (Asset.id a) RETURN userName
           signature notes)
        a RETURN userName signature notes now AVAILABLE None).
Proof.
  intros Hin. split; intros _.
  - exact (transition_effect st d1 d2 now a BORROW userName signature notes Hin).
  - exact (transition_effect st d1 d2 now a RETURN userName signature notes Hin).
Qed.

(** A Maintenance-Log transition takes the branch of Return. *)
Lemma log_maintenance_effect (st : App.Store) (d1 d2 : JS.Draw) (now : Z)
    (a : Asset.t) (userName signature : jsstring) (notes : option jsstring) :
  In a (App.assets st) ->
  transitionEffect st
    (App.handleTransaction st d1 d2 now (Asset.id a) MAINTENANCE_LOG userName
       signature notes)
    a MAINTENANCE_LOG userName signature notes now AVAILABLE None.
Proof.
  exact (transition_effect st d1 d2 now a MAINTENANCE_LOG userName signature notes).
Qed.


(** *** The holder invariant *)

Lemma transition_holderInvariant (k : jsstring) (ty : TransactionType)
    (userName : jsstring) (a : Asset.t) :
  holderInvariant a -> holderInvariant (transition k ty userName a).
Proof.
  intros Ha. unfold transition.
  destruct (JS.eqb (Asset.id a) k); [|exact Ha].
  unfold holderInvariant. destruct ty; simpl; split; congruence.
Qed.

Lemma handleTransaction_holderInvariant (st : App.Store) (d1 d2 : JS.Draw)
    (now : Z) (assetId : jsstring) (ty : TransactionType)
    (userName signature : jsstring) (notes : option jsstring) :
  Forall holderInvariant (App.assets st) ->
  Forall holderInvariant
    (App.assets
       (App.handleTransaction st d1 d2 now assetId ty userName signature notes)).
Proof.
  intros H. unfold App.handleTransaction.
  destruct (find _ (App.assets st)); [|exact H].
  simpl. apply Forall_map.
  eapply Forall_impl; [|exact H].
  intros a Ha. exact (transition_holderInvariant assetId ty userName a Ha).
Qed.

(** *** CSV import: the loop *)

Lemma importLine_freshlyImported (today : jsstring) (random : nat -> JS.Draw)
    (acc : list Asset.t * nat) (rawLine : jsstring) :
  Forall (freshlyImported today) (fst acc) ->
  Forall (freshlyImported today)
    (fst (AdminView.importLine today random acc rawLine)).
Proof.
  intros H. destruct acc as [newAssets k]. unfold AdminView.importLine.
  destruct (JS.truthy (JS.trim rawLine)); [|exact H].
  destruct (nth_error _ 0) as [[|c cs]|]; try exact H.
  simpl. apply Forall_app. split; [exact H|].
  constructor; [|constructor].
  unfold freshlyImported; simpl. repeat split; eauto.
Qed.

Lemma parseCSV_freshlyImported (today : jsstring) (random : nat -> JS.Draw)
    (content : jsstring) :
  Forall (freshlyImported today) (AdminView.parseCSV today random content).
Proof.
  unfold AdminView.parseCSV.
  generalize (tl (JS.split JS.newline content)).
  assert (H : Forall (freshlyImported today) (fst (@nil Asset.t, 0%nat)))
    by constructor.
  revert H. generalize (@nil Asset.t, 0%nat).
  intros acc H lines. revert acc H.
  induction lines as [|l lines IH]; intros acc H; simpl; [exact H|].
  apply IH. now apply importLine_freshlyImported.
Qed.

Lemma handleFileUpload_assets (st : App.Store) (today : jsstring)
    (random : nat -> JS.Draw) (content : jsstring) :
  App.assets (fst (AdminView.handleFileUpload st today random content))
  = App.assets st ++ AdminView.parseCSV today random content.
Proof.
  unfold AdminView.handleFileUpload.
  destruct (AdminView.parseCSV today random content) as [|a l]; simpl.
  - now rewrite app_nil_r.
  - reflexivity.
Qed.

Lemma freshlyImported_holderInvariant (today : jsstring) (a : Asset.t) :
  freshlyImported today a -> holderInvariant a.
Proof.
  intros (Hs & Hh & _). unfold holderInvariant. rewrite Hs, Hh.
  split; congruence.
Qed.

(** *** Bulk edit *)

Lemma or_else_nil (o : option jsstring) (d : jsstring) :
  JS.truthy_opt o = false -> JS.or_else o d = d.
Proof. destruct o as [[|c s]|]; simpl; congruence. Qed.

Lemma bulkEditStep_spec (assets : list Asset.t) (form : BulkEditForm.t)
    (updates : list Asset.t) (k : jsstring) :
  AdminView.bulkEditStep assets form updates k
  = updates ++ (if patchPresent form
                then map (applyPatch form) (existingTargets assets [k])
                else []).
Proof.
  unfold AdminView.bulkEditStep, existingTargets, findAsset, patchPresent,
    applyPatch.
  simpl. destruct form as [s c].
  destruct (find _ assets) as [[]|]; simpl;
    destruct s as [s|]; destruct c as [[|c cs]|]; simpl;
    now rewrite ?app_nil_r.
Qed.

Lemma bulkEditUpdates_from (assets : list Asset.t) (form : BulkEditForm.t)
    (selected : list jsstring) (updates : list Asset.t) :
  fold_left (AdminView.bulkEditStep assets form) selected updates
  = updates ++ (if patchPresent form
                then map (applyPatch form) (existingTargets assets selected)
                else []).
Proof.
  revert updates. induction selected as [|k selected IH]; intros updates.
  - simpl. now destruct (patchPresent form); rewrite app_nil_r.
  - simpl fold_left. rewrite IH, bulkEditStep_spec, <- app_assoc. f_equal.
    change (k :: selected) with ([k] ++ selected).
    unfold existingTargets at 3. rewrite flat_map_app.
    destruct (patchPresent form); [|reflexivity].
    now rewrite map_app.
Qed.

Lemma bulkEditUpdates_spec (assets : list Asset.t) (form : BulkEditForm.t)
    (selected : list jsstring) :
  AdminView.bulkEditUpdates assets form selected
  = if patchPresent form
    then map (applyPatch form) (existingTargets assets selected)
    else [].
Proof. unfold AdminView.bulkEditUpdates. now rewrite bulkEditUpdates_from. Qed.

Lemma existingTargets_in (assets : list Asset.t) (selected : list jsstring)
    (a : Asset.t) :
  In a (existingTargets assets selected)
  <-> In (Asset.id a) selected /\ findAsset assets (Asset.id a) = Some a.
Proof.
  unfold existingTargets. rewrite in_flat_map. split.
  - intros (k & Hk & Ha). destruct (findAsset assets k) as [b|] eqn:E.
    + destruct Ha as [<-|[]]. destruct (findAsset_some _ _ _ E) as [_ <-].
      now split.
    + destruct Ha.
  - intros [Hk E]. exists (Asset.id a). split; [exact Hk|].
    rewrite E. now left.
Qed.

Lemma existingTargets_length (assets : list Asset.t) (selected : list jsstring) :
  length (existingTargets assets selected)
  = length (filter (fun k => existsb (fun a => JS.eqb (Asset.id a) k) assets)
              selected).
Proof.
  induction selected as [|k selected IH]; [reflexivity|].
  change (existingTargets assets (k :: selected))
    with ((match findAsset assets k with Some a => [a] | None => [] end)
            ++ existingTargets assets selected).
  rewrite length_app, IH. simpl filter. unfold findAsset.
  destruct (find _ assets) as [a|] eqn:E.
  - apply find_some in E.
    assert (X : existsb (fun a => JS.eqb (Asset.id a) k) assets = true)
      by (apply existsb_exists; now exists a).
    now rewrite X.
  - assert (X : existsb (fun a => JS.eqb (Asset.id a) k) assets = false).
    { destruct (existsb _ assets) eqn:X; [|reflexivity].
      apply existsb_exists in X. destruct X as (a & Hin & Ha).
      eapply find_none in E; [|exact Hin]. simpl in E. congruence. }
    now rewrite X.
Qed.

Lemma existsb_eqb_in (k : jsstring) (l : list jsstring) :
  existsb (JS.eqb k) l = true <-> In k l.
Proof.
  rewrite existsb_exists. split.
  - intros (x & Hx & E). apply eqb_eq in E. now subst.
  - intros H. exists k. split; [exact H|apply eqb_refl].
Qed.

(** The map built from the updates answers, for a key, with the patched
    store entry of that key when the key was selected. *)
Lemma updateMap_get_spec (assets : list Asset.t) (form : BulkEditForm.t)
    (selected : list jsstring) (k : jsstring) :
  App.updateMap_get (map (applyPatch form) (existingTargets assets selected)) k
  = if existsb (JS.eqb k) selected
    then option_map (applyPatch form) (findAsset assets k)
    else None.
Proof.
  unfold App.updateMap_get.
  destruct (find _ (rev _)) as [u|] eqn:E.
  - apply find_some in E. destruct E as [Hin Hk]. apply eqb_eq in Hk.
    apply in_rev, in_map_iff in Hin. destruct Hin as (a & <- & Ha).
    apply existingTargets_in in Ha. destruct Ha as [Hsel Hfind].
    simpl in Hk. subst k.
    apply existsb_eqb_in in Hsel. rewrite Hsel, Hfind. reflexivity.
  - destruct (existsb (JS.eqb k) selected) eqn:Hsel; [|reflexivity].
    destruct (findAsset assets k) as [a|] eqn:Hfind; [|reflexivity].
    exfalso. apply existsb_eqb_in in Hsel.
    destruct (findAsset_some _ _ _ Hfind) as [_ Hid].
    assert (Hin : In (applyPatch form a)
                    (rev (map (applyPatch form) (existingTargets assets selected)))).
    { apply in_rev. rewrite rev_involutive. apply in_map.
      apply existingTargets_in. now rewrite Hid. }
    eapply find_none in E; [|exact Hin]. simpl in E.
    rewrite Hid, eqb_refl in E. discriminate.
Qed.

Lemma saveBulkEdit_assets (st : App.Store) (form : BulkEditForm.t)
    (selected : list jsstring) :
  App.assets (fst (AdminView.saveBulkEdit st form selected))
  = map (fun a =>
           if patchPresent form && existsb (JS.eqb (Asset.id a)) selected
           then match findAsset (App.assets st) (Asset.id a) with
                | Some b => applyPatch form b
                | None => a
                end
           else a)
        (App.assets st).
Proof.
  unfold AdminView.saveBulkEdit. rewrite bulkEditUpdates_spec.
  destruct (patchPresent form); simpl.
  - destruct (0 <? length _)%nat eqn:Hn.
    + simpl. apply map_ext. intros a.
      rewrite updateMap_get_spec.
      destruct (existsb _ selected); [|reflexivity].
      now destruct (findAsset _ _).
    + simpl. symmetry. rewrite <- (map_id (App.assets st)) at 2.
      apply map_ext_in. intros a Ha.
      destruct (existsb _ selected) eqn:Hsel; [|reflexivity].
      exfalso. apply existsb_eqb_in in Hsel.
      destruct (findAsset_in _ _ Ha) as [b Hb].
      destruct (findAsset_some _ _ _ Hb) as [_ Hid].
      assert (Hin : In b (existingTargets (App.assets st) selected))
        by (apply existingTargets_in; now rewrite Hid).
      rewrite length_map in Hn.
      destruct (existingTargets (App.assets st) selected); [destruct Hin|].
      discriminate.
  - symmetry. apply map_id.
Qed.

(** *** Lists: filters under unique keys *)

Lemma filter_nil_of_false {A : Type} (p : A -> bool) (l : list A) :
  (forall x, In x l -> p x = false) -> filter p l = [].
Proof.
  induction l as [|x l IH]; intros H; [reflexivity|]. simpl.
  rewrite (H x (or_introl eq_refl)). apply IH. intros y Hy. apply H. now right.
Qed.

Lemma filter_map_swap' {A B : Type} (f : A -> B) (p : B -> bool) (l : list A) :
  filter p (map f l) = map f (filter (fun x => p (f x)) l).
Proof.
  induction l as [|x l IH]; [reflexivity|]. simpl.
  destruct (p (f x)); simpl; now rewrite IH.
Qed.

Lemma filter_flat_map_keyed {A B : Type} (f : A -> list B) (p : B -> bool)
    (q : A -> bool) (l : list A) :
  (forall x y, In y (f x) -> p y = q x) ->
  filter p (flat_map f l) = flat_map f (filter q l).
Proof.
  intros H. induction l as [|x l IH]; [reflexivity|]. simpl.
  rewrite filter_app, IH. destruct (q x) eqn:Q; simpl.
  - f_equal. apply forallb_filter_id. apply forallb_forall.
    intros y Hy. now rewrite (H x y Hy).
  - rewrite filter_nil_of_false; [reflexivity|].
    intros y Hy. now rewrite (H x y Hy).
Qed.

Lemma filter_comm {A : Type} (p q : A -> bool) (l : list A) :
  filter p (filter q l) = filter q (filter p l).
Proof.
  induction l as [|x l IH]; [reflexivity|]. simpl.
  destruct (p x) eqn:P, (q x) eqn:Q; simpl; rewrite ?P, ?Q, IH; reflexivity.
Qed.

(** Under unique ids, the store entries with the id of [a] are [a] alone. *)
Lemma filter_id_unique (assets : list Asset.t) (a : Asset.t) :
  NoDup (map Asset.id assets) -> In a assets ->
  filter (fun b => JS.eqb (Asset.id b) (Asset.id a)) assets = [a].
Proof.
  induction assets as [|x l IH]; intros Hnd Hin; [destruct Hin|].
  simpl in Hnd. inversion Hnd as [|? ? Hx Hl]; subst.
  simpl. destruct Hin as [->|Hin].
  - rewrite eqb_refl. f_equal. apply filter_nil_of_false.
    intros b Hb. apply eqb_neq. intros E. apply Hx. rewrite <- E.
    now apply in_map.
  - assert (E : JS.eqb (Asset.id x) (Asset.id a) = false).
    { apply eqb_neq. intros E. apply Hx. rewrite E. now apply in_map. }
    rewrite E. now apply IH.
Qed.

Lemma findAsset_unique (assets : list Asset.t) (a : Asset.t) :
  NoDup (map Asset.id assets) -> In a assets ->
  findAsset assets (Asset.id a) = Some a.
Proof.
  intros Hnd Hin. destruct (findAsset_in _ _ Hin) as [b Hb].
  rewrite Hb. f_equal.
  destruct (findAsset_some _ _ _ Hb) as [Hbin Hid].
  pose proof (filter_id_unique _ _ Hnd Hin) as F.
  assert (X : In b (filter (fun c => JS.eqb (Asset.id c) (Asset.id a)) assets)).
  { apply filter_In. split; [exact Hbin|]. now apply eqb_eq. }
  rewrite F in X. now destruct X as [->|[]].
Qed.

(** *** The order of [sort] *)

Lemma insert_head {A : Type} (key : A -> Z) (x : A) (l : list A) :
  exists y l',
    JS.insert (fun u v => (key v - key u)%Z) x l = y :: l'
    /\ (y = x \/ In y l)
    /\ (key x <= key y)%Z
    /\ (forall z, hd_error l = Some z -> (key z <= key y)%Z).
Proof.
  destruct l as [|h l]; simpl.
  - exists x, []. repeat split; auto; try lia. intros z Hz. discriminate.
  - destruct (0 <? key h - key x)%Z eqn:C.
    + apply Z.ltb_lt in C. eexists h, _. repeat split; auto; try lia.
      intros z Hz. inversion Hz; subst. lia.
    + apply Z.ltb_ge in C. exists x, (h :: l). repeat split; auto; try lia.
      intros z Hz. inversion Hz; subst. lia.
Qed.

Lemma insert_in {A : Type} (cmp : A -> A -> Z) (x w : A) (l : list A) :
  In w (JS.insert cmp x l) -> w = x \/ In w l.
Proof.
  induction l as [|h l IH]; simpl.
  - intros [->|[]]. now left.
  - destruct (0 <? cmp x h)%Z; simpl.
    + intros [->|H]; [right; now left|].
      destruct (IH H) as [->|H']; [now left|right; now right].
    + intros [->|H]; [now left|now right].
Qed.

Lemma sort_in {A : Type} (cmp : A -> A -> Z) (w : A) (l : list A) :
  In w (JS.sort cmp l) -> In w l.
Proof.
  induction l as [|x l IH]; simpl; [tauto|].
  intros Hw. destruct (insert_in _ _ _ _ Hw) as [->|H]; [now left|].
  right. now apply IH.
Qed.

(** The first element of a list sorted by descending key is an element of
    the list with the greatest key; there is none only for the empty
    list. *)
Lemma sort_desc_head {A : Type} (key : A -> Z) (l : list A) :
  match hd_error (JS.sort (fun u v => (key v - key u)%Z) l) with
  | Some y => In y l /\ forall z, In z l -> (key z <= key y)%Z
  | None => l = []
  end.
Proof.
  induction l as [|x l IH]; [reflexivity|].
  simpl JS.sort.
  destruct (insert_head key x (JS.sort (fun u v => (key v - key u)%Z) l))
    as (y & l' & E & Hy & Hxy & Hhd).
  fold (JS.sort (fun u v => (key v - key u)%Z) l). rewrite E. simpl.
  destruct (hd_error (JS.sort (fun u v => (key v - key u)%Z) l)) as [m|] eqn:Hm.
  - destruct IH as [Hin Hmax]. specialize (Hhd m eq_refl). split.
    + destruct Hy as [->|Hy]; [now left|].
      right. now apply sort_in in Hy.
    + intros z [->|Hz]; [exact Hxy|]. specialize (Hmax z Hz). lia.
  - subst l. simpl in *. destruct Hy as [->|[]]. split; [now left|].
    intros z [->|[]]. lia.
Qed.

(** *** Notification derivation *)

Lemma eqb_app_head (p x y : jsstring) :
  JS.eqb (p ++ x) (p ++ y) = JS.eqb x y.
Proof.
  destruct (JS.eqb x y) eqn:E.
  - apply eqb_eq in E. subst. apply eqb_refl.
  - apply eqb_neq. intros H. apply app_inv_head in H.
    apply eqb_neq in E. contradiction.
Qed.

Lemma lost_key_not_overdue (x y : jsstring) :
  JS.eqb (js "lost-" ++ x) (js "overdue-" ++ y) = false.
Proof. apply eqb_neq. intros H. cbv in H. discriminate. Qed.

Lemma overdue_key_not_lost (x y : jsstring) :
  JS.eqb (js "overdue-" ++ x) (js "lost-" ++ y) = false.
Proof. apply eqb_neq. intros H. cbv in H. discriminate. Qed.

Lemma fold_left_push {A B : Type} (f : A -> B) (l : list A) (acc : list B) :
  fold_left (fun acc a => acc ++ [f a]) l acc = acc ++ map f l.
Proof.
  revert acc. induction l as [|x l IH]; intros acc; simpl.
  - now rewrite app_nil_r.
  - now rewrite IH, <- app_assoc.
Qed.

Lemma pushOverdue_acc (lang : Lang) (transactions : list Transaction.t)
    (now stamp : Z) (acc : list Notification.t) (a : Asset.t) :
  AdminView.pushOverdue lang transactions now stamp acc a
  = acc ++ AdminView.pushOverdue lang transactions now stamp [] a.
Proof.
  unfold AdminView.pushOverdue.
  destruct (AdminView.lastBorrowTx transactions a) as [tx|];
    [destruct (_ <? _)%Z|]; simpl; now rewrite ?app_nil_r.
Qed.

Lemma fold_left_pushOverdue (lang : Lang) (transactions : list Transaction.t)
    (now stamp : Z) (l : list Asset.t) (acc : list Notification.t) :
  fold_left (AdminView.pushOverdue lang transactions now stamp) l acc
  = acc ++ flat_map (AdminView.pushOverdue lang transactions now stamp []) l.
Proof.
  revert acc. induction l as [|x l IH]; intros acc; simpl.
  - now rewrite app_nil_r.
  - now rewrite IH, (pushOverdue_acc _ _ _ _ acc), <- app_assoc.
Qed.

(** The derived set: the lost alerts in store order, then the overdue
    alerts in store order. *)
Lemma newNotifications_spec (lang : Lang) (assets : list Asset.t)
    (transactions : list Transaction.t) (now stamp : Z) :
  AdminView.newNotifications lang assets transactions now stamp
  = map (AdminView.lostNotification lang stamp)
      (filter (fun a => AssetStatus_eqb (Asset.status a) LOST) assets)
    ++ flat_map (AdminView.pushOverdue lang transactions now stamp [])
         (filter (fun a => AssetStatus_eqb (Asset.status a) BORROWED) assets).
Proof.
  unfold AdminView.newNotifications.
  now rewrite fold_left_pushOverdue, fold_left_push.
Qed.

Lemma pushOverdue_key (lang : Lang) (transactions : list Transaction.t)
    (now stamp : Z) (a : Asset.t) (n : Notification.t) :
  In n (AdminView.pushOverdue lang transactions now stamp [] a) ->
  Notification.id n = js "overdue-" ++ Asset.id a
  /\ Notification.type n = warning.
Proof.
  unfold AdminView.pushOverdue.
  destruct (AdminView.lastBorrowTx transactions a) as [tx|];
    [destruct (_ <? _)%Z|]; simpl; try tauto.
  intros [<-|[]]. now split.
Qed.

(** The critical alerts are the lost alerts, one per Lost asset in store
    order; the warnings are the overdue alerts of the Borrowed assets. *)
Lemma alerts_by_severity (lang : Lang) (assets : list Asset.t)
    (transactions : list Transaction.t) (now stamp : Z) :
  let derived :=
    AdminView.newNotifications lang assets transactions now stamp in
  alertsOfSeverity critical derived
  = map (AdminView.lostNotification lang stamp)
      (filter (fun a => AssetStatus_eqb (Asset.status a) LOST) assets)
  /\ alertsOfSeverity warning derived
     = flat_map (AdminView.pushOverdue lang transactions now stamp [])
         (filter (fun a => AssetStatus_eqb (Asset.status a) BORROWED) assets).
Proof.
  simpl. unfold alertsOfSeverity.
  rewrite newNotifications_spec, !filter_app, !filter_map_swap'. simpl.
  split.
  - rewrite (filter_nil_of_false _ (flat_map _ _)).
    + rewrite app_nil_r. f_equal. apply forallb_filter_id.
      now apply forallb_forall.
    + intros n Hn. apply in_flat_map in Hn. destruct Hn as (b & _ & Hn).
      apply pushOverdue_key in Hn. destruct Hn as [_ ->]. reflexivity.
  - rewrite (filter_nil_of_false _ (filter _ assets)) by reflexivity.
    simpl. apply forallb_filter_id. apply forallb_forall.
    intros n Hn. apply in_flat_map in Hn. destruct Hn as (b & _ & Hn).
    apply pushOverdue_key in Hn. destruct Hn as [_ ->]. reflexivity.
Qed.

Lemma lost_alerts_of (lang : Lang) (assets : list Asset.t)
    (transactions : list Transaction.t) (now stamp : Z) (a : Asset.t) :
  NoDup (map Asset.id assets) -> In a assets ->
  alertsWithKey (js "lost-" ++ Asset.id a)
    (AdminView.newNotifications lang assets transactions now stamp)
  = if AssetStatus_eqb (Asset.status a) LOST
    then [AdminView.lostNotification lang stamp a] else [].
Proof.
  intros Hnd Hin. unfold alertsWithKey.
  rewrite newNotifications_spec, filter_app, filter_map_swap'.
  rewrite (filter_nil_of_false _ (flat_map _ _)).
  - rewrite app_nil_r. simpl.
    rewrite (filter_ext _ (fun b => JS.eqb (Asset.id b) (Asset.id a)))
      by (intros b; exact (eqb_app_head (js "lost-") (Asset.id b) (Asset.id a))).
    rewrite filter_comm, (filter_id_unique _ _ Hnd Hin). simpl.
    now destruct (AssetStatus_eqb (Asset.status a) LOST).
  - intros n Hn. apply in_flat_map in Hn. destruct Hn as (b & _ & Hn).
    apply pushOverdue_key in Hn. destruct Hn as [-> _].
    exact (overdue_key_not_lost (Asset.id b) (Asset.id a)).
Qed.

Lemma overdue_alerts_of (lang : Lang) (assets : list Asset.t)
    (transactions : list Transaction.t) (now stamp : Z) (a : Asset.t) :
  NoDup (map Asset.id assets) -> In a assets ->
  alertsWithKey (js "overdue-" ++ Asset.id a)
    (AdminView.newNotifications lang assets transactions now stamp)
  = if AssetStatus_eqb (Asset.status a) BORROWED
    then AdminView.pushOverdue lang transactions now stamp [] a else [].
Proof.
  intros Hnd Hin. unfold alertsWithKey.
  rewrite newNotifications_spec, filter_app, filter_map_swap'.
  rewrite (filter_nil_of_false _ (filter _ assets))
    by (intros b _; exact (lost_key_not_overdue (Asset.id b) (Asset.id a))).
  simpl.
  rewrite (filter_flat_map_keyed _ _
             (fun b => JS.eqb (Asset.id b) (Asset.id a))).
  - rewrite filter_comm, (filter_id_unique _ _ Hnd Hin). simpl.
    destruct (AssetStatus_eqb (Asset.status a) BORROWED); simpl;
      now rewrite ?app_nil_r.
  - intros b n Hn. apply pushOverdue_key in Hn. destruct Hn as [-> _].
    exact (eqb_app_head (js "overdue-") (Asset.id b) (Asset.id a)).
Qed.

(** C8: the critical alerts of the derived set are the lost alerts, one
    for each Lost asset and none for any other; under unique asset ids the
    set holds exactly one alert with key lost-<id> for an asset that is
    Lost, a critical one, and none with that key for an asset that is not
    Lost; the effect installs the derived set whatever the previous
    notification state was, however often it runs. *)
Theorem lost_alert_once_per_lost_asset (lang : Lang) (assets : list Asset.t)
    (transactions : list Transaction.t) (now stamp : Z) (a : Asset.t) :
  NoDup (map Asset.id assets) ->
  In a assets ->
  let derived :=
    AdminView.newNotifications lang assets transactions now stamp in
  alertsOfSeverity critical derived
  = map (AdminView.lostNotification lang stamp)
      (filter (fun b => AssetStatus_eqb (Asset.status b) LOST) assets)
  /\ (Asset.status a = LOST ->
      alertsWithKey (js "lost-" ++ Asset.id a) derived
      = [AdminView.lostNotification lang stamp a])
  /\ (Asset.status a <> LOST ->
      alertsWithKey (js "lost-" ++ Asset.id a) derived = [])
  /\ Notification.id (AdminView.lostNotification lang stamp a)
     = js "lost-" ++ Asset.id a
  /\ Notification.type (AdminView.lostNotification lang stamp a) = critical
  /\ (forall runs previous,
        Nat.iter (S runs)
          (AdminView.notificationsEffect lang assets transactions now stamp)
          previous
        = derived).
Proof.
  intros Hnd Hin derived.
  pose proof (lost_alerts_of lang assets transactions now stamp a Hnd Hin) as H.
  fold derived in H.
  split; [exact (proj1 (alerts_by_severity lang assets transactions now stamp))|].
  repeat split.
  - intros Hs. rewrite H, Hs. reflexivity.
  - intros Hs. rewrite H.
    destruct (AssetStatus_eqb (Asset.status a) LOST) eqn:E; [|reflexivity].
    apply AssetStatus_eqb_eq in E. contradiction.
Qed.

Lemma isBorrowOf_filter (a : Asset.t) (tx : Transaction.t) :
  JS.eqb (Transaction.assetId tx) (Asset.id a)
  && JS.eqb (TransactionType_value (Transaction.type tx)) (js "Borrow") = true
  <-> isBorrowOf a tx.
Proof.
  unfold isBorrowOf. rewrite andb_true_iff, eqb_eq, type_is_Borrow. tauto.
Qed.

(** What [lastBorrowTx] finds. *)
Lemma lastBorrowTx_spec (transactions : list Transaction.t) (a : Asset.t) :
  match AdminView.lastBorrowTx transactions a with
  | Some tx => latestBorrowOf transactions a tx
  | None => forall tx, In tx transactions -> ~ isBorrowOf a tx
  end.
Proof.
  unfold AdminView.lastBorrowTx.
  pose proof (sort_desc_head Transaction.timestamp
                (filter (fun tx => JS.eqb (Transaction.assetId tx) (Asset.id a)
                                   && JS.eqb (TransactionType_value
                                                (Transaction.type tx))
                                             (js "Borrow"))
                        transactions)) as H.
  destruct (hd_error _) as [tx|].
  - destruct H as [Hin Hmax]. apply filter_In in Hin.
    destruct Hin as [Hin Hb]. apply isBorrowOf_filter in Hb.
    split; [exact Hin|]. split; [exact Hb|].
    intros tx' Hin' Hb'. apply Hmax. apply filter_In. split; [exact Hin'|].
    now apply isBorrowOf_filter.
  - intros tx Hin Hb.
    assert (X : In tx (filter (fun tx => JS.eqb (Transaction.assetId tx) (Asset.id a)
                                   && JS.eqb (TransactionType_value
                                                (Transaction.type tx))
                                             (js "Borrow"))
                        transactions)).
    { apply filter_In. split; [exact Hin|]. now apply isBorrowOf_filter. }
    rewrite H in X. destruct X.
Qed.

(** What the derivation emits for one Borrowed asset. *)
Lemma overdue_emission (lang : Lang) (transactions : list Transaction.t)
    (now stamp : Z) (a : Asset.t) :
  let emitted := AdminView.pushOverdue lang transactions now stamp [] a in
  (overdue transactions now a ->
   exists tx, latestBorrowOf transactions a tx
              /\ emitted = [AdminView.overdueNotification lang stamp a tx])
  /\ (~ overdue transactions now a -> emitted = []).
Proof.
  simpl. pose proof (lastBorrowTx_spec transactions a) as L.
  unfold AdminView.pushOverdue, overdue. unfold AdminView.sevenDaysMs, dayMs.
  split.
  - intros (tx & (Htx & Hb & Hmax) & Hold).
    destruct (AdminView.lastBorrowTx transactions a) as [tx0|].
    + exists tx0. split; [exact L|].
      destruct L as (Hin0 & Hb0 & Hmax0).
      specialize (Hmax0 tx Htx Hb). specialize (Hmax tx0 Hin0 Hb0).
      assert (C : (7 * 24 * 60 * 60 * 1000 <? now - Transaction.timestamp tx0)%Z
                  = true) by (apply Z.ltb_lt; lia).
      now rewrite C.
    + exfalso. exact (L tx Htx Hb).
  - intros Hno.
    destruct (AdminView.lastBorrowTx transactions a) as [tx0|]; [|reflexivity].
    destruct (_ <? _)%Z eqn:C; [|reflexivity].
    exfalso. apply Hno. exists tx0. split; [exact L|].
    apply Z.ltb_lt in C. lia.
Qed.

(** C4: the warnings of the derived set are what is emitted for the
    Borrowed assets, one by one; under unique asset ids, a Borrowed asset
    has exactly one alert with
    key overdue-<id>, a warning, when its most recent Borrow entry is more
    than seven days before now, and none otherwise; an asset without any
    Borrow entry has none. *)
Theorem overdue_alert_iff_latest_borrow_older_than_week (lang : Lang)
    (assets : list Asset.t) (transactions : list Transaction.t)
    (now stamp : Z) (a : Asset.t) :
  NoDup (map Asset.id assets) ->
  In a assets ->
  Asset.status a = BORROWED ->
  let derived :=
    AdminView.newNotifications lang assets transactions now stamp in
  let alerts := alertsWithKey (js "overdue-" ++ Asset.id a) derived in
  alertsOfSeverity warning derived
  = flat_map (AdminView.pushOverdue lang transactions now stamp [])
      (filter (fun b => AssetStatus_eqb (Asset.status b) BORROWED) assets)
  /\ alerts = AdminView.pushOverdue lang transactions now stamp [] a
  /\ (overdue transactions now a ->
      exists tx, latestBorrowOf transactions a tx
                 /\ alerts = [AdminView.overdueNotification lang stamp a tx])
  /\ (~ overdue transactions now a -> alerts = [])
  /\ ((forall tx, In tx transactions -> ~ isBorrowOf a tx) -> alerts = [])
  /\ (forall n, In n alerts -> Notification.type n = warning)
  /\ (length alerts = 1%nat <-> overdue transactions now a).
Proof.
  intros Hnd Hin Hst derived alerts.
  assert (E : alerts = AdminView.pushOverdue lang transactions now stamp [] a).
  { unfold alerts, derived.
    rewrite (overdue_alerts_of _ _ _ _ _ _ Hnd Hin), Hst. reflexivity. }
  destruct (overdue_emission lang transactions now stamp a) as [P1 P2].
  rewrite <- E in P1, P2.
  split; [exact (proj2 (alerts_by_severity lang assets transactions now stamp))|].
  split; [exact E|]. split; [exact P1|]. split; [exact P2|]. split; [|split].
  - intros Hnone. apply P2. intros (tx & (Htx & Hb & _) & _).
    exact (Hnone tx Htx Hb).
  - intros n Hn. rewrite E in Hn. now apply pushOverdue_key in Hn.
  - split.
    + intros Hlen. rewrite E in Hlen. unfold AdminView.pushOverdue in Hlen.
      pose proof (lastBorrowTx_spec transactions a) as L.
      destruct (AdminView.lastBorrowTx transactions a) as [tx0|];
        [|discriminate].
      destruct (_ <? _)%Z eqn:C; [|discriminate].
      exists tx0. split; [exact L|].
      apply Z.ltb_lt in C. unfold AdminView.sevenDaysMs in C. unfold dayMs.
      lia.
    + intros Ho. destruct (P1 Ho) as (tx & _ & ->). reflexivity.
Qed.

(** *** The holder invariant across the mutating operations *)

Lemma seed_holderInvariant : Forall holderInvariant Constants.MOCK_ASSETS.
Proof.
  unfold Constants.MOCK_ASSETS.
  repeat (constructor; [unfold holderInvariant; simpl; split; congruence|]).
  constructor.
Qed.

Lemma applyPatch_category_only_holderInvariant (category : option jsstring)
    (a : Asset.t) :
  holderInvariant a ->
  holderInvariant (applyPatch (BulkEditForm.mk None category) a).
Proof. intros H. exact H. Qed.

(** A bulk edit that carries a status keeps the holder invariant exactly
    when the new status is Borrowed for the targets that were Borrowed and
    for no other target. *)
Lemma saveBulkEdit_status_holderInvariant (st : App.Store) (s : AssetStatus)
    (category : option jsstring) (selected : list jsstring) :
  Forall holderInvariant (App.assets st) ->
  Forall holderInvariant
    (App.assets
       (fst (AdminView.saveBulkEdit st (BulkEditForm.mk (Some s) category)
               selected)))
  <-> (forall b, In b (existingTargets (App.assets st) selected) ->
                 (Asset.status b = BORROWED <-> s = BORROWED)).
Proof.
  intros H. rewrite Forall_forall in H.
  rewrite saveBulkEdit_assets. cbn [patchPresent BulkEditForm.status andb].
  rewrite Forall_forall. split.
  - intros K b Hb. apply existingTargets_in in Hb. destruct Hb as [Hsel Hfind].
    destruct (findAsset_some _ _ _ Hfind) as [Hin _].
    assert (P : holderInvariant
                  (applyPatch (BulkEditForm.mk (Some s) category) b)).
    { apply K. apply in_map_iff. exists b. split; [|exact Hin].
      apply existsb_eqb_in in Hsel. now rewrite Hsel, Hfind. }
    specialize (H b Hin). unfold holderInvariant in *. simpl in P. tauto.
  - intros K x Hx. apply in_map_iff in Hx. destruct Hx as (a & <- & Ha).
    destruct (existsb _ selected) eqn:Hsel; [|now apply H].
    destruct (findAsset (App.assets st) (Asset.id a)) as [b|] eqn:Hfind;
      [|now apply H].
    destruct (findAsset_some _ _ _ Hfind) as [Hin Hid].
    apply existsb_eqb_in in Hsel.
    assert (T : In b (existingTargets (App.assets st) selected))
      by (apply existingTargets_in; now rewrite Hid).
    specialize (K b T). specialize (H b Hin).
    unfold holderInvariant in *. simpl. tauto.
Qed.

(** C2, as the code has it.  When every asset satisfies the holder
    invariant, it still does after a lifecycle transaction, after a CSV
    import and after a bulk edit whose form carries no status.  An added
    asset is stored as given: the invariant is kept exactly when the added
    asset satisfies it.  A directly edited asset is stored as given in
    place of the entries with its id: the invariant is kept exactly when
    the given asset satisfies it or its id is not in the store.  A bulk
    edit that carries a status writes the status and leaves the holder as
    it was: the invariant is kept exactly when, among the selected assets
    that exist, the ones that were Borrowed are the ones the new status
    makes Borrowed. *)
Theorem holder_invariant_kept_by_lifecycle_and_import (st : App.Store) :
  Forall holderInvariant (App.assets st) ->
  (forall d1 d2 now assetId ty userName signature notes,
     Forall holderInvariant
       (App.assets
          (App.handleTransaction st d1 d2 now assetId ty userName signature
             notes)))
  /\ (forall today random content,
        Forall holderInvariant
          (App.assets
             (fst (AdminView.handleFileUpload st today random content))))
  /\ (forall category selected,
        Forall holderInvariant
          (App.assets
             (fst (AdminView.saveBulkEdit st
                     (BulkEditForm.mk None category) selected))))
  /\ (forall a,
        Forall holderInvariant (App.assets (App.handleAddAsset st a))
        <-> holderInvariant a)
  /\ (forall a,
        Forall holderInvariant (App.assets (App.handleUpdateAsset st a))
        <-> (holderInvariant a \/ findAsset (App.assets st) (Asset.id a) = None))
  /\ (forall s category selected,
        Forall holderInvariant
          (App.assets
             (fst (AdminView.saveBulkEdit st
                     (BulkEditForm.mk (Some s) category) selected)))
        <-> (forall b, In b (existingTargets (App.assets st) selected) ->
                       (Asset.status b = BORROWED <-> s = BORROWED))).
Proof.
  intros H. split; [|split; [|split; [|split; [|split]]]].
  - intros. now apply handleTransaction_holderInvariant.
  - intros. rewrite handleFileUpload_assets. apply Forall_app.
    split; [exact H|].
    eapply Forall_impl; [|apply parseCSV_freshlyImported].
    intros a. apply freshlyImported_holderInvariant.
  - intros category selected. rewrite saveBulkEdit_assets.
    apply Forall_forall. intros x Hx. apply in_map_iff in Hx.
    destruct Hx as (a & <- & Ha).
    rewrite Forall_forall in H.
    destruct (_ && _); [|now apply H].
    destruct (findAsset (App.assets st) (Asset.id a)) as [b|] eqn:E;
      [|now apply H].
    apply applyPatch_category_only_holderInvariant. apply H.
    now apply findAsset_some in E.
  - intros a. simpl. rewrite Forall_app. split.
    + intros [_ Ha]. now inversion Ha.
    + intros Ha. split; [exact H|]. now constructor.
  - intros a. simpl. rewrite Forall_forall in H. rewrite Forall_forall. split.
    + intros K. destruct (findAsset (App.assets st) (Asset.id a)) as [b|] eqn:E;
        [left|now right].
      destruct (findAsset_some _ _ _ E) as [Hin Hid].
      apply K. apply in_map_iff. exists b. split; [|exact Hin].
      now rewrite Hid, eqb_refl.
    + intros K x Hx. apply in_map_iff in Hx. destruct Hx as (b & <- & Hb).
      destruct (JS.eqb (Asset.id b) (Asset.id a)) eqn:E; [|now apply H].
      destruct K as [K|K]; [exact K|].
      exfalso. apply eqb_eq in E.
      destruct (findAsset_in _ _ Hb) as [c Hc]. rewrite E in Hc. congruence.
  - intros s category selected.
    now apply saveBulkEdit_status_holderInvariant.
Qed.

Lemma holder_invariant_kept_witness :
  Forall holderInvariant (App.assets (Constants.initialStore 0))
  /\ Forall holderInvariant
       (App.assets
          (App.handleTransaction (Constants.initialStore 0)
             (JS.mkDraw (fun _ => 7) (js "0.5"))
             (JS.mkDraw (fun _ => 9) (js "0.25")) 0
             (js "AST-001") BORROW (js "Alice Chen") [] None)).
Proof.
  split; [exact seed_holderInvariant|].
  apply (holder_invariant_kept_by_lifecycle_and_import
           (Constants.initialStore 0) seed_holderInvariant).
Defined.

(** C2 as stated fails for bulk edit: on the seed data, where the
    invariant holds, a bulk edit of AST-002 (Borrowed, held by Alice Chen)
    with status Maintenance leaves the holder set on an asset that is no
    longer Borrowed. *)
Lemma bulk_edit_breaks_holder_invariant :
  Forall holderInvariant (App.assets (Constants.initialStore 0))
  /\ ~ Forall holderInvariant
         (App.assets
            (fst (AdminView.saveBulkEdit (Constants.initialStore 0)
                    (BulkEditForm.mk (Some MAINTENANCE) (Some []))
                    [js "AST-002"]))).
Proof.
  split; [exact seed_holderInvariant|].
  intros H. rewrite Forall_forall in H.
  assert (X : holderInvariant
                (applyPatch (BulkEditForm.mk (Some MAINTENANCE) (Some []))
                   (nth 1 Constants.MOCK_ASSETS (hd (Asset.mk [] [] [] [] [] []
                      AVAILABLE None [] [] None None) Constants.MOCK_ASSETS)))).
  { apply H. vm_compute. right. left. reflexivity. }
  destruct X as [X _]. simpl in X.
  assert (Y : MAINTENANCE = BORROWED) by (apply X; discriminate).
  discriminate.
Qed.

(** *** CSV import: one asset per accepted row *)

Lemma rowName_blank (rawLine : jsstring) :
  JS.truthy (JS.trim rawLine) = false -> rowName rawLine = [].
Proof.
  unfold rowName, rowCells. destruct (JS.trim rawLine); [|discriminate].
  reflexivity.
Qed.

Lemma importLine_skip (today : jsstring) (random : nat -> JS.Draw)
    (acc : list Asset.t * nat) (rawLine : jsstring) :
  JS.truthy (rowName rawLine) = false ->
  AdminView.importLine today random acc rawLine = acc.
Proof.
  intros H. destruct acc as [l k]. unfold AdminView.importLine.
  destruct (JS.truthy (JS.trim rawLine)); [|reflexivity].
  unfold rowName, rowCells in H.
  destruct (nth_error _ 0) as [[|c cs]|]; try reflexivity.
  discriminate.
Qed.

Lemma importLine_accept (today : jsstring) (random : nat -> JS.Draw)
    (l : list Asset.t) (k : nat) (rawLine : jsstring) :
  JS.truthy (rowName rawLine) = true ->
  exists a,
    AdminView.importLine today random (l, k) rawLine = (l ++ [a], S (S k))
    /\ fields4 a = importedFields rawLine
    /\ Asset.id a = js "AST-" ++ JS.ofNat (JS.floorTimes (random k) 100000).
Proof.
  intros H. unfold AdminView.importLine.
  destruct (JS.truthy (JS.trim rawLine)) eqn:T.
  - unfold importedFields, rowName in *. fold (rowCells rawLine).
    destruct (nth_error (rowCells rawLine) 0) as [[|c cs]|]; try discriminate.
    eexists. split; [reflexivity|]. split; reflexivity.
  - rewrite (rowName_blank _ T) in H. discriminate.
Qed.

Lemma importLines_from (today : jsstring) (random : nat -> JS.Draw)
    (rows : list jsstring) (l : list Asset.t) (j : nat) :
  exists news,
    fold_left (AdminView.importLine today random) rows (l, (2 * j)%nat)
    = (l ++ news, (2 * (j + length news))%nat)
    /\ map fields4 news
       = map importedFields (filter (fun r => JS.truthy (rowName r)) rows)
    /\ map Asset.id news
       = map (importedId random) (seq j (length news)).
Proof.
  revert l j. induction rows as [|r rows IH]; intros l j.
  - exists []. simpl. rewrite app_nil_r, Nat.add_0_r. auto.
  - cbn [fold_left filter].
    destruct (JS.truthy (rowName r)) eqn:T.
    + destruct (importLine_accept today random l (2 * j) r T)
        as (a & -> & Hf & Hid).
      replace (S (S (2 * j))) with (2 * (S j))%nat by lia.
      destruct (IH (l ++ [a]) (S j)) as (news & -> & Hfs & Hids).
      exists (a :: news). cbn [length]. split; [|split].
      * rewrite <- app_assoc. cbn [app]. f_equal. lia.
      * cbn [map]. now rewrite Hf, Hfs.
      * cbn [map seq]. rewrite Hids. f_equal. exact Hid.
    + rewrite (importLine_skip today random _ r T).
      exact (IH l j).
Qed.

(** The created assets, row by row. *)
Lemma parseCSV_rows (today : jsstring) (random : nat -> JS.Draw)
    (content : jsstring) :
  map fields4 (AdminView.parseCSV today random content)
  = map importedFields (acceptedRows content)
  /\ map Asset.id (AdminView.parseCSV today random content)
     = map (importedId random)
         (seq 0 (length (AdminView.parseCSV today random content))).
Proof.
  unfold AdminView.parseCSV.
  destruct (importLines_from today random
              (tl (JS.split JS.newline content)) [] 0)
    as (news & E & Hf & Hid).
  change (2 * 0)%nat with 0%nat in E. rewrite E. simpl fst.
  split; [exact Hf|exact Hid].
Qed.

(** *** The snapshot for the summarisation service *)





(** *** Strings: [split], [join], [trim] and unquoting *)

Lemma freeOf_app (c : N) (s u : jsstring) :
  freeOf c (s ++ u) = freeOf c s && freeOf c u.
Proof. apply forallb_app. Qed.

Lemma split_free (sep : N) (s : jsstring) :
  freeOf sep s = true -> JS.split sep s = [s].
Proof.
  induction s as [|c s IH]; simpl; [reflexivity|].
  intros H. apply andb_true_iff in H. destruct H as [Hc Hs].
  apply negb_true_iff in Hc. rewrite Hc, (IH Hs). reflexivity.
Qed.

Lemma split_app_sep (sep : N) (h rest : jsstring) :
  freeOf sep h = true ->
  JS.split sep (h ++ sep :: rest) = h :: JS.split sep rest.
Proof.
  induction h as [|c h IH]; simpl.
  - intros _. now rewrite N.eqb_refl.
  - intros H. apply andb_true_iff in H. destruct H as [Hc Hs].
    apply negb_true_iff in Hc. rewrite Hc, (IH Hs). reflexivity.
Qed.

Lemma join_cons (sep : jsstring) (x y : jsstring) (l : list jsstring) :
  JS.join sep (x :: y :: l) = x ++ sep ++ JS.join sep (y :: l).
Proof. reflexivity. Qed.

Lemma split_join (sep : N) (l : list jsstring) :
  l <> [] -> forallb (freeOf sep) l = true ->
  JS.split sep (JS.join [sep] l) = l.
Proof.
  induction l as [|x l IH]; intros Hne H; [contradiction|].
  cbn [forallb] in H. apply andb_true_iff in H. destruct H as [Hx Hl].
  destruct l as [|y l].
  - simpl. now apply split_free.
  - rewrite join_cons. cbn [app]. rewrite (split_app_sep _ _ _ Hx).
    f_equal. apply IH; [discriminate|exact Hl].
Qed.

Lemma freeOf_join (c sep : N) (l : list jsstring) :
  (sep =? c) = false -> forallb (freeOf c) l = true ->
  freeOf c (JS.join [sep] l) = true.
Proof.
  intros Hsep. induction l as [|x l IH]; intros H; [reflexivity|].
  cbn [forallb] in H. apply andb_true_iff in H. destruct H as [Hx Hl].
  destruct l as [|y l]; [exact Hx|].
  rewrite join_cons, !freeOf_app, Hx, (IH Hl). simpl. now rewrite Hsep.
Qed.


Lemma trimStart_length (s : jsstring) : (length (JS.trimStart s) <= length s)%nat.
Proof.
  induction s as [|c s IH]; simpl; [lia|].
  destruct (JS.is_space c); simpl; lia.
Qed.

Lemma trimEnd_length (s : jsstring) : (length (JS.trimEnd s) <= length s)%nat.
Proof.
  unfold JS.trimEnd. rewrite length_rev.
  pose proof (trimStart_length (rev s)) as H. now rewrite length_rev in H.
Qed.

(** A text that [trim] leaves alone does not start with white space. *)
Lemma trim_fixed_head (c : N) (s : jsstring) :
  JS.trim (c :: s) = c :: s -> JS.is_space c = false.
Proof.
  intros H. destruct (JS.is_space c) eqn:E; [|reflexivity].
  exfalso. assert (L : length (JS.trim (c :: s)) = length (c :: s))
    by now rewrite H.
  unfold JS.trim in L. simpl JS.trimStart in L. rewrite E in L.
  pose proof (trimEnd_length (JS.trimStart s)).
  pose proof (trimStart_length s). simpl in L. lia.
Qed.





(** *** The properties on the seed data *)

Ltac in_explicit_list H :=
  cbv in H; repeat (destruct H as [H|H]; [discriminate H|]); exact H.

Ltac explicit_nodup :=
  repeat (constructor; [let H := fresh "H" in intros H; in_explicit_list H|]);
  constructor.

Lemma seed_ids_unique : NoDup (map Asset.id Constants.MOCK_ASSETS).
Proof. unfold Constants.MOCK_ASSETS. cbn [map Asset.id]. explicit_nodup. Qed.

Lemma seedWithLostProjector_ids_unique :
  NoDup (map Asset.id (App.assets seedWithLostProjector)).
Proof.
  change (map Asset.id (App.assets seedWithLostProjector))
    with (map Asset.id Constants.MOCK_ASSETS).
  exact seed_ids_unique.
Qed.

Lemma seed_has_no_AST_404 (a : Asset.t) :
  In a (App.assets (Constants.initialStore 0)) -> Asset.id a <> js "AST-404".
Proof.
  intros Ha. cbn in Ha.
  repeat (destruct Ha as [<-|Ha]; [cbv; discriminate|]). destruct Ha.
Qed.

(** *** Bulk edit: what is rewritten and what is reported *)




Lemma handleTransaction_unknown_id_noop_witness :
  (forall a, In a (App.assets (Constants.initialStore 0)) ->
             Asset.id a <> js "AST-404")
  /\ App.handleTransaction (Constants.initialStore 0)
       (JS.mkDraw (fun _ => 7) (js "0.5")) (JS.mkDraw (fun _ => 9) (js "0.25"))
       5 (js "AST-404") BORROW (js "Alice Chen") [] None
     = Constants.initialStore 0.
Proof.
  split; [exact seed_has_no_AST_404|].
  apply (handleTransaction_unknown_id_noop (Constants.initialStore 0)).
  exact seed_has_no_AST_404.
Defined.

Lemma borrow_and_return_effect_witness :
  let st := Constants.initialStore 0 in
  let d1 := JS.mkDraw (fun _ => 7) (js "0.5") in
  let d2 := JS.mkDraw (fun _ => 9) (js "0.25") in
  (In (seedAsset 3) (App.assets st)
   /\ Asset.status (seedAsset 3) = AVAILABLE
   /\ transitionEffect st
        (App.handleTransaction st d1 d2 5 (Asset.id (seedAsset 3)) BORROW
           (js "Alice Chen") [] None)
        (seedAsset 3) BORROW (js "Alice Chen") [] None 5 BORROWED
        (Some (js "Alice Chen")))
  /\ (In (seedAsset 1) (App.assets st)
      /\ Asset.status (seedAsset 1) = BORROWED
      /\ transitionEffect st
           (App.handleTransaction st d1 d2 5 (Asset.id (seedAsset 1)) RETURN
              (js "Alice Chen") [] None)
           (seedAsset 1) RETURN (js "Alice Chen") [] None 5 AVAILABLE None).
Proof.
  intros st d1 d2.
  assert (I3 : In (seedAsset 3) (App.assets st))
    by (cbn; right; right; right; left; reflexivity).
  assert (I1 : In (seedAsset 1) (App.assets st))
    by (cbn; right; left; reflexivity).
  split; (split; [assumption|split; [reflexivity|]]).
  - apply (proj1 (borrow_and_return_effect st d1 d2 5 (seedAsset 3)
                    (js "Alice Chen") [] None I3)).
    reflexivity.
  - apply (proj2 (borrow_and_return_effect st d1 d2 5 (seedAsset 1)
                    (js "Alice Chen") [] None I1)).
    reflexivity.
Defined.

Lemma lost_alert_once_per_lost_asset_witness :
  let assets := App.assets seedWithLostProjector in
  let a := AdminView.withStatus (seedAsset 3) LOST in
  NoDup (map Asset.id assets)
  /\ In a assets
  /\ Asset.status a = LOST
  /\ alertsWithKey (js "lost-" ++ Asset.id a)
       (AdminView.newNotifications en assets (Constants.MOCK_TRANSACTIONS 0)
          0 0)
     = [AdminView.lostNotification en 0 a].
Proof.
  intros assets a.
  assert (I : In a assets) by (cbn; right; right; right; left; reflexivity).
  split; [exact seedWithLostProjector_ids_unique|].
  split; [exact I|]. split; [reflexivity|].
  apply (lost_alert_once_per_lost_asset en assets
           (Constants.MOCK_TRANSACTIONS 0) 0 0 a
           seedWithLostProjector_ids_unique I).
  reflexivity.
Defined.

Lemma overdue_alert_witness :
  let assets := Constants.MOCK_ASSETS in
  let transactions := Constants.MOCK_TRANSACTIONS 0 in
  let now := (6 * dayMs)%Z in
  let a := seedAsset 1 in
  NoDup (map Asset.id assets)
  /\ In a assets
  /\ Asset.status a = BORROWED
  /\ (length
        (alertsWithKey (js "overdue-" ++ Asset.id a)
           (AdminView.newNotifications en assets transactions now 0))
      = 1%nat
      <-> overdue transactions now a).
Proof.
  intros assets transactions now a.
  assert (I : In a assets) by (cbn; right; left; reflexivity).
  split; [exact seed_ids_unique|]. split; [exact I|]. split; [reflexivity|].
  apply (overdue_alert_iff_latest_borrow_older_than_week en assets
           transactions now 0 a seed_ids_unique I).
  reflexivity.
Defined.

(** The seed camera was borrowed two days before the data was loaded: six
    days after loading the borrow is eight days old and there is one
    overdue warning for it; four days after loading it is six days old and
    there is none. *)
Example overdue_after_eight_days_not_after_six :
  let alerts now :=
    alertsWithKey (js "overdue-" ++ js "AST-002")
      (AdminView.newNotifications en Constants.MOCK_ASSETS
         (Constants.MOCK_TRANSACTIONS 0) now 0) in
  map (fun n => (Notification.id n, Notification.type n))
      (alerts (6 * dayMs)%Z)
  = [(js "overdue-AST-002", warning)]
  /\ alerts (4 * dayMs)%Z = []
  /\ alerts (5 * dayMs)%Z = [].
Proof. vm_compute. repeat split. Qed.

(** A borrowed asset without any Borrow entry in the ledger gets no
    overdue alert, however late it is. *)
Example no_borrow_entry_no_overdue_alert :
  AdminView.newNotifications en Constants.MOCK_ASSETS [] (400 * dayMs)%Z 0 = [].
Proof. vm_compute. reflexivity. Qed.

(** The seed store with the projector marked Lost has one alert, the
    critical one for the projector. *)
Example lost_projector_alert :
  map (fun n => (Notification.id n, Notification.type n))
      (AdminView.newNotifications en (App.assets seedWithLostProjector)
         (Constants.MOCK_TRANSACTIONS 0) 0 0)
  = [(js "lost-AST-004", critical)].
Proof. vm_compute. reflexivity. Qed.

(** ** Further properties *)

(** *** The store handlers *)

Lemma store_eta (st : App.Store) :
  App.mkStore (App.assets st) (App.transactions st) = st.
Proof. now destruct st. Qed.

Lemma handleTransaction_ids (st : App.Store) (d1 d2 : JS.Draw) (now : Z)
    (assetId : jsstring) (ty : TransactionType) (userName signature : jsstring)
    (notes : option jsstring) :
  map Asset.id
    (App.assets
       (App.handleTransaction st d1 d2 now assetId ty userName signature notes))
  = map Asset.id (App.assets st).
Proof.
  unfold App.handleTransaction.
  destruct (find _ (App.assets st)); [|reflexivity].
  simpl. rewrite map_map. apply map_ext. intros a.
  now destruct (JS.eqb (Asset.id a) assetId).
Qed.

Lemma handleUpdateAsset_ids (st : App.Store) (u : Asset.t) :
  map Asset.id (App.assets (App.handleUpdateAsset st u))
  = map Asset.id (App.assets st).
Proof.
  simpl. rewrite map_map. apply map_ext. intros a.
  destruct (JS.eqb (Asset.id a) (Asset.id u)) eqn:E; [|reflexivity].
  apply eqb_eq in E. now simpl.
Qed.

Lemma updateMap_get_id (us : list Asset.t) (k : jsstring) (u : Asset.t) :
  App.updateMap_get us k = Some u -> Asset.id u = k.
Proof.
  unfold App.updateMap_get. intros E. apply find_some in E.
  now apply eqb_eq.
Qed.

Lemma handleBulkUpdateAssets_ids (st : App.Store) (us : list Asset.t) :
  map Asset.id (App.assets (App.handleBulkUpdateAssets st us))
  = map Asset.id (App.assets st).
Proof.
  simpl. rewrite map_map. apply map_ext. intros a.
  destruct (App.updateMap_get us (Asset.id a)) as [u|] eqn:E; [|reflexivity].
  now apply updateMap_get_id in E.
Qed.

Lemma handleTransaction_ledger (st : App.Store) (d1 d2 : JS.Draw) (now : Z)
    (assetId : jsstring) (ty : TransactionType) (userName signature : jsstring)
    (notes : option jsstring) :
  exists txs,
    App.transactions
      (App.handleTransaction st d1 d2 now assetId ty userName signature notes)
    = App.transactions st ++ txs
    /\ (length txs <= 1)%nat
    /\ Forall (fun tx => Transaction.assetId tx = assetId
                         /\ Transaction.type tx = ty
                         /\ Transaction.timestamp tx = now) txs.
Proof.
  unfold App.handleTransaction.
  destruct (find _ (App.assets st)).
  - eexists [_]. simpl. split; [reflexivity|]. split; [lia|].
    constructor; [|constructor]. simpl. auto.
  - exists []. rewrite app_nil_r. split; [reflexivity|]. split; [simpl; lia|].
    constructor.
Qed.

(** X1: whatever sequence of store calls is made, the ledger only grows at
    its end, by at most one entry per lifecycle call, and the asset ids only
    grow at their end: no entry of the ledger is rewritten or removed and no
    asset is removed or given another id. *)
Theorem ledger_and_ids_only_grow (st : App.Store) (ops : list StoreOp) :
  exists txs ids,
    App.transactions (runOps st ops) = App.transactions st ++ txs
    /\ map Asset.id (App.assets (runOps st ops))
       = map Asset.id (App.assets st) ++ ids
    /\ (length txs <= length (filter isTransact ops))%nat.
Proof.
  revert st. induction ops as [|op ops IH]; intros st.
  - exists [], []. simpl. now rewrite !app_nil_r.
  - unfold runOps. simpl fold_left. fold (runOps (applyOp st op) ops).
    destruct (IH (applyOp st op)) as (txs & ids & Ht & Hi & Hl).
    rewrite Ht, Hi. destruct op; simpl applyOp; simpl filter; simpl length.
    + destruct (handleTransaction_ledger st txDraw userDraw now assetId type
                  userName signature notes) as (t1 & -> & L1 & _).
      rewrite handleTransaction_ids.
      exists (t1 ++ txs), ids. rewrite <- app_assoc, length_app.
      repeat split; lia.
    + exists txs, (Asset.id newAsset :: ids). simpl.
      rewrite map_app, <- app_assoc. repeat split. exact Hl.
    + exists txs, (map Asset.id newAssets ++ ids). simpl.
      rewrite map_app, <- app_assoc. repeat split. exact Hl.
    + rewrite handleUpdateAsset_ids. exists txs, ids. repeat split. exact Hl.
    + rewrite handleBulkUpdateAssets_ids. exists txs, ids. repeat split.
      exact Hl.
Qed.

Lemma findAsset_app (l1 l2 : list Asset.t) (k : jsstring) :
  findAsset (l1 ++ l2) k
  = match findAsset l1 k with
    | Some a => Some a
    | None => findAsset l2 k
    end.
Proof.
  unfold findAsset. induction l1 as [|x l1 IH]; [reflexivity|].
  simpl. now destruct (JS.eqb (Asset.id x) k).
Qed.

(** X2: a direct edit replaces the store entries that carry the id of the
    edited asset and nothing else: a lookup of that id finds the edited
    asset when the id was present, lookups of other ids are as before, and
    an edit for an id that is not in the store changes nothing. *)
Theorem handleUpdateAsset_lookup (st : App.Store) (u : Asset.t) :
  (findAsset (App.assets st) (Asset.id u) <> None ->
   findAsset (App.assets (App.handleUpdateAsset st u)) (Asset.id u) = Some u)
  /\ (forall k, k <> Asset.id u ->
        findAsset (App.assets (App.handleUpdateAsset st u)) k
        = findAsset (App.assets st) k)
  /\ (findAsset (App.assets st) (Asset.id u) = None ->
      App.handleUpdateAsset st u = st).
Proof.
  unfold findAsset. simpl. split; [|split].
  - induction (App.assets st) as [|a l IH]; simpl; [congruence|].
    destruct (JS.eqb (Asset.id a) (Asset.id u)) eqn:E; simpl.
    + now rewrite eqb_refl.
    + rewrite E. exact IH.
  - intros k Hk. induction (App.assets st) as [|a l IH]; simpl; [reflexivity|].
    destruct (JS.eqb (Asset.id a) (Asset.id u)) eqn:E; simpl.
    + apply eqb_eq in E.
      assert (X : JS.eqb (Asset.id u) k = false) by (apply eqb_neq; congruence).
      assert (Y : JS.eqb (Asset.id a) k = false) by (apply eqb_neq; congruence).
      now rewrite X, Y.
    + now destruct (JS.eqb (Asset.id a) k).
  - intros Hnone. unfold App.handleUpdateAsset.
    rewrite <- (store_eta st) at 3. f_equal.
    rewrite <- (map_id (App.assets st)) at 2. apply map_ext_in.
    intros a Ha. eapply find_none in Hnone; [|exact Ha].
    simpl in Hnone. now rewrite Hnone.
Qed.

Lemma handleUpdateAsset_lookup_witness :
  findAsset (App.assets (Constants.initialStore 0))
    (Asset.id (AdminView.withStatus (seedAsset 3) LOST)) <> None
  /\ findAsset (App.assets seedWithLostProjector) (js "AST-004")
     = Some (AdminView.withStatus (seedAsset 3) LOST)
  /\ js "AST-001" <> Asset.id (AdminView.withStatus (seedAsset 3) LOST)
  /\ findAsset (App.assets seedWithLostProjector) (js "AST-001")
     = findAsset (App.assets (Constants.initialStore 0)) (js "AST-001")
  /\ findAsset (App.assets (Constants.initialStore 0))
       (Asset.id (AdminView.withStatus (seedAsset 9) LOST)) = None
  /\ App.handleUpdateAsset (Constants.initialStore 0)
       (AdminView.withStatus (seedAsset 9) LOST)
     = Constants.initialStore 0.
Proof.
  assert (H1 : findAsset (App.assets (Constants.initialStore 0))
                 (Asset.id (AdminView.withStatus (seedAsset 3) LOST)) <> None)
    by (vm_compute; discriminate).
  assert (H2 : js "AST-001"
               <> Asset.id (AdminView.withStatus (seedAsset 3) LOST))
    by (vm_compute; discriminate).
  assert (H3 : findAsset (App.assets (Constants.initialStore 0))
                 (Asset.id (AdminView.withStatus (seedAsset 9) LOST)) = None)
    by (vm_compute; reflexivity).
  pose proof (handleUpdateAsset_lookup (Constants.initialStore 0)
                (AdminView.withStatus (seedAsset 3) LOST)) as [A [B _]].
  pose proof (handleUpdateAsset_lookup (Constants.initialStore 0)
                (AdminView.withStatus (seedAsset 9) LOST)) as [_ [_ C]].
  split; [exact H1|]. split; [exact (A H1)|]. split; [exact H2|].
  split; [exact (B _ H2)|]. split; [exact H3|exact (C H3)].
Defined.

Lemma updateMap_get_cons (u : Asset.t) (us : list Asset.t) (k : jsstring) :
  App.updateMap_get (u :: us) k
  = match App.updateMap_get us k with
    | Some x => Some x
    | None => if JS.eqb (Asset.id u) k then Some u else None
    end.
Proof.
  unfold App.updateMap_get. simpl rev.
  induction (rev us) as [|x l IH]; simpl; [reflexivity|].
  now destruct (JS.eqb (Asset.id x) k).
Qed.

(** X3: a bulk update is the same as the direct edits of its elements made
    one after the other (also when several elements carry one id: the last
    one stays). *)
Theorem handleBulkUpdateAssets_is_sequence_of_edits (st : App.Store)
    (updatedAssets : list Asset.t) :
  App.handleBulkUpdateAssets st updatedAssets
  = fold_left App.handleUpdateAsset updatedAssets st.
Proof.
  revert st. induction updatedAssets as [|u us IH]; intros st.
  - simpl. unfold App.handleBulkUpdateAssets. rewrite <- (store_eta st) at 3.
    f_equal. rewrite <- (map_id (App.assets st)) at 2. now apply map_ext.
  - simpl fold_left. rewrite <- IH.
    unfold App.handleBulkUpdateAssets, App.handleUpdateAsset. simpl.
    f_equal. rewrite map_map. apply map_ext. intros a.
    rewrite updateMap_get_cons.
    destruct (JS.eqb (Asset.id a) (Asset.id u)) eqn:E.
    + apply eqb_eq in E. rewrite <- E.
      destruct (App.updateMap_get us (Asset.id a)); [reflexivity|].
      rewrite E. now rewrite eqb_refl.
    + destruct (App.updateMap_get us (Asset.id a)); [reflexivity|].
      assert (X : JS.eqb (Asset.id u) (Asset.id a) = false).
      { apply eqb_neq. apply eqb_neq in E. congruence. }
      now rewrite X.
Qed.

(** X4: adding an asset does not check its id: the asset is appended, a
    lookup of an id that was present still finds the earlier entry (an added
    asset with a taken id is never found), and only a lookup of a new id
    finds the added asset. *)
Theorem handleAddAsset_lookup (st : App.Store) (newAsset : Asset.t)
    (k : jsstring) :
  findAsset (App.assets (App.handleAddAsset st newAsset)) k
  = match findAsset (App.assets st) k with
    | Some a => Some a
    | None => if JS.eqb (Asset.id newAsset) k then Some newAsset else None
    end.
Proof.
  simpl. rewrite findAsset_app. destruct (findAsset (App.assets st) k);
    [reflexivity|].
  unfold findAsset. simpl. now destruct (JS.eqb (Asset.id newAsset) k).
Qed.

Lemma transition_id (k : jsstring) (ty : TransactionType) (userName : jsstring)
    (a : Asset.t) :
  Asset.id (transition k ty userName a) = Asset.id a.
Proof. unfold transition. now destruct (JS.eqb (Asset.id a) k). Qed.

(** X5: a Borrow followed by a Return of the same asset gives back the
    asset collection as it was, when the entries with that id were
    Available without a holder; the ledger has gained the Borrow entry and
    then the Return entry. *)
Theorem borrow_then_return_restores_assets (st : App.Store)
    (d1 d2 d3 d4 : JS.Draw) (now1 now2 : Z) (a : Asset.t)
    (user1 sig1 user2 sig2 : jsstring) (notes1 notes2 : option jsstring) :
  In a (App.assets st) ->
  (forall b, In b (App.assets st) -> Asset.id b = Asset.id a ->
             Asset.status b = AVAILABLE /\ Asset.currentHolder b = None) ->
  let borrowed :=
    App.handleTransaction st d1 d2 now1 (Asset.id a) BORROW user1 sig1 notes1 in
  let returned :=
    App.handleTransaction borrowed d3 d4 now2 (Asset.id a) RETURN user2 sig2
      notes2 in
  App.assets returned = App.assets st
  /\ exists txB txR,
       App.transactions returned = App.transactions st ++ [txB; txR]
       /\ Transaction.type txB = BORROW /\ Transaction.type txR = RETURN
       /\ Transaction.assetId txB = Asset.id a
       /\ Transaction.assetId txR = Asset.id a
       /\ Transaction.userName txB = user1
       /\ Transaction.userName txR = user2
       /\ Transaction.timestamp txB = now1
       /\ Transaction.timestamp txR = now2.
Proof.
  intros Hin Hav borrowed returned.
  destruct (handleTransaction_found st d1 d2 now1 a BORROW user1 sig1 notes1 Hin)
    as (txB & E1 & B1 & B2 & B3 & B4 & _).
  fold borrowed in E1.
  assert (Hin1 : In (transition (Asset.id a) BORROW user1 a)
                   (App.assets borrowed)).
  { rewrite E1. simpl. now apply in_map. }
  pose proof (handleTransaction_found borrowed d3 d4 now2 _ RETURN user2 sig2
                notes2 Hin1) as (txR & E2 & R1 & R2 & R3 & R4 & _).
  rewrite transition_id in E2, R2. fold returned in E2.
  rewrite E2, E1. simpl. split.
  - rewrite map_map. rewrite <- (map_id (App.assets st)) at 2.
    apply map_ext_in. intros b Hb. unfold transition at 2.
    destruct (JS.eqb (Asset.id b) (Asset.id a)) eqn:E.
    + apply eqb_eq in E. destruct (Hav b Hb E) as [Hs Hh].
      unfold transition. simpl. rewrite E, eqb_refl.
      destruct b. simpl in *. now subst.
    + unfold transition. now rewrite E.
  - exists txB, txR. rewrite <- app_assoc. simpl. repeat split; assumption.
Qed.

Lemma borrow_then_return_restores_assets_witness :
  let st := Constants.initialStore 0 in
  let d := JS.mkDraw (fun _ => 7) (js "0.5") in
  In (seedAsset 0) (App.assets st)
  /\ (forall b, In b (App.assets st) -> Asset.id b = Asset.id (seedAsset 0) ->
                Asset.status b = AVAILABLE /\ Asset.currentHolder b = None)
  /\ App.assets
       (App.handleTransaction
          (App.handleTransaction st d d 1 (Asset.id (seedAsset 0)) BORROW
             (js "Alice Chen") [] None)
          d d 2 (Asset.id (seedAsset 0)) RETURN (js "Alice Chen") [] None)
     = App.assets st.
Proof.
  intros st d.
  assert (I : In (seedAsset 0) (App.assets st)) by (cbn; left; reflexivity).
  assert (H : forall b, In b (App.assets st) ->
                        Asset.id b = Asset.id (seedAsset 0) ->
                        Asset.status b = AVAILABLE
                        /\ Asset.currentHolder b = None).
  { intros b Hb. cbn in Hb.
    repeat (destruct Hb as [<-|Hb];
            [first [now split | intros E; vm_compute in E; discriminate E]|]).
    destruct Hb. }
  split; [exact I|]. split; [exact H|].
  apply (borrow_then_return_restores_assets st d d d d 1 2 (seedAsset 0)
           (js "Alice Chen") [] (js "Alice Chen") [] None None I H).
Defined.

(** *** More on the derived alerts *)

Lemma filter_ids_unique (p : Asset.t -> bool) (l : list Asset.t) :
  NoDup (map Asset.id l) -> NoDup (map Asset.id (filter p l)).
Proof.
  induction l as [|x l IH]; intros H; [constructor|].
  simpl in H. inversion H as [|? ? Hx Hl]; subst. simpl.
  destruct (p x); [|now apply IH].
  simpl. constructor; [|now apply IH].
  intros Hin. apply Hx. apply in_map_iff in Hin.
  destruct Hin as (b & E & Hb). apply filter_In in Hb.
  apply in_map_iff. exists b. tauto.
Qed.

Lemma keyed_alerts_unique (f : Asset.t -> list Notification.t)
    (prefix : jsstring) (l : list Asset.t) :
  (forall b n, In n (f b) -> Notification.id n = prefix ++ Asset.id b) ->
  (forall b, length (f b) <= 1)%nat ->
  NoDup (map Asset.id l) ->
  NoDup (map Notification.id (flat_map f l)).
Proof.
  intros Hkey Hone. induction l as [|x l IH]; intros H; [constructor|].
  simpl in H. inversion H as [|? ? Hx Hl]; subst.
  simpl. rewrite map_app. apply NoDup_app; [| now apply IH |].
  - specialize (Hone x). destruct (f x) as [|n [|m r]]; simpl in *; try lia.
    + constructor.
    + constructor; [tauto|constructor].
  - intros key Hk Hk'. apply in_map_iff in Hk. destruct Hk as (n & <- & Hn).
    apply in_map_iff in Hk'. destruct Hk' as (n' & E & Hn').
    apply in_flat_map in Hn'. destruct Hn' as (b & Hb & Hn').
    rewrite (Hkey _ _ Hn), (Hkey _ _ Hn') in E.
    apply app_inv_head in E. apply Hx. rewrite <- E. now apply in_map.
Qed.

Lemma flat_map_length_le {A B : Type} (f : A -> list B) (l : list A) :
  (forall x, length (f x) <= 1)%nat ->
  (length (flat_map f l) <= length l)%nat.
Proof.
  intros H. induction l as [|x l IH]; simpl; [lia|].
  rewrite length_app. specialize (H x). lia.
Qed.

Lemma pushOverdue_at_most_one (lang : Lang) (transactions : list Transaction.t)
    (now stamp : Z) (a : Asset.t) :
  (length (AdminView.pushOverdue lang transactions now stamp [] a) <= 1)%nat.
Proof.
  unfold AdminView.pushOverdue.
  destruct (AdminView.lastBorrowTx transactions a);
    [destruct (_ <? _)%Z|]; simpl; lia.
Qed.

Lemma lost_and_borrowed_at_most_all (l : list Asset.t) :
  (length (filter (fun a => AssetStatus_eqb (Asset.status a) LOST) l)
   + length (filter (fun a => AssetStatus_eqb (Asset.status a) BORROWED) l)
   <= length l)%nat.
Proof.
  induction l as [|x l IH]; simpl; [lia|].
  destruct (Asset.status x); simpl; lia.
Qed.

Lemma map_as_flat_map {A B : Type} (f : A -> B) (l : list A) :
  map f l = flat_map (fun x => [f x]) l.
Proof. induction l as [|x l IH]; simpl; [reflexivity|now rewrite IH]. Qed.

(** X6: there are never more alerts than assets, and when the asset ids
    are unique so are the keys of the alerts. *)
Theorem alert_keys_unique_and_bounded (lang : Lang) (assets : list Asset.t)
    (transactions : list Transaction.t) (now stamp : Z) :
  let derived :=
    AdminView.newNotifications lang assets transactions now stamp in
  (length derived <= length assets)%nat
  /\ (NoDup (map Asset.id assets) -> NoDup (map Notification.id derived)).
Proof.
  simpl. rewrite newNotifications_spec. split.
  - rewrite length_app, length_map.
    pose proof (flat_map_length_le
                  (AdminView.pushOverdue lang transactions now stamp [])
                  (filter (fun a => AssetStatus_eqb (Asset.status a) BORROWED)
                          assets)
                  (pushOverdue_at_most_one lang transactions now stamp)).
    pose proof (lost_and_borrowed_at_most_all assets). lia.
  - intros Hnd. rewrite map_app. apply NoDup_app.
    + rewrite (map_as_flat_map (AdminView.lostNotification lang stamp)).
      apply (keyed_alerts_unique _ (js "lost-")).
      * intros b n [<-|[]]. reflexivity.
      * intros b. simpl. lia.
      * now apply filter_ids_unique.
    + apply (keyed_alerts_unique _ (js "overdue-")).
      * intros b n Hn. now apply pushOverdue_key in Hn.
      * apply pushOverdue_at_most_one.
      * now apply filter_ids_unique.
    + intros key Hk Hk'.
      apply in_map_iff in Hk. destruct Hk as (n & <- & Hn).
      apply in_map_iff in Hn. destruct Hn as (b & <- & _).
      apply in_map_iff in Hk'. destruct Hk' as (n' & E & Hn').
      apply in_flat_map in Hn'. destruct Hn' as (c & _ & Hn').
      apply pushOverdue_key in Hn'. destruct Hn' as [K _].
      rewrite K in E. simpl in E. cbv in E. discriminate E.
Qed.

Lemma alert_keys_unique_witness :
  NoDup (map Asset.id (App.assets seedWithLostProjector))
  /\ NoDup
       (map Notification.id
          (AdminView.newNotifications en (App.assets seedWithLostProjector)
             (Constants.MOCK_TRANSACTIONS 0) (6 * dayMs)%Z 0)).
Proof.
  split; [exact seedWithLostProjector_ids_unique|].
  apply (alert_keys_unique_and_bounded en (App.assets seedWithLostProjector)
           (Constants.MOCK_TRANSACTIONS 0) (6 * dayMs)%Z 0).
  exact seedWithLostProjector_ids_unique.
Defined.

Lemma lastBorrowTx_ignores_other_entries (transactions : list Transaction.t)
    (tx : Transaction.t) (b : Asset.t) :
  ~ isBorrowOf b tx ->
  AdminView.lastBorrowTx (transactions ++ [tx]) b
  = AdminView.lastBorrowTx transactions b.
Proof.
  intros H. unfold AdminView.lastBorrowTx. rewrite filter_app. simpl.
  destruct (_ && _) eqn:E; [|now rewrite app_nil_r].
  apply isBorrowOf_filter in E. contradiction.
Qed.



Lemma filter_transition_other (k : jsstring) (ty : TransactionType)
    (userName : jsstring) (s : AssetStatus) (l : list Asset.t) :
  TransactionType_eqb ty BORROW = false ->
  s <> AVAILABLE ->
  filter (fun a => AssetStatus_eqb (Asset.status a) s)
    (map (transition k ty userName) l)
  = filter (fun a => AssetStatus_eqb (Asset.status a) s)
      (filter (fun a => negb (JS.eqb (Asset.id a) k)) l).
Proof.
  intros Hty Hs. induction l as [|x l IH]; [reflexivity|].
  cbn [map filter].
  destruct (JS.eqb (Asset.id x) k) eqn:K; cbn [negb].
  - assert (T : transition k ty userName x
                = App.withStatusHolder x AVAILABLE None)
      by (unfold transition; now rewrite K, Hty).
    rewrite T. cbn [App.withStatusHolder Asset.status].
    destruct s; [congruence| | |]; exact IH.
  - assert (T : transition k ty userName x = x)
      by (unfold transition; now rewrite K).
    rewrite T. cbn [filter]. now rewrite IH.
Qed.

(** X8: after a Return (or a Maintenance-Log) of an asset, the derived
    alerts are the alerts of the other assets as they were before: the
    asset itself has none, and nothing changes for the rest. *)
Theorem return_removes_only_the_assets_alerts (st : App.Store)
    (d1 d2 : JS.Draw) (now : Z) (a : Asset.t) (ty : TransactionType)
    (userName signature : jsstring) (notes : option jsstring) (lang : Lang)
    (later stamp : Z) :
  In a (App.assets st) ->
  ty <> BORROW ->
  let st' :=
    App.handleTransaction st d1 d2 now (Asset.id a) ty userName signature
      notes in
  AdminView.newNotifications lang (App.assets st') (App.transactions st')
    later stamp
  = AdminView.newNotifications lang
      (filter (fun b => negb (JS.eqb (Asset.id b) (Asset.id a)))
         (App.assets st))
      (App.transactions st) later stamp.
Proof.
  intros Hin Hty st'.
  destruct (handleTransaction_found st d1 d2 now a ty userName signature
              notes Hin) as (tx & E & Htx & _).
  fold st' in E. rewrite E. simpl.
  assert (Hb : TransactionType_eqb ty BORROW = false).
  { destruct (TransactionType_eqb ty BORROW) eqn:X; [|reflexivity].
    apply TransactionType_eqb_eq in X. contradiction. }
  rewrite !newNotifications_spec.
  rewrite !(filter_transition_other _ _ _ _ _ Hb) by discriminate.
  f_equal. apply flat_map_ext. intros b. unfold AdminView.pushOverdue.
  rewrite lastBorrowTx_ignores_other_entries; [reflexivity|].
  intros [_ X]. congruence.
Qed.

Lemma return_removes_only_the_assets_alerts_witness :
  let st := Constants.initialStore 0 in
  let d := JS.mkDraw (fun _ => 7) (js "0.5") in
  In (seedAsset 1) (App.assets st)
  /\ RETURN <> BORROW
  /\ AdminView.newNotifications en
       (App.assets
          (App.handleTransaction st d d (6 * dayMs) (Asset.id (seedAsset 1))
             RETURN (js "Alice Chen") [] None))
       (App.transactions
          (App.handleTransaction st d d (6 * dayMs) (Asset.id (seedAsset 1))
             RETURN (js "Alice Chen") [] None))
       (6 * dayMs)%Z 0
     = AdminView.newNotifications en
         (filter (fun b => negb (JS.eqb (Asset.id b) (Asset.id (seedAsset 1))))
            (App.assets st))
         (App.transactions st) (6 * dayMs)%Z 0.
Proof.
  intros st d.
  assert (I : In (seedAsset 1) (App.assets st))
    by (cbn; right; left; reflexivity).
  assert (T : RETURN <> BORROW) by discriminate.
  split; [exact I|]. split; [exact T|].
  exact (return_removes_only_the_assets_alerts st d d (6 * dayMs)%Z
           (seedAsset 1) RETURN (js "Alice Chen") [] None en (6 * dayMs)%Z 0
           I T).
Defined.

(** *** [sort] with a comparator on integer keys *)

Lemma insert_perm {A : Type} (cmp : A -> A -> Z) (x : A) (l : list A) :
  Permutation (JS.insert cmp x l) (x :: l).
Proof.
  induction l as [|y l IH]; simpl; [reflexivity|].
  destruct (0 <? cmp x y)%Z; [|reflexivity].
  rewrite IH. apply perm_swap.
Qed.

Lemma sort_perm {A : Type} (cmp : A -> A -> Z) (l : list A) :
  Permutation (JS.sort cmp l) l.
Proof.
  induction l as [|x l IH]; simpl; [constructor|].
  rewrite insert_perm. now constructor.
Qed.

Lemma insert_desc_sorted {A : Type} (key : A -> Z) (x : A) (l : list A) :
  Sorted (fun u v => (key v <= key u)%Z) l ->
  Sorted (fun u v => (key v <= key u)%Z)
    (JS.insert (fun u v => (key v - key u)%Z) x l).
Proof.
  induction l as [|y l IH]; intros H; simpl.
  - repeat constructor.
  - inversion H as [|? ? Hl Hy]; subst.
    destruct (0 <? key y - key x)%Z eqn:C.
    + apply Z.ltb_lt in C. constructor; [now apply IH|].
      destruct l as [|z l]; simpl.
      * constructor. lia.
      * destruct (0 <? key z - key x)%Z; constructor; [|lia].
        now inversion Hy.
    + apply Z.ltb_ge in C. constructor; [exact H|]. constructor. lia.
Qed.

Lemma sort_desc_sorted {A : Type} (key : A -> Z) (l : list A) :
  StronglySorted (fun u v => (key v <= key u)%Z)
    (JS.sort (fun u v => (key v - key u)%Z) l).
Proof.
  apply Sorted_StronglySorted.
  - intros u v w Huv Hvw. lia.
  - induction l as [|x l IH]; simpl; [constructor|].
    now apply insert_desc_sorted.
Qed.

Lemma insert_desc_stable {A : Type} (key : A -> Z) (k : Z) (x : A)
    (l : list A) :
  Sorted (fun u v => (key v <= key u)%Z) l ->
  filter (fun u => (key u =? k)%Z)
    (JS.insert (fun u v => (key v - key u)%Z) x l)
  = filter (fun u => (key u =? k)%Z) (x :: l).
Proof.
  induction l as [|y l IH]; intros H; [reflexivity|].
  inversion H as [|? ? Hl Hy]; subst. cbn [JS.insert].
  destruct (0 <? key y - key x)%Z eqn:C; [|reflexivity].
  apply Z.ltb_lt in C. cbn [filter] in *. rewrite (IH Hl).
  destruct (key x =? k)%Z eqn:X, (key y =? k)%Z eqn:Y; try reflexivity.
  apply Z.eqb_eq in X, Y. lia.
Qed.

(** Elements with equal keys keep the order they had. *)
Lemma sort_desc_stable {A : Type} (key : A -> Z) (k : Z) (l : list A) :
  filter (fun u => (key u =? k)%Z) (JS.sort (fun u v => (key v - key u)%Z) l)
  = filter (fun u => (key u =? k)%Z) l.
Proof.
  induction l as [|x l IH]; [reflexivity|]. simpl JS.sort.
  rewrite insert_desc_stable.
  - cbn [filter]. now rewrite IH.
  - apply StronglySorted_Sorted, sort_desc_sorted.
Qed.

Lemma sort_desc_snoc_newest {A : Type} (key : A -> Z) (x : A) (l : list A) :
  (forall y, In y l -> (key y < key x)%Z) ->
  JS.sort (fun u v => (key v - key u)%Z) (l ++ [x])
  = x :: JS.sort (fun u v => (key v - key u)%Z) l.
Proof.
  intros H. unfold JS.sort. rewrite fold_right_app.
  change (fold_right (JS.insert (fun u v => (key v - key u)%Z)) [] [x])
    with [x].
  generalize (@nil A). intros s.
  induction l as [|y l IH]; [reflexivity|].
  cbn [fold_right]. rewrite IH by (intros z Hz; apply H; now right).
  cbn [JS.insert]. assert (C : (0 <? key x - key y)%Z = true).
  { apply Z.ltb_lt. specialize (H y (or_introl eq_refl)). lia. }
  now rewrite C.
Qed.

(** *** The history of an asset *)

(** X9: the history shown for an asset holds exactly the ledger entries of
    that asset, each as often as in the ledger, newest first; entries with
    the same timestamp stay in ledger order. *)
Theorem getAssetHistory_newest_first (transactions : list Transaction.t)
    (assetId : jsstring) :
  let history := MobileView.getAssetHistory transactions assetId in
  Permutation history
    (filter (fun tx => JS.eqb (Transaction.assetId tx) assetId) transactions)
  /\ (forall tx, In tx history
                 <-> In tx transactions /\ Transaction.assetId tx = assetId)
  /\ StronglySorted
       (fun u v => (Transaction.timestamp v <= Transaction.timestamp u)%Z)
       history
  /\ (forall k,
        filter (fun tx => (Transaction.timestamp tx =? k)%Z) history
        = filter (fun tx => (Transaction.timestamp tx =? k)%Z)
            (filter (fun tx => JS.eqb (Transaction.assetId tx) assetId)
               transactions)).
Proof.
  simpl. unfold MobileView.getAssetHistory.
  split; [apply sort_perm|]. split; [|split].
  - intros tx. split.
    + intros H. apply (Permutation_in _ (sort_perm _ _)) in H.
      apply filter_In in H. destruct H as [H E]. apply eqb_eq in E.
      now split.
    + intros [H E].
      apply (Permutation_in _ (Permutation_sym (sort_perm _ _))).
      apply filter_In. split; [exact H|now apply eqb_eq].
  - apply sort_desc_sorted.
  - intros k. apply sort_desc_stable.
Qed.

(** X10: a lifecycle transaction made at an instant later than every entry
    the ledger has for that asset puts its entry at the head of the asset's
    history, the rest of the history staying as it was; the histories of
    the other assets do not change. *)
Theorem new_transaction_heads_history (st : App.Store) (d1 d2 : JS.Draw)
    (now : Z) (a : Asset.t) (ty : TransactionType)
    (userName signature : jsstring) (notes : option jsstring) :
  In a (App.assets st) ->
  (forall tx, In tx (App.transactions st) ->
              Transaction.assetId tx = Asset.id a ->
              (Transaction.timestamp tx < now)%Z) ->
  let st' :=
    App.handleTransaction st d1 d2 now (Asset.id a) ty userName signature
      notes in
  (exists tx,
     MobileView.getAssetHistory (App.transactions st') (Asset.id a)
     = tx :: MobileView.getAssetHistory (App.transactions st) (Asset.id a)
     /\ Transaction.type tx = ty
     /\ Transaction.userName tx = userName
     /\ Transaction.timestamp tx = now
     /\ Transaction.assetName tx
        = match findAsset (App.assets st) (Asset.id a) with
          | Some first => Asset.name first
          | None => []
          end)
  /\ (forall k, k <> Asset.id a ->
        MobileView.getAssetHistory (App.transactions st') k
        = MobileView.getAssetHistory (App.transactions st) k).
Proof.
  intros Hin Hold st'. unfold st', App.handleTransaction.
  destruct (findAsset_in _ _ Hin) as [b Hb]. unfold findAsset in *.
  rewrite Hb. cbn [App.transactions]. unfold MobileView.getAssetHistory.
  rewrite !filter_app. cbn [filter Transaction.assetId]. split.
  - rewrite eqb_refl. eexists. split.
    + apply (sort_desc_snoc_newest Transaction.timestamp).
      intros y Hy. apply filter_In in Hy. destruct Hy as [Hy E].
      apply eqb_eq in E. cbn. now apply Hold.
    + cbn. auto.
  - intros k Hk.
    assert (E : JS.eqb (Asset.id a) k = false) by (apply eqb_neq; congruence).
    intros. rewrite filter_app. cbn [filter Transaction.assetId].
    now rewrite E, app_nil_r.
Qed.

Lemma new_transaction_heads_history_witness :
  let st := Constants.initialStore 0 in
  let d := JS.mkDraw (fun _ => 7) (js "0.5") in
  In (seedAsset 1) (App.assets st)
  /\ (forall tx, In tx (App.transactions st) ->
                 Transaction.assetId tx = Asset.id (seedAsset 1) ->
                 (Transaction.timestamp tx < 5)%Z)
  /\ map Transaction.type
       (MobileView.getAssetHistory
          (App.transactions
             (App.handleTransaction st d d 5 (Asset.id (seedAsset 1)) RETURN
                (js "Alice Chen") [] None))
          (Asset.id (seedAsset 1)))
     = [RETURN; BORROW].
Proof.
  intros st d.
  assert (I : In (seedAsset 1) (App.assets st))
    by (cbn; right; left; reflexivity).
  assert (H : forall tx, In tx (App.transactions st) ->
                         Transaction.assetId tx = Asset.id (seedAsset 1) ->
                         (Transaction.timestamp tx < 5)%Z).
  { intros tx Htx. cbn in Htx.
    repeat (destruct Htx as [<-|Htx]; [intros _; reflexivity|]).
    destruct Htx. }
  split; [exact I|]. split; [exact H|].
  destruct (proj1 (new_transaction_heads_history st d d 5 (seedAsset 1) RETURN
                     (js "Alice Chen") [] None I H))
    as (tx & E & T & _).
  rewrite E. cbn [map]. rewrite T. reflexivity.
Defined.

(** *** The default order of strings and [sortStrings] *)

Lemma compare_eq_iff (s u : jsstring) : JS.compare s u = Eq <-> s = u.
Proof.
  revert u. induction s as [|c s IH]; intros [|d u]; simpl;
    try (split; congruence).
  destruct (N.compare c d) eqn:C.
  - apply N.compare_eq_iff in C. subst d. rewrite IH. split; congruence.
  - split; [discriminate|]. intros E. injection E as -> _.
    rewrite N.compare_refl in C. discriminate.
  - split; [discriminate|]. intros E. injection E as -> _.
    rewrite N.compare_refl in C. discriminate.
Qed.

Lemma compare_antisym (s u : jsstring) :
  JS.compare u s = CompOpp (JS.compare s u).
Proof.
  revert u. induction s as [|c s IH]; intros [|d u]; simpl; try reflexivity.
  rewrite (N.compare_antisym c d).
  destruct (N.compare c d); simpl; [apply IH|reflexivity|reflexivity].
Qed.

Lemma compare_lt_trans (s u w : jsstring) :
  JS.compare s u = Lt -> JS.compare u w = Lt -> JS.compare s w = Lt.
Proof.
  revert u w. induction s as [|c s IH]; intros [|d u] [|e w]; simpl;
    try congruence.
  destruct (N.compare c d) eqn:C1; try discriminate;
    destruct (N.compare d e) eqn:C2; try discriminate; intros H1 H2.
  - apply N.compare_eq_iff in C1, C2. subst. rewrite N.compare_refl.
    now apply (IH u).
  - apply N.compare_eq_iff in C1. subst. now rewrite C2.
  - apply N.compare_eq_iff in C2. subst. now rewrite C1.
  - apply N.compare_lt_iff in C1. apply N.compare_lt_iff in C2.
    assert (C : N.compare c e = Lt)
      by (apply N.compare_lt_iff; now apply N.lt_trans with d).
    now rewrite C.
Qed.

Lemma compare_le_trans (s u w : jsstring) :
  JS.compare s u <> Gt -> JS.compare u w <> Gt -> JS.compare s w <> Gt.
Proof.
  intros H1 H2.
  destruct (JS.compare s u) eqn:C1; [|  |congruence].
  - apply compare_eq_iff in C1. now subst.
  - destruct (JS.compare u w) eqn:C2; [| |congruence].
    + apply compare_eq_iff in C2. subst. now rewrite C1.
    + now rewrite (compare_lt_trans _ _ _ C1 C2).
Qed.

Lemma sortStrings_insert_sorted (x : jsstring) (l : list jsstring) :
  Sorted (fun s u => JS.compare s u <> Gt) l ->
  Sorted (fun s u => JS.compare s u <> Gt)
    (JS.insert
       (fun x y => match JS.compare x y with
                   | Lt => (-1)%Z | Eq => 0%Z | Gt => 1%Z
                   end) x l).
Proof.
  induction l as [|y l IH]; intros H; simpl.
  - repeat constructor.
  - inversion H as [|? ? Hl Hy]; subst.
    destruct (JS.compare x y) eqn:C; simpl.
    + constructor; [exact H|]. constructor. now rewrite C.
    + constructor; [exact H|]. constructor. now rewrite C.
    + constructor; [now apply IH|].
      assert (Hyx : JS.compare y x <> Gt)
        by (rewrite compare_antisym, C; discriminate).
      destruct l as [|z l]; simpl.
      * now constructor.
      * destruct (JS.compare x z); simpl; constructor;
          first [exact Hyx | now inversion Hy].
Qed.

Lemma sortStrings_sorted (l : list jsstring) :
  StronglySorted (fun s u => JS.compare s u <> Gt) (JS.sortStrings l).
Proof.
  apply Sorted_StronglySorted.
  - intros s u w. apply compare_le_trans.
  - unfold JS.sortStrings, JS.sort.
    induction l as [|x l IH]; simpl; [constructor|].
    now apply sortStrings_insert_sorted.
Qed.

Lemma sortStrings_perm (l : list jsstring) : Permutation (JS.sortStrings l) l.
Proof. apply sort_perm. Qed.

Lemma strictly_sorted_of_distinct (l : list jsstring) :
  NoDup l -> StronglySorted (fun s u => JS.compare s u <> Gt) l ->
  StronglySorted strLt l.
Proof.
  induction l as [|x l IH]; intros Hnd Hs; [constructor|].
  inversion Hnd as [|? ? Hx Hl]; subst.
  apply StronglySorted_inv in Hs. destruct Hs as [Hs Hall].
  constructor; [now apply IH|].
  rewrite Forall_forall in *. intros y Hy. specialize (Hall y Hy).
  unfold strLt. destruct (JS.compare x y) eqn:C; [|reflexivity|congruence].
  apply compare_eq_iff in C. subst. contradiction.
Qed.

(** *** Sets of strings in insertion order *)

Lemma setAdd_spec (keys : list jsstring) (k : jsstring) :
  NoDup keys ->
  NoDup (AdminView.setAdd keys k)
  /\ forall x, In x (AdminView.setAdd keys k) <-> In x keys \/ x = k.
Proof.
  intros H. unfold AdminView.setAdd.
  destruct (existsb (JS.eqb k) keys) eqn:E.
  - apply existsb_eqb_in in E. split; [exact H|].
    intros x. split; [tauto|]. intros [Hx| ->]; assumption.
  - assert (Hk : ~ In k keys).
    { intros Hin. apply existsb_eqb_in in Hin. congruence. }
    split.
    + apply NoDup_app; [exact H|repeat constructor; tauto|].
      intros x Hx [<-|[]]. contradiction.
    + intros x. rewrite in_app_iff. simpl. intuition congruence.
Qed.

Lemma fold_setAdd_spec (ks keys : list jsstring) :
  NoDup keys ->
  NoDup (fold_left AdminView.setAdd ks keys)
  /\ forall x, In x (fold_left AdminView.setAdd ks keys)
               <-> In x keys \/ In x ks.
Proof.
  revert keys. induction ks as [|k ks IH]; intros keys H; simpl.
  - split; [exact H|]. intros x. tauto.
  - destruct (setAdd_spec keys k H) as [H1 H2].
    destruct (IH _ H1) as [H3 H4]. split; [exact H3|].
    intros x. rewrite H4, H2. intuition congruence.
Qed.

Lemma sorted_set_spec (ks : list jsstring) :
  let sorted := JS.sortStrings (fold_left AdminView.setAdd ks []) in
  StronglySorted strLt sorted /\ NoDup sorted
  /\ forall x, In x sorted <-> In x ks.
Proof.
  simpl. destruct (fold_setAdd_spec ks [] (NoDup_nil _)) as [Hnd Hin].
  assert (Hnd' : NoDup (JS.sortStrings (fold_left AdminView.setAdd ks []))).
  { eapply Permutation_NoDup; [|exact Hnd].
    symmetry. apply sortStrings_perm. }
  split; [|split].
  - apply strictly_sorted_of_distinct; [exact Hnd'|apply sortStrings_sorted].
  - exact Hnd'.
  - intros x. split.
    + intros H. apply (Permutation_in _ (sortStrings_perm _)) in H.
      apply Hin in H. destruct H as [[]|H]. exact H.
    + intros H.
      apply (Permutation_in _ (Permutation_sym (sortStrings_perm _))).
      apply Hin. now right.
Qed.

Lemma featureKeys_fold (assets : list Asset.t) (keys : list jsstring) :
  fold_left
    (fun keys a =>
       match Asset.customFeatures a with
       | Some features => fold_left AdminView.setAdd (map fst features) keys
       | None => keys
       end) assets keys
  = fold_left AdminView.setAdd (flat_map featureKeys assets) keys.
Proof.
  revert keys. induction assets as [|a assets IH]; intros keys;
    [reflexivity|].
  simpl. rewrite fold_left_app, IH. unfold featureKeys.
  now destruct (Asset.customFeatures a).
Qed.

(** X11: the feature columns of the asset table and of the CSV export are
    the feature names that occur on some asset, each once, in strictly
    ascending order of their code units. *)
Theorem getAllCustomFeatureKeys_sorted_distinct (assets : list Asset.t) :
  let columns := AdminView.getAllCustomFeatureKeys assets in
  StronglySorted strLt columns
  /\ NoDup columns
  /\ forall k, In k columns
               <-> exists a, In a assets /\ In k (featureKeys a).
Proof.
  simpl. unfold AdminView.getAllCustomFeatureKeys. rewrite featureKeys_fold.
  destruct (sorted_set_spec (flat_map featureKeys assets)) as (H1 & H2 & H3).
  split; [exact H1|]. split; [exact H2|].
  intros k. rewrite H3. apply in_flat_map.
Qed.

(** X12: the category filter offers the categories that occur on some
    asset, each once, in strictly ascending order of their code units. *)
Theorem uniqueCategories_sorted_distinct (assets : list Asset.t) :
  let categories := AdminData.uniqueCategories assets in
  StronglySorted strLt categories
  /\ NoDup categories
  /\ forall c, In c categories
               <-> exists a, In a assets /\ Asset.category a = c.
Proof.
  simpl. unfold AdminData.uniqueCategories.
  destruct (sorted_set_spec (map Asset.category assets)) as (H1 & H2 & H3).
  split; [exact H1|]. split; [exact H2|].
  intros c. rewrite H3. rewrite in_map_iff.
  split; intros (a & Ha); exists a; tauto.
Qed.

(** *** CSV import: edge cases *)

(** X14: a file without a line break, be it empty or a header line alone,
    imports nothing: no asset is created, the store is left as it is and no
    success message is shown. *)
Theorem import_without_data_rows (st : App.Store) (today : jsstring)
    (random : nat -> JS.Draw) (content : jsstring) :
  freeOf JS.newline content = true ->
  AdminView.parseCSV today random content = []
  /\ AdminView.handleFileUpload st today random content = (st, None).
Proof.
  intros H.
  assert (E : AdminView.parseCSV today random content = []).
  { unfold AdminView.parseCSV. now rewrite (split_free _ _ H). }
  split; [exact E|]. unfold AdminView.handleFileUpload. now rewrite E.
Qed.

Lemma import_without_data_rows_witness :
  freeOf JS.newline (js "Name,Category,Model,Serial") = true
  /\ AdminView.handleFileUpload (Constants.initialStore 0) (js "2026-01-01")
       (fun _ => JS.mkDraw (fun _ => 7) (js "0.5"))
       (js "Name,Category,Model,Serial")
     = (Constants.initialStore 0, None).
Proof.
  split; [reflexivity|].
  apply (import_without_data_rows (Constants.initialStore 0)).
  reflexivity.
Defined.

(** *** [trim] *)

Lemma trimStart_all_space (s : jsstring) :
  forallb JS.is_space s = true -> JS.trimStart s = [].
Proof.
  induction s as [|c s IH]; simpl; [reflexivity|].
  intros H. apply andb_true_iff in H. destruct H as [Hc Hs].
  now rewrite Hc, IH.
Qed.

Lemma trimStart_app (s u : jsstring) :
  forallb JS.is_space s = false ->
  JS.trimStart (s ++ u) = JS.trimStart s ++ u.
Proof.
  induction s as [|c s IH]; simpl; [discriminate|].
  destruct (JS.is_space c); simpl; [exact IH|reflexivity].
Qed.

Lemma trim_snoc_space (s : jsstring) (c : N) :
  JS.is_space c = true -> JS.trim (s ++ [c]) = JS.trim s.
Proof.
  intros Hc. unfold JS.trim.
  destruct (forallb JS.is_space s) eqn:A.
  - rewrite (trimStart_all_space s A), trimStart_all_space; [reflexivity|].
    rewrite forallb_app, A. simpl. now rewrite Hc.
  - rewrite (trimStart_app _ _ A). unfold JS.trimEnd.
    rewrite rev_unit. simpl. now rewrite Hc.
Qed.

Lemma trim_of_firstNonSpace (s : jsstring) :
  firstNonSpace s = true -> firstNonSpace (rev s) = true -> JS.trim s = s.
Proof.
  intros H1 H2.
  assert (T : forall u, firstNonSpace u = true -> JS.trimStart u = u).
  { intros [|c u]; simpl; [reflexivity|].
    intros H. apply negb_true_iff in H. now rewrite H. }
  unfold JS.trim, JS.trimEnd. rewrite (T s H1), (T _ H2).
  apply rev_involutive.
Qed.

Lemma firstNonSpace_of_trim (s : jsstring) :
  JS.trim s = s -> firstNonSpace s = true /\ firstNonSpace (rev s) = true.
Proof.
  intros H. split.
  - destruct s as [|c s]; [reflexivity|]. simpl.
    now rewrite (trim_fixed_head c s H).
  - destruct (rev s) as [|c r] eqn:R; [reflexivity|]. simpl.
    destruct (JS.is_space c) eqn:E; [|reflexivity]. exfalso.
    assert (S : s = rev r ++ [c]).
    { rewrite <- (rev_involutive s), R. reflexivity. }
    rewrite S in H. rewrite (trim_snoc_space _ _ E) in H.
    assert (L : length (JS.trim (rev r)) = length (rev r ++ [c]))
      by now rewrite H.
    unfold JS.trim in L. rewrite length_app in L. simpl in L.
    pose proof (trimEnd_length (JS.trimStart (rev r))).
    pose proof (trimStart_length (rev r)). lia.
Qed.

Lemma join_snoc (sep x : jsstring) (l : list jsstring) :
  l <> [] -> JS.join sep (l ++ [x]) = JS.join sep l ++ sep ++ x.
Proof.
  induction l as [|a m IH]; intros Hne; [contradiction|].
  destruct m as [|b m]; [reflexivity|].
  change ((a :: b :: m) ++ [x]) with (a :: b :: (m ++ [x])).
  rewrite join_cons.
  change (b :: m ++ [x]) with ((b :: m) ++ [x]).
  rewrite IH by discriminate. rewrite join_cons.
  now rewrite <- !app_assoc.
Qed.

Lemma firstNonSpace_app (s u : jsstring) :
  firstNonSpace s = true -> firstNonSpace u = true ->
  firstNonSpace (s ++ u) = true.
Proof. destruct s; simpl; auto. Qed.

Lemma firstNonSpace_join (cells : list jsstring) :
  forallb firstNonSpace cells = true ->
  firstNonSpace (JS.join [JS.comma] cells) = true.
Proof.
  destruct cells as [|x l]; [reflexivity|].
  intros H. cbn [forallb] in H. apply andb_true_iff in H.
  destruct H as [Hx _]. destruct l as [|y l]; [exact Hx|].
  rewrite join_cons. destruct x; [reflexivity|exact Hx].
Qed.

Lemma lastNonSpace_join (cells : list jsstring) :
  forallb (fun c => firstNonSpace (rev c)) cells = true ->
  firstNonSpace (rev (JS.join [JS.comma] cells)) = true.
Proof.
  destruct cells as [|x l] using rev_ind; [reflexivity|].
  intros H. rewrite forallb_app in H. apply andb_true_iff in H.
  destruct H as [_ Hx]. cbn [forallb] in Hx. rewrite andb_true_r in Hx.
  destruct l as [|a m]; [exact Hx|].
  rewrite join_snoc by discriminate.
  rewrite !rev_app_distr. cbn [rev app].
  destruct (rev x) as [|c r]; [reflexivity|exact Hx].
Qed.

(** The text of a row of cells that [trim] leaves alone is left alone by
    [trim]. *)
Lemma trim_join (cells : list jsstring) :
  (forall c, In c cells -> JS.trim c = c) ->
  JS.trim (JS.join [JS.comma] cells) = JS.join [JS.comma] cells.
Proof.
  intros H. apply trim_of_firstNonSpace.
  - apply firstNonSpace_join. apply forallb_forall. intros c Hc.
    now apply firstNonSpace_of_trim, H.
  - apply lastNonSpace_join. apply forallb_forall. intros c Hc.
    now apply firstNonSpace_of_trim, H.
Qed.

Lemma cleanCell_fields (c : jsstring) :
  cleanCell c = true ->
  freeOf JS.comma c = true /\ freeOf JS.newline c = true
  /\ JS.trim c = c /\ JS.stripQuotes c = c.
Proof.
  unfold cleanCell, bare. rewrite !andb_true_iff, !eqb_eq. tauto.
Qed.

Lemma or_else_some_nil_default (d : jsstring) :
  JS.or_else (Some []) d = JS.or_else None d.
Proof. reflexivity. Qed.

(** What the import reads from the line of a row of clean cells. *)
Lemma importedFields_of_clean_cells (cells : list jsstring) :
  forallb cleanCell cells = true ->
  importedFields (JS.join [JS.comma] cells) = cellsFields cells.
Proof.
  intros H. rewrite forallb_forall in H.
  destruct cells as [|x l] eqn:C; [reflexivity|]. rewrite <- C in *.
  assert (R : rowCells (JS.join [JS.comma] cells) = cells).
  { unfold rowCells. rewrite trim_join
      by (intros c Hc; now apply cleanCell_fields, H).
    rewrite split_join.
    - rewrite <- (map_id cells) at 2. apply map_ext_in. intros c Hc.
      destruct (cleanCell_fields c (H c Hc)) as (_ & _ & T & S).
      now rewrite T, S.
    - rewrite C. discriminate.
    - apply forallb_forall. intros c Hc. now apply cleanCell_fields, H. }
  unfold importedFields, rowName, cellsFields. now rewrite R.
Qed.

(** X16: a text made of a header line and rows of clean cells imports as
    written: one asset per row whose first cell is not empty, in order,
    with the first four cells as name, category, model and serial number,
    the defaults 'General', 'Standard' and 'N/A' standing in for cells that
    are missing or empty, and the cells after the fourth ignored. *)
Theorem import_of_clean_table (today : jsstring) (random : nat -> JS.Draw)
    (header : jsstring) (rows : list (list jsstring)) :
  freeOf JS.newline header = true ->
  forallb (forallb cleanCell) rows = true ->
  map fields4 (AdminView.parseCSV today random (tableText header rows))
  = map cellsFields
      (filter (fun cells => JS.truthy (JS.or_else (nth_error cells 0) []))
         rows).
Proof.
  intros Hh Hrows. rewrite forallb_forall in Hrows.
  rewrite (proj1 (parseCSV_rows today random _)).
  unfold acceptedRows, dataRows, tableText. cbn [app].
  rewrite (split_app_sep _ _ _ Hh). cbn [tl].
  destruct rows as [|r rows'] eqn:E; [reflexivity|]. rewrite <- E in *.
  rewrite split_join.
  - rewrite filter_map_swap', map_map.
    rewrite (filter_ext_in _
               (fun cells => JS.truthy (JS.or_else (nth_error cells 0) []))).
    + apply map_ext_in. intros cells Hc. apply filter_In in Hc.
      apply importedFields_of_clean_cells. now apply Hrows.
    + intros cells Hc.
      pose proof (importedFields_of_clean_cells cells (Hrows _ Hc)) as F.
      unfold importedFields, cellsFields in F. now injection F as -> _ _ _.
  - rewrite E. discriminate.
  - apply forallb_forall. intros l Hl. apply in_map_iff in Hl.
    destruct Hl as (cells & <- & Hc). apply freeOf_join; [reflexivity|].
    apply forallb_forall. intros c Hcell.
    specialize (Hrows _ Hc). rewrite forallb_forall in Hrows.
    now apply cleanCell_fields, Hrows.
Qed.

Lemma import_of_clean_table_witness :
  let rows :=
    [ [js "Drone X"; js "Drone"; js "V2"; js "SN1"; js "extra"];
      [[]; js "BadRow"; []; []];
      [js "Tablet Y"] ] in
  freeOf JS.newline (js "Name,Category,Model,Serial") = true
  /\ forallb (forallb cleanCell) rows = true
  /\ map fields4
       (AdminView.parseCSV (js "2026-01-01")
          (fun _ => JS.mkDraw (fun _ => 7) (js "0.5"))
          (tableText (js "Name,Category,Model,Serial") rows))
     = [ (js "Drone X", js "Drone", js "V2", js "SN1");
         (js "Tablet Y", js "General", js "Standard", js "N/A") ].
Proof.
  intros rows.
  assert (H1 : freeOf JS.newline (js "Name,Category,Model,Serial") = true)
    by reflexivity.
  assert (H2 : forallb (forallb cleanCell) rows = true)
    by (vm_compute; reflexivity).
  split; [exact H1|]. split; [exact H2|].
  rewrite (import_of_clean_table (js "2026-01-01")
             (fun _ => JS.mkDraw (fun _ => 7) (js "0.5"))
             (js "Name,Category,Model,Serial") rows H1 H2).
  reflexivity.
Defined.

(** *** CSV import: line ends *)

Lemma split_join_crlf (ls : list jsstring) :
  ls <> [] -> forallb (freeOf JS.newline) ls = true ->
  JS.split JS.newline (JS.join [13; JS.newline] ls)
  = map (fun l => l ++ [13]) (removelast ls) ++ [last ls []].
Proof.
  induction ls as [|x l IH]; intros Hne H; [contradiction|].
  cbn [forallb] in H. apply andb_true_iff in H. destruct H as [Hx Hl].
  destruct l as [|y l].
  - simpl. now apply split_free.
  - rewrite join_cons.
    change (x ++ [13; JS.newline] ++ JS.join [13; JS.newline] (y :: l))
      with (x ++ 13 :: JS.newline :: JS.join [13; JS.newline] (y :: l)).
    replace (x ++ 13 :: JS.newline :: JS.join [13; JS.newline] (y :: l))
      with ((x ++ [13]) ++ JS.newline :: JS.join [13; JS.newline] (y :: l))
      by (now rewrite <- app_assoc).
    rewrite split_app_sep by (rewrite freeOf_app, Hx; reflexivity).
    rewrite IH by (try discriminate; exact Hl). reflexivity.
Qed.

Lemma importLine_cr (today : jsstring) (random : nat -> JS.Draw)
    (acc : list Asset.t * nat) (line : jsstring) :
  AdminView.importLine today random acc (line ++ [13])
  = AdminView.importLine today random acc line.
Proof.
  unfold AdminView.importLine. now rewrite trim_snoc_space.
Qed.

Lemma fold_importLine_cr (today : jsstring) (random : nat -> JS.Draw)
    (ls : list jsstring) (acc : list Asset.t * nat) :
  fold_left (AdminView.importLine today random)
    (map (fun l => l ++ [13]) ls) acc
  = fold_left (AdminView.importLine today random) ls acc.
Proof.
  revert acc. induction ls as [|l ls IH]; intros acc; [reflexivity|].
  simpl. now rewrite importLine_cr, IH.
Qed.

(** X15: a file whose lines end in carriage return and line feed imports
    the same assets as the file with plain line feeds. *)
Theorem import_accepts_crlf (today : jsstring) (random : nat -> JS.Draw)
    (lines : list jsstring) :
  forallb (freeOf JS.newline) lines = true ->
  AdminView.parseCSV today random (JS.join [13; JS.newline] lines)
  = AdminView.parseCSV today random (JS.join [JS.newline] lines).
Proof.
  intros H. destruct lines as [|h r] eqn:E; [reflexivity|]. rewrite <- E in *.
  assert (Hne : lines <> []) by (rewrite E; discriminate).
  unfold AdminView.parseCSV.
  rewrite (split_join_crlf _ Hne H), (split_join _ _ Hne H).
  remember (removelast lines) as R eqn:HR.
  remember (last lines []) as z eqn:Hz.
  assert (E2 : lines = R ++ [z])
    by (subst R z; now apply app_removelast_last).
  rewrite E2. clear. destruct R as [|y R]; [reflexivity|].
  cbn [map app tl]. rewrite !fold_left_app.
  now rewrite fold_importLine_cr.
Qed.

Lemma import_accepts_crlf_witness :
  let lines :=
    [js "Name,Category,Model,Serial"; js "Drone X,Drone,V2,SN1";
     js ",BadRow,,"; js "Tablet Y,Tablet,T1,SN2"] in
  forallb (freeOf JS.newline) lines = true
  /\ map Asset.name
       (AdminView.parseCSV (js "2026-01-01")
          (fun _ => JS.mkDraw (fun _ => 7) (js "0.5"))
          (JS.join [13; JS.newline] lines))
     = [js "Drone X"; js "Tablet Y"].
Proof.
  intros lines.
  assert (H : forallb (freeOf JS.newline) lines = true) by reflexivity.
  split; [exact H|].
  rewrite (import_accepts_crlf (js "2026-01-01")
             (fun _ => JS.mkDraw (fun _ => 7) (js "0.5")) lines H).
  vm_compute. reflexivity.
Defined.

(** *** The selection of the asset table *)

(** X17: ticking a row toggles its id in the selection and touches no
    other id, so that ticking it twice gives back the same selected ids;
    the select-all box selects the ids of the assets shown, each once, and
    unticking it empties the selection.  The selection never lists an id
    twice. *)
Theorem selection_toggles (selectedAssetIds : list jsstring) (id : jsstring)
    (filteredAssets : list Asset.t) :
  NoDup selectedAssetIds ->
  let toggled := Selection.handleSelectAsset selectedAssetIds id in
  NoDup toggled
  /\ (In id toggled <-> ~ In id selectedAssetIds)
  /\ (forall k, k <> id -> (In k toggled <-> In k selectedAssetIds))
  /\ (forall k, In k (Selection.handleSelectAsset toggled id)
                <-> In k selectedAssetIds)
  /\ NoDup (Selection.handleSelectAll true filteredAssets)
  /\ (forall k, In k (Selection.handleSelectAll true filteredAssets)
                <-> exists a, In a filteredAssets /\ Asset.id a = k)
  /\ Selection.handleSelectAll false filteredAssets = [].
Proof.
  intros Hnd toggled.
  assert (T : forall sel, NoDup sel ->
                NoDup (Selection.handleSelectAsset sel id)
                /\ (In id (Selection.handleSelectAsset sel id) <-> ~ In id sel)
                /\ (forall k, k <> id ->
                      (In k (Selection.handleSelectAsset sel id) <-> In k sel))).
  { intros sel Hs. unfold Selection.handleSelectAsset.
    destruct (existsb (JS.eqb id) sel) eqn:E.
    - apply existsb_eqb_in in E. unfold Selection.setDelete.
      split; [now apply NoDup_filter|]. split.
      + rewrite filter_In, eqb_refl. simpl. intuition discriminate.
      + intros k Hk. rewrite filter_In.
        assert (X : JS.eqb k id = false) by now apply eqb_neq.
        rewrite X. simpl. tauto.
    - assert (Hn : ~ In id sel).
      { intros Hin. apply existsb_eqb_in in Hin. congruence. }
      destruct (setAdd_spec sel id Hs) as [H1 H2].
      split; [exact H1|]. split.
      + rewrite H2. intuition.
      + intros k Hk. rewrite H2. tauto. }
  destruct (T _ Hnd) as (T1 & T2 & T3). fold toggled in T1, T2, T3.
  destruct (T _ T1) as (_ & U2 & U3).
  split; [exact T1|]. split; [exact T2|]. split; [exact T3|].
  split.
  { intros k. destruct (list_eq_dec N.eq_dec k id) as [->|Hk].
    - rewrite U2, T2. split; [|tauto].
      intros H. destruct (in_dec (list_eq_dec N.eq_dec) id selectedAssetIds);
        tauto.
    - now rewrite (U3 k Hk), (T3 k Hk). }
  unfold Selection.handleSelectAll.
  destruct (fold_setAdd_spec (map Asset.id filteredAssets) [] (NoDup_nil _))
    as [F1 F2].
  split; [exact F1|]. split; [|reflexivity].
  intros k. rewrite F2, in_map_iff. simpl.
  split; [intros [[]|(a & E & Ha)]|intros (a & Ha & E); right];
    exists a; tauto.
Qed.

Lemma selection_toggles_witness :
  NoDup [js "AST-001"; js "AST-003"]
  /\ (forall k, In k (Selection.handleSelectAsset
                        (Selection.handleSelectAsset
                           [js "AST-001"; js "AST-003"] (js "AST-001"))
                        (js "AST-001"))
                <-> In k [js "AST-001"; js "AST-003"]).
Proof.
  assert (H : NoDup [js "AST-001"; js "AST-003"]) by explicit_nodup.
  split; [exact H|].
  apply (selection_toggles [js "AST-001"; js "AST-003"] (js "AST-001") [] H).
Defined.

(** *** Bulk edit: composition *)

Lemma fold_setAdd_distinct (ks keys : list jsstring) :
  NoDup (keys ++ ks) -> fold_left AdminView.setAdd ks keys = keys ++ ks.
Proof.
  revert keys. induction ks as [|k ks IH]; intros keys H; simpl.
  - now rewrite app_nil_r.
  - assert (E : existsb (JS.eqb k) keys = false).
    { destruct (existsb (JS.eqb k) keys) eqn:E; [|reflexivity].
      apply existsb_eqb_in in E. apply NoDup_remove_2 in H.
      exfalso. apply H. apply in_or_app. now left. }
    unfold AdminView.setAdd at 2. rewrite E.
    rewrite IH; rewrite <- app_assoc; [reflexivity|exact H].
Qed.

(** X18: with unique asset ids, selecting all the assets shown and saving
    a bulk edit that carries a field writes the form into exactly the
    assets shown, leaves the others and the ledger as they are, and
    reports the number of assets shown. *)
Theorem bulk_edit_of_all_shown (st : App.Store) (shown : Asset.t -> bool)
    (form : BulkEditForm.t) :
  NoDup (map Asset.id (App.assets st)) ->
  patchPresent form = true ->
  let filteredAssets := filter shown (App.assets st) in
  let selected := Selection.handleSelectAll true filteredAssets in
  let result := AdminView.saveBulkEdit st form selected in
  App.assets (fst result)
  = map (fun a => if shown a then applyPatch form a else a) (App.assets st)
  /\ App.transactions (fst result) = App.transactions st
  /\ snd result
     = (if (0 <? length filteredAssets)%nat
        then Some (length filteredAssets) else None).
Proof.
  intros Hnd Hp filteredAssets selected result.
  assert (Hsel : selected = map Asset.id filteredAssets).
  { unfold selected, Selection.handleSelectAll.
    apply (fold_setAdd_distinct _ []). simpl.
    now apply filter_ids_unique. }
  split; [|split].
  - unfold result. rewrite saveBulkEdit_assets, Hp. simpl.
    apply map_ext_in. intros a Ha.
    rewrite (findAsset_unique _ _ Hnd Ha).
    destruct (shown a) eqn:S.
    + assert (X : existsb (JS.eqb (Asset.id a)) selected = true).
      { apply existsb_eqb_in. rewrite Hsel. apply in_map.
        apply filter_In. now split. }
      now rewrite X.
    + destruct (existsb (JS.eqb (Asset.id a)) selected) eqn:X;
        [|reflexivity].
      exfalso. apply existsb_eqb_in in X. rewrite Hsel in X.
      apply in_map_iff in X. destruct X as (b & E & Hb).
      apply filter_In in Hb. destruct Hb as [Hb Sb].
      pose proof (findAsset_unique _ _ Hnd Hb) as F.
      rewrite E, (findAsset_unique _ _ Hnd Ha) in F.
      injection F as ->. congruence.
  - unfold result, AdminView.saveBulkEdit. now destruct (0 <? _)%nat.
  - assert (L : length (AdminView.bulkEditUpdates (App.assets st) form selected)
                = length filteredAssets).
    { rewrite bulkEditUpdates_spec, Hp, length_map, existingTargets_length.
      rewrite forallb_filter_id; [now rewrite Hsel, length_map|].
      apply forallb_forall. intros k Hk. rewrite Hsel in Hk.
      apply in_map_iff in Hk. destruct Hk as (b & <- & Hb).
      apply filter_In in Hb. apply existsb_exists. exists b.
      split; [tauto|apply eqb_refl]. }
    unfold result, AdminView.saveBulkEdit. rewrite L.
    now destruct (0 <? length filteredAssets)%nat.
Qed.

Lemma bulk_edit_of_all_shown_witness :
  let st := Constants.initialStore 0 in
  let form := BulkEditForm.mk (Some MAINTENANCE) (Some []) in
  let shown := fun a => AssetStatus_eqb (Asset.status a) AVAILABLE in
  NoDup (map Asset.id (App.assets st))
  /\ patchPresent form = true
  /\ map Asset.status
       (App.assets
          (fst (AdminView.saveBulkEdit st form
                  (Selection.handleSelectAll true
                     (filter shown (App.assets st))))))
     = [MAINTENANCE; BORROWED; MAINTENANCE; MAINTENANCE; MAINTENANCE].
Proof.
  intros st form shown.
  split; [exact seed_ids_unique|]. split; [reflexivity|].
  rewrite (proj1 (bulk_edit_of_all_shown st shown form seed_ids_unique
                    eq_refl)).
  reflexivity.
Defined.

Lemma applyPatch_id (form : BulkEditForm.t) (a : Asset.t) :
  Asset.id (applyPatch form a) = Asset.id a.
Proof. reflexivity. Qed.

Lemma applyPatch_idempotent (form : BulkEditForm.t) (a : Asset.t) :
  applyPatch form (applyPatch form a) = applyPatch form a.
Proof.
  destruct form as [s c]. unfold applyPatch. simpl.
  f_equal; [now destruct c as [[|x xs]|]|now destruct s].
Qed.

Lemma findAsset_map (f : Asset.t -> Asset.t) (assets : list Asset.t)
    (k : jsstring) :
  (forall a, Asset.id (f a) = Asset.id a) ->
  findAsset (map f assets) k = option_map f (findAsset assets k).
Proof.
  intros Hid. unfold findAsset.
  induction assets as [|a l IH]; [reflexivity|].
  simpl. rewrite Hid. now destruct (JS.eqb (Asset.id a) k).
Qed.

(** X19: saving the same bulk edit a second time changes no asset: the
    store after the second save is the store after the first. *)
Theorem bulk_edit_twice_is_once (st : App.Store) (form : BulkEditForm.t)
    (selected : list jsstring) :
  let once := fst (AdminView.saveBulkEdit st form selected) in
  fst (AdminView.saveBulkEdit once form selected) = once.
Proof.
  intros once.
  set (f := fun a =>
              if patchPresent form && existsb (JS.eqb (Asset.id a)) selected
              then match findAsset (App.assets st) (Asset.id a) with
                   | Some b => applyPatch form b
                   | None => a
                   end
              else a).
  assert (Hf : forall a, Asset.id (f a) = Asset.id a).
  { intros a. unfold f. destruct (_ && _); [|reflexivity].
    destruct (findAsset (App.assets st) (Asset.id a)) as [b|] eqn:E;
      [|reflexivity].
    now apply findAsset_some in E. }
  assert (E1 : App.assets once = map f (App.assets st))
    by apply saveBulkEdit_assets.
  assert (T1 : App.transactions once = App.transactions st).
  { unfold once, AdminView.saveBulkEdit. now destruct (0 <? _)%nat. }
  rewrite <- (store_eta (fst (AdminView.saveBulkEdit once form selected))).
  rewrite <- (store_eta once) at 3. f_equal.
  - rewrite saveBulkEdit_assets, E1, map_map.
    apply map_ext_in. intros a Ha. rewrite Hf.
    destruct (patchPresent form && existsb (JS.eqb (Asset.id a)) selected)
      eqn:C; [|reflexivity].
    rewrite (findAsset_map f _ _ Hf).
    destruct (findAsset_in _ _ Ha) as [b Hb]. rewrite Hb. simpl.
    destruct (findAsset_some _ _ _ Hb) as [_ Hbid].
    unfold f. rewrite Hbid, C, Hb. apply applyPatch_idempotent.
  - unfold AdminView.saveBulkEdit. now destruct (0 <? _)%nat.
Qed.

(** *** The snapshot: counts and length *)



(** *** The signature pad *)





(** *** The mobile screen *)

Lemma offeredAction_guard (a : Asset.t) (ty : TransactionType) :
  MobileView.offeredAction a = Some ty ->
  (ty = BORROW /\ Asset.status a = AVAILABLE)
  \/ (ty = RETURN
      /\ (Asset.status a = BORROWED \/ Asset.status a = MAINTENANCE)).
Proof.
  unfold MobileView.offeredAction.
  destruct (Asset.status a); intros E; inversion E; subst; auto.
Qed.

Lemma mobile_step (toLowerCase : jsstring -> jsstring) (lang : Lang)
    (s : MobileView.State) (st : App.Store) (e : MobileView.Event) :
  mobileInvariant s st ->
  let '(s', st', _) := MobileView.step toLowerCase lang s st e in
  mobileInvariant s' st'
  /\ (st' = st \/ guardedTransaction st st')
  /\ (MobileView.isAdminLoggedIn s = true ->
      MobileView.isAdminLoggedIn s' = true).
Proof.
  intros (I1 & I2 & I3 & I4).
  destruct s as [vs sa un ft cp ai li sr sp np]. simpl in *.
  unfold mobileInvariant.
  destruct vs, e; simpl;
    try solve [split; [repeat split; solve [assumption | discriminate | auto]
                      |split; [now left|auto]]].
  - (* Home: the admin entry *)
    split; [|split; [now left|auto]].
    split; [exact I1|]. split; [destruct li; discriminate|].
    split; [destruct li; [reflexivity|discriminate]|exact I4].
  - (* Home: scan *)
    split; [|split; [now left|auto]].
    split; [|split; [discriminate|split; [discriminate|exact I4]]].
    intros a Ha. now apply nth_error_In in Ha.
  - (* AssetDetail: back *)
    unfold MobileView.step. cbn.
    destruct sa as [a|]; cbn; (split; [|split; [now left|auto]]).
    + split; [exact I1|]. split; [destruct li; discriminate|].
      split; [destruct li; [reflexivity|discriminate]|exact I4].
    + split; [exact I1|]. split; [discriminate|].
      split; [discriminate|exact I4].
  - (* AssetDetail: the action button *)
    unfold MobileView.step. cbn.
    destruct sa as [a|]; cbn.
    + destruct (MobileView.offeredAction a) as [ty|] eqn:O; cbn;
        (split; [|split; [now left|auto]]).
      * split; [exact I1|]. split; [intros _; exists a; now split|].
        split; [discriminate|exact I4].
      * split; [exact I1|]. split; [discriminate|].
        split; [discriminate|exact I4].
    + split; [|split; [now left|auto]].
      split; [exact I1|]. split; [discriminate|].
      split; [discriminate|exact I4].
  - (* SignFlow: the signature *)
    unfold MobileView.step, MobileView.handleSignatureComplete. cbn.
    destruct (I2 eq_refl) as (a & -> & O).
    destruct un as [|c un]; cbn.
    + split; [|split; [now left|auto]].
      split; [exact I1|]. split; [intros _; exists a; now split|].
      split; [discriminate|exact I4].
    + split; [|split; [|auto]].
      * split; [discriminate|]. split; [discriminate|].
        split; [discriminate|exact I4].
      * right. exists a, txDraw, userDraw, now, ft, (c :: un), signature,
          (Some notes).
        split; [now apply I1|]. split; [discriminate|].
        split; [now apply offeredAction_guard|reflexivity].
  - (* AdminLogin: login *)
    unfold MobileView.step, MobileView.handleAdminLogin. cbn.
    destruct (JS.eqb ai cp); cbn; (split; [|split; [now left|auto]]).
    + split; [exact I1|]. split; [discriminate|]. split; [auto|exact I4].
    + split; [exact I1|]. split; [discriminate|].
      split; [discriminate|exact I4].
  - (* AdminDashboard: typing a new password *)
    unfold MobileView.step. cbn.
    destruct sp; cbn; (split; [|split; [now left|auto]]);
      (split; [exact I1|]; split; [discriminate|]; split; [exact I3|exact I4]).
  - (* AdminDashboard: update password *)
    unfold MobileView.step, MobileView.updateAdminPassword. cbn -[Nat.leb].
    destruct sp; cbn -[Nat.leb].
    + destruct (4 <=? length np)%nat eqn:L; cbn -[Nat.leb];
        (split; [|split; [now left|auto]]).
      * split; [exact I1|]. split; [discriminate|]. split; [exact I3|].
        now apply Nat.leb_le.
      * split; [exact I1|]. split; [discriminate|].
        split; [exact I3|exact I4].
    + split; [|split; [now left|auto]].
      split; [exact I1|]. split; [discriminate|]. split; [exact I3|exact I4].
  - (* AdminDashboard: an asset of the list *)
    unfold MobileView.step. cbn.
    destruct (nth_error _ index) as [a|] eqn:N; cbn;
      (split; [|split; [now left|auto]]).
    + split; [|split; [discriminate|split; [discriminate|exact I4]]].
      intros b Hb. injection Hb as <-. apply nth_error_In in N.
      unfold MobileView.filteredAssets in N. now apply filter_In in N.
    + split; [exact I1|]. split; [discriminate|].
      split; [exact I3|exact I4].
Qed.

Lemma mobileRun_snoc (toLowerCase : jsstring -> jsstring) (lang : Lang)
    (s : MobileView.State) (st : App.Store) (events : list MobileView.Event)
    (e : MobileView.Event) :
  mobileRun toLowerCase lang s st (events ++ [e])
  = let '(s', st', _) :=
      MobileView.step toLowerCase lang
        (fst (mobileRun toLowerCase lang s st events))
        (snd (mobileRun toLowerCase lang s st events)) e in
    (s', st').
Proof. unfold mobileRun. now rewrite fold_left_app. Qed.

Lemma initial_mobileInvariant (st : App.Store) :
  mobileInvariant MobileView.initialState st.
Proof.
  unfold mobileInvariant. simpl.
  repeat split; try discriminate. lia.
Qed.

Lemma mobileRun_invariant (toLowerCase : jsstring -> jsstring) (lang : Lang)
    (st0 : App.Store) (events : list MobileView.Event) :
  mobileInvariant
    (fst (mobileRun toLowerCase lang MobileView.initialState st0 events))
    (snd (mobileRun toLowerCase lang MobileView.initialState st0 events)).
Proof.
  induction events as [|e events IH] using rev_ind.
  - apply initial_mobileInvariant.
  - rewrite mobileRun_snoc.
    pose proof (mobile_step toLowerCase lang _ _ e IH) as H.
    destruct (MobileView.step toLowerCase lang _ _ e) as [[s' st'] alert].
    simpl. tauto.
Qed.

(** X22: whatever the user has done on the mobile screen since it was
    opened, the next action either leaves the store as it is or makes one
    lifecycle call, signed with a non-empty name, for an asset of the
    store: a Borrow if that asset is Available, a Return if it is Borrowed
    or in Maintenance.  No call is made for a Lost asset, none without a
    name, and none of type Maintenance-Log. *)
Theorem mobile_screen_guards_transactions (toLowerCase : jsstring -> jsstring)
    (lang : Lang) (st0 : App.Store) (events : list MobileView.Event)
    (e : MobileView.Event) :
  let '(s, st) :=
    mobileRun toLowerCase lang MobileView.initialState st0 events in
  let '(_, st', _) := MobileView.step toLowerCase lang s st e in
  st' = st \/ guardedTransaction st st'.
Proof.
  pose proof (mobileRun_invariant toLowerCase lang st0 events) as I.
  destruct (mobileRun toLowerCase lang MobileView.initialState st0 events)
    as [s st]. simpl in I.
  pose proof (mobile_step toLowerCase lang s st e I) as H.
  destruct (MobileView.step toLowerCase lang s st e) as [[s' st'] alert].
  tauto.
Qed.

Lemma guarded_effects (st st' : App.Store) :
  NoDup (map Asset.id (App.assets st)) ->
  guardedTransaction st st' ->
  map Asset.id (App.assets st') = map Asset.id (App.assets st)
  /\ (exists tx, App.transactions st' = App.transactions st ++ [tx]
                 /\ (Transaction.type tx = BORROW
                     \/ Transaction.type tx = RETURN)
                 /\ Transaction.userName tx <> [])
  /\ (forall b, In b (App.assets st) -> Asset.status b = LOST ->
                In b (App.assets st')).
Proof.
  intros Hnd (a & d1 & d2 & now & ty & u & sig & notes & Ha & Hu & Hg & ->).
  split; [apply handleTransaction_ids|].
  destruct (handleTransaction_found st d1 d2 now a ty u sig notes Ha)
    as (tx & -> & Hty & _ & Hun & _).
  simpl. split.
  - exists tx. split; [reflexivity|]. rewrite Hty, Hun.
    split; [|exact Hu]. destruct Hg as [[-> _]|[-> _]]; auto.
  - intros b Hb Hlost. apply in_map_iff. exists b. split; [|exact Hb].
    unfold transition. destruct (JS.eqb (Asset.id b) (Asset.id a)) eqn:E;
      [|reflexivity].
    exfalso. apply eqb_eq in E.
    pose proof (findAsset_unique _ _ Hnd Ha) as Fa.
    pose proof (findAsset_unique _ _ Hnd Hb) as Fb.
    rewrite E, Fa in Fb. injection Fb as ->.
    destruct Hg as [[_ G]|[_ [G|G]]]; congruence.
Qed.

(** X23: with unique asset ids, however the mobile screen is used, the
    assets keep their ids and order, the ledger only gains Borrow and
    Return entries that carry a non-empty user name, and an asset that was
    Lost when the screen was opened is still in the store exactly as it
    was. *)
Theorem mobile_screen_never_touches_lost_assets
    (toLowerCase : jsstring -> jsstring) (lang : Lang) (st0 : App.Store)
    (events : list MobileView.Event) :
  NoDup (map Asset.id (App.assets st0)) ->
  let st :=
    snd (mobileRun toLowerCase lang MobileView.initialState st0 events) in
  map Asset.id (App.assets st) = map Asset.id (App.assets st0)
  /\ (exists added,
        App.transactions st = App.transactions st0 ++ added
        /\ Forall (fun tx =>
                     (Transaction.type tx = BORROW
                      \/ Transaction.type tx = RETURN)
                     /\ Transaction.userName tx <> []) added)
  /\ (forall a, In a (App.assets st0) -> Asset.status a = LOST ->
                In a (App.assets st)).
Proof.
  intros Hnd. simpl.
  induction events as [|e events IH] using rev_ind.
  - simpl. split; [reflexivity|]. split; [|auto].
    exists []. now rewrite app_nil_r.
  - rewrite mobileRun_snoc.
    pose proof (mobileRun_invariant toLowerCase lang st0 events) as I.
    destruct (mobileRun toLowerCase lang MobileView.initialState st0 events)
      as [s st]. simpl in IH, I |- *.
    pose proof (mobile_step toLowerCase lang s st e I) as G.
    destruct (MobileView.step toLowerCase lang s st e) as [[s' st'] alert].
    simpl. destruct IH as (I1 & (added & I2 & I3) & I4).
    destruct G as (_ & [->|G] & _).
    + split; [exact I1|]. split; [now exists added|exact I4].
    + assert (Hnd' : NoDup (map Asset.id (App.assets st)))
        by now rewrite I1.
      destruct (guarded_effects st st' Hnd' G) as (E1 & (tx & E2 & E3) & E4).
      split; [now rewrite E1|]. split.
      * exists (added ++ [tx]). rewrite E2, I2, <- app_assoc.
        split; [reflexivity|]. apply Forall_app. split; [exact I3|].
        now constructor.
      * intros a Ha Hl. apply E4; [now apply I4|exact Hl].
Qed.

Lemma mobile_screen_never_touches_lost_assets_witness :
  let d := JS.mkDraw (fun _ => 1) (js "0.25") in
  let events :=
    [MobileView.ClickScan d; MobileView.ClickAction;
     MobileView.TypeUserName (js "Bob Smith");
     MobileView.SaveSignature (js "data:image/png;base64,") [] d d 5] in
  let st :=
    snd (mobileRun (fun s => s) en MobileView.initialState
           seedWithLostProjector events) in
  NoDup (map Asset.id (App.assets seedWithLostProjector))
  /\ In (AdminView.withStatus (seedAsset 3) LOST)
       (App.assets seedWithLostProjector)
  /\ Asset.status (AdminView.withStatus (seedAsset 3) LOST) = LOST
  /\ In (AdminView.withStatus (seedAsset 3) LOST) (App.assets st)
  /\ map Transaction.type (App.transactions st)
     = [BORROW; MAINTENANCE_LOG; RETURN].
Proof.
  intros d events st.
  assert (I : In (AdminView.withStatus (seedAsset 3) LOST)
                (App.assets seedWithLostProjector))
    by (cbn; right; right; right; left; reflexivity).
  split; [exact seedWithLostProjector_ids_unique|]. split; [exact I|].
  split; [reflexivity|]. split; [|reflexivity].
  exact (proj2 (proj2 (mobile_screen_never_touches_lost_assets (fun s => s) en
                         seedWithLostProjector events
                         seedWithLostProjector_ids_unique))
           _ I eq_refl).
Defined.

Lemma mobile_login_step (toLowerCase : jsstring -> jsstring) (lang : Lang)
    (s : MobileView.State) (st : App.Store) (e : MobileView.Event) :
  let '(s', _, _) := MobileView.step toLowerCase lang s st e in
  MobileView.isAdminLoggedIn s' = true ->
  MobileView.isAdminLoggedIn s = true
  \/ (e = MobileView.ClickLogin
      /\ MobileView.adminPasswordInput s = MobileView.currentAdminPassword s).
Proof.
  destruct s as [vs sa un ft cp ai li sr sp np].
  unfold MobileView.step, MobileView.handleSignatureComplete,
    MobileView.handleAdminLogin, MobileView.updateAdminPassword.
  destruct vs, e; cbn -[Nat.leb];
    repeat match goal with
           | |- context [match sa with _ => _ end] =>
               destruct sa; cbn -[Nat.leb]
           | |- context [MobileView.offeredAction ?a] =>
               destruct (MobileView.offeredAction a); cbn -[Nat.leb]
           | |- context [JS.truthy un] => destruct un; cbn -[Nat.leb]
           | |- context [JS.eqb ai cp] =>
               destruct (JS.eqb ai cp) eqn:E; cbn -[Nat.leb]
           | |- context [if sp then _ else _] => destruct sp; cbn -[Nat.leb]
           | |- context [(4 <=? length np)%nat] =>
               destruct (4 <=? length np)%nat; cbn -[Nat.leb]
           | |- context [nth_error ?l ?i] =>
               destruct (nth_error l i); cbn -[Nat.leb]
           end;
    try (intros H; now left).
  all: intros _; right; split; [reflexivity|now apply eqb_eq].
Qed.

(** X24: however the mobile screen is used, the admin dashboard is only
    on screen after a login, a login only comes from pressing the login
    button with the current password typed in (so there is none as long as
    the button was not pressed), the user is never logged out again, and
    the admin password always has at least four units. *)
Theorem mobile_admin_gate (toLowerCase : jsstring -> jsstring) (lang : Lang)
    (st0 : App.Store) (events more : list MobileView.Event)
    (e : MobileView.Event) :
  let s :=
    fst (mobileRun toLowerCase lang MobileView.initialState st0 events) in
  let st :=
    snd (mobileRun toLowerCase lang MobileView.initialState st0 events) in
  (MobileView.viewState s = MobileView.admin_dashboard ->
   MobileView.isAdminLoggedIn s = true)
  /\ (4 <= length (MobileView.currentAdminPassword s))%nat
  /\ (forallb (fun ev => negb (isClickLogin ev)) events = true ->
      MobileView.isAdminLoggedIn s = false)
  /\ (MobileView.isAdminLoggedIn
        (fst (fst (MobileView.step toLowerCase lang s st e))) = true ->
      MobileView.isAdminLoggedIn s = true
      \/ (e = MobileView.ClickLogin
          /\ MobileView.adminPasswordInput s
             = MobileView.currentAdminPassword s))
  /\ (MobileView.isAdminLoggedIn s = true ->
      MobileView.isAdminLoggedIn
        (fst (mobileRun toLowerCase lang MobileView.initialState st0
                (events ++ more))) = true).
Proof.
  intros s st.
  pose proof (mobileRun_invariant toLowerCase lang st0 events)
    as (_ & _ & I3 & I4).
  fold s in I3, I4. split; [exact I3|]. split; [exact I4|]. split; [|split].
  - unfold s. clear. induction events as [|ev events IH] using rev_ind;
      [reflexivity|].
    rewrite forallb_app, andb_true_iff. intros [H1 H2].
    rewrite mobileRun_snoc. specialize (IH H1).
    pose proof (mobile_login_step toLowerCase lang
                  (fst (mobileRun toLowerCase lang MobileView.initialState
                          st0 events))
                  (snd (mobileRun toLowerCase lang MobileView.initialState
                          st0 events)) ev) as L.
    destruct (MobileView.step toLowerCase lang _ _ ev) as [[s' st'] alert].
    simpl. destruct (MobileView.isAdminLoggedIn s') eqn:E; [|reflexivity].
    destruct (L eq_refl) as [X|[-> _]]; [congruence|].
    simpl in H2. discriminate.
  - pose proof (mobile_login_step toLowerCase lang s st e) as L.
    destruct (MobileView.step toLowerCase lang s st e) as [[s' st'] alert].
    exact L.
  - unfold s. clear. induction more as [|ev more IH] using rev_ind.
    + now rewrite app_nil_r.
    + intros H. specialize (IH H). rewrite app_assoc, mobileRun_snoc.
      pose proof (mobileRun_invariant toLowerCase lang st0 (events ++ more))
        as I.
      pose proof (mobile_step toLowerCase lang _ _ ev I) as M.
      destruct (MobileView.step toLowerCase lang _ _ ev) as [[s' st'] alert].
      simpl. tauto.
Qed.

Lemma mobile_admin_gate_witness :
  let events :=
    [MobileView.ClickAdminEntry; MobileView.TypeAdminPassword (js "123456");
     MobileView.ClickBack] in
  forallb (fun ev => negb (isClickLogin ev)) events = true
  /\ MobileView.isAdminLoggedIn
       (fst (mobileRun (fun s => s) en MobileView.initialState
               (Constants.initialStore 0) events))
     = false.
Proof.
  intros events. split; [reflexivity|].
  exact (proj1 (proj2 (proj2 (mobile_admin_gate (fun s => s) en
                                (Constants.initialStore 0) events []
                                MobileView.ClickBack)))
           eq_refl).
Defined.

(** *** The import against the words of its specification *)

Lemma whiteSpace_is_space (c : N) : whiteSpace c <-> JS.is_space c = true.
Proof.
  unfold whiteSpace, whiteSpaceUnits, JS.is_space. cbn [In].
  rewrite !orb_true_iff, !andb_true_iff, !N.leb_le, !N.eqb_eq. lia.
Qed.

Lemma whiteSpace_all (l : jsstring) :
  Forall whiteSpace l <-> forallb JS.is_space l = true.
Proof.
  rewrite forallb_forall, Forall_forall. split; intros H c Hc.
  - now apply whiteSpace_is_space, H.
  - now apply whiteSpace_is_space, H.
Qed.

Lemma not_in_freeOf (c : N) (s : jsstring) : ~ In c s <-> freeOf c s = true.
Proof.
  unfold freeOf. rewrite forallb_forall. split.
  - intros H x Hx. apply negb_true_iff, N.eqb_neq. intros ->. now apply H.
  - intros H Hc. specialize (H c Hc). now rewrite N.eqb_refl in H.
Qed.

(** The texts between the separators are what [split] returns. *)
Lemma cutAt_split (sep : N) (s : jsstring) (parts : list jsstring) :
  cutAt sep s parts <-> JS.split sep s = parts.
Proof.
  split.
  - induction 1 as [f Hf|f rest parts Hf _ IH].
    + now apply split_free, not_in_freeOf.
    + rewrite split_app_sep by now apply not_in_freeOf.
      now rewrite IH.
  - intros <-. induction s as [|c s IH].
    + apply cutAt_last. intros [].
    + simpl. destruct (c =? sep) eqn:E.
      * apply N.eqb_eq in E. subst c.
        apply (cutAt_next sep [] s); [intros []|exact IH].
      * apply N.eqb_neq in E. inversion IH as [f Hf E1 E2|f rest parts Hf Hr E1 E2].
        -- apply cutAt_last. intros [->|H]; [now apply E|contradiction].
        -- apply (cutAt_next sep (c :: f) rest parts); [|exact Hr].
           intros [->|H]; [now apply E|contradiction].
Qed.

Lemma trimStart_spaces (l u : jsstring) :
  forallb JS.is_space l = true -> JS.trimStart (l ++ u) = JS.trimStart u.
Proof.
  induction l as [|c l IH]; [reflexivity|]. simpl.
  intros H. apply andb_true_iff in H. destruct H as [-> Hl]. now apply IH.
Qed.

Lemma trimStart_fixed (u : jsstring) :
  firstNonSpace u = true -> JS.trimStart u = u.
Proof.
  destruct u as [|c u]; [reflexivity|]. simpl.
  intros H. apply negb_true_iff in H. now rewrite H.
Qed.

Lemma trimStart_parts (s : jsstring) :
  exists l, s = l ++ JS.trimStart s
            /\ forallb JS.is_space l = true
            /\ firstNonSpace (JS.trimStart s) = true.
Proof.
  induction s as [|c s (l & E & Hl & Hf)].
  - exists []. repeat split.
  - simpl. destruct (JS.is_space c) eqn:C.
    + exists (c :: l). simpl. rewrite C, Hl. split; [now f_equal|]. now split.
    + exists []. simpl. now rewrite C.
Qed.

(** The text without the white space around it is what [trim] returns. *)
Lemma trimmedTo_trim (s t : jsstring) : trimmedTo s t <-> JS.trim s = t.
Proof.
  split.
  - intros (l & r & -> & Hl & Hr & Hh & Hlast).
    apply whiteSpace_all in Hl, Hr.
    unfold JS.trim. rewrite (trimStart_spaces _ _ Hl).
    destruct t as [|c t'].
    + cbn [app]. now rewrite (trimStart_all_space _ Hr).
    + assert (C : JS.is_space c = false).
      { destruct (JS.is_space c) eqn:C; [|reflexivity].
        exfalso. apply (Hh c t' eq_refl). now apply whiteSpace_is_space. }
      cbn [app JS.trimStart]. rewrite C.
      unfold JS.trimEnd.
      change (c :: t' ++ r) with ((c :: t') ++ r).
      rewrite rev_app_distr, trimStart_spaces.
      * rewrite trimStart_fixed; [apply rev_involutive|].
        destruct (rev (c :: t')) as [|d w] eqn:R; [reflexivity|].
        simpl. apply negb_true_iff.
        destruct (JS.is_space d) eqn:D; [|reflexivity].
        exfalso. apply (Hlast (rev w) d).
        -- rewrite <- (rev_involutive (c :: t')), R. reflexivity.
        -- now apply whiteSpace_is_space.
      * rewrite forallb_forall in *. intros x Hx. apply Hr.
        now apply in_rev.
  - intros <-. unfold JS.trim.
    destruct (trimStart_parts s) as (l & E & Hl & Hf).
    set (x := JS.trimStart s) in *.
    destruct (trimStart_parts (rev x)) as (l' & E' & Hl' & Hf').
    assert (X : x = JS.trimEnd x ++ rev l').
    { unfold JS.trimEnd. rewrite <- rev_app_distr, <- E'.
      symmetry. apply rev_involutive. }
    exists l, (rev l'). split; [|split; [|split; [|split]]].
    + rewrite <- X. exact E.
    + now apply whiteSpace_all.
    + apply whiteSpace_all. rewrite forallb_forall in *. intros c Hc.
      apply Hl'. now apply in_rev.
    + intros c t' T W. rewrite T in X. rewrite X in Hf. simpl in Hf.
      apply whiteSpace_is_space in W. now rewrite W in Hf.
    + intros t' c T W. unfold JS.trimEnd in T.
      assert (R : JS.trimStart (rev x) = c :: rev t').
      { rewrite <- (rev_involutive (JS.trimStart (rev x))), T.
        now rewrite rev_unit. }
      rewrite R in Hf'. simpl in Hf'.
      apply whiteSpace_is_space in W. now rewrite W in Hf'.
Qed.

(** The text without its surrounding double quotes is what
    [replace(/^"|"$/g, '')] returns. *)
Lemma unquotedTo_stripQuotes (t u : jsstring) :
  unquotedTo t u <-> JS.stripQuotes t = u.
Proof.
  assert (L : forall t m,
             (t = 34 :: m \/ (t = m /\ forall t', t <> 34 :: t'))
             <-> JS.dropLeadingQuote t = m).
  { intros x m. split.
    - intros [->|[-> H]]; [reflexivity|].
      destruct m as [|c m]; [reflexivity|]. simpl.
      destruct (c =? JS.quote) eqn:E; [|reflexivity].
      apply N.eqb_eq in E. subst c. exfalso. now apply (H m).
    - intros <-. destruct x as [|c x]; simpl.
      + right. split; [reflexivity|]. discriminate.
      + destruct (c =? JS.quote) eqn:E.
        * apply N.eqb_eq in E. subst c. now left.
        * right. split; [reflexivity|]. intros t' T. injection T as -> _.
          discriminate. }
  assert (R : forall m u,
             (m = u ++ [34] \/ (m = u /\ forall u', u <> u' ++ [34]))
             <-> JS.dropTrailingQuote m = u).
  { intros m v. unfold JS.dropTrailingQuote. split.
    - intros H.
      assert (H' : rev m = 34 :: rev v
                   \/ (rev m = rev v /\ forall t', rev m <> 34 :: t')).
      { destruct H as [->|[-> H]]; [left; now rewrite rev_unit|right].
        split; [reflexivity|]. intros t' T. apply (H (rev t')).
        rewrite <- (rev_involutive v), T. reflexivity. }
      apply L in H'. rewrite H'. apply rev_involutive.
    - intros <-.
      destruct (proj2 (L (rev m) (JS.dropLeadingQuote (rev m))) eq_refl)
        as [E|[E H]].
      + left. rewrite <- (rev_involutive m) at 1. rewrite E. reflexivity.
      + right. rewrite <- E. split; [now rewrite rev_involutive|].
        rewrite rev_involutive. intros u' U. apply (H (rev u')).
        rewrite U. now rewrite rev_unit. }
  unfold unquotedTo, JS.stripQuotes. split.
  - intros (m & Hm & Hu). apply L in Hm. apply R in Hu. now subst.
  - intros <-. exists (JS.dropLeadingQuote t). split; [now apply L|now apply R].
Qed.

(** The cells of a line, as specified, are the cells the import reads. *)
Lemma cellsOf_rowCells (rawLine : jsstring) (cells : list jsstring) :
  cellsOf rawLine cells <-> rowCells rawLine = cells.
Proof.
  unfold cellsOf, rowCells. split.
  - intros (line & fields & Ht & Hc & Hf).
    apply trimmedTo_trim in Ht. apply cutAt_split in Hc. subst line.
    change (JS.split JS.comma (JS.trim rawLine) = fields) in Hc.
    rewrite Hc. clear Hc.
    induction Hf as [|f c fields cells (t & T & U) _ IH];
      [reflexivity|].
    apply trimmedTo_trim in T. apply unquotedTo_stripQuotes in U.
    cbn [map]. now rewrite T, U, IH.
  - intros <-. exists (JS.trim rawLine), (JS.split JS.comma (JS.trim rawLine)).
    split; [now apply trimmedTo_trim|]. split; [now apply cutAt_split|].
    induction (JS.split JS.comma (JS.trim rawLine)) as [|f l IH];
      constructor; [|exact IH].
    exists (JS.trim f). split; [now apply trimmedTo_trim|].
    now apply unquotedTo_stripQuotes.
Qed.

Lemma rows_cells (rows : list jsstring) (cells : list (list jsstring)) :
  Forall2 cellsOf rows cells <-> map rowCells rows = cells.
Proof.
  split.
  - induction 1 as [|r c rows cells H _ IH]; [reflexivity|].
    apply cellsOf_rowCells in H. cbn [map]. now rewrite H, IH.
  - intros <-. induction rows; constructor; [now apply cellsOf_rowCells|assumption].
Qed.

(** One step of the import loop, on the cells of the line. *)
Lemma importLine_cells (today : jsstring) (random : nat -> JS.Draw)
    (l : list Asset.t) (i : nat) (rawLine : jsstring) :
  AdminView.importLine today random (l, (2 * i)%nat) rawLine
  = if named (rowCells rawLine)
    then (l ++ [createdFrom today random i (rowCells rawLine)],
          (2 * S i)%nat)
    else (l, (2 * i)%nat).
Proof.
  unfold AdminView.importLine.
  destruct (JS.truthy (JS.trim rawLine)) eqn:T.
  - fold (rowCells rawLine).
    destruct (rowCells rawLine) as [|[|c cs] cells]; try reflexivity.
    cbn [nth_error named]. unfold createdFrom, cellOr. cbn [nth_error].
    replace (2 * S i)%nat with (S (S (2 * i))) by lia.
    reflexivity.
  - unfold rowCells. destruct (JS.trim rawLine); [|discriminate].
    reflexivity.
Qed.

Lemma importLines_cells (today : jsstring) (random : nat -> JS.Draw)
    (rows : list jsstring) (l : list Asset.t) (j : nat) :
  let accepted := filter named (map rowCells rows) in
  fold_left (AdminView.importLine today random) rows (l, (2 * j)%nat)
  = (l ++ map (fun ic => createdFrom today random (fst ic) (snd ic))
            (combine (seq j (length accepted)) accepted),
     (2 * (j + length accepted))%nat).
Proof.
  revert l j. induction rows as [|r rows IH]; intros l j; cbn zeta.
  - cbn [fold_left map filter length seq combine].
    now rewrite app_nil_r, Nat.add_0_r.
  - cbn [fold_left map filter]. rewrite importLine_cells.
    destruct (named (rowCells r)).
    + rewrite IH. cbn [length seq combine map fst snd].
      rewrite <- app_assoc. cbn [app]. f_equal. lia.
    + apply IH.
Qed.

(** The created assets, from the cells of the data rows. *)
Lemma parseCSV_cells (today : jsstring) (random : nat -> JS.Draw)
    (content : jsstring) :
  AdminView.parseCSV today random content
  = createdFromRows today random (map rowCells (dataRows content)).
Proof.
  unfold AdminView.parseCSV, createdFromRows, dataRows.
  change 0%nat with (2 * 0)%nat at 1.
  now rewrite importLines_cells.
Qed.

Lemma split_header (content : jsstring) :
  exists header rows, JS.split JS.newline content = header :: rows.
Proof.
  destruct content as [|c s]; [now exists [], []|]. simpl.
  destruct (c =? JS.newline); [now eexists; eexists|].
  destruct (JS.split JS.newline s); now eexists; eexists.
Qed.

(** C7: the import takes the first line for the header and reads every
    other line as a data row: the line without the white space around it,
    cut at its commas, every field without the white space around it and
    without its surrounding double quotes.  It creates, in row order, one
    asset per row whose name (the first cell) is not empty: the first four
    cells are name, category, model and serial number ('General',
    'Standard' and 'N/A' standing in for a missing or empty one), the id is
    drawn afresh, the status is Available without a holder, the purchase
    date is the import date, the image a placeholder.  Rows without a name
    are passed over without any effect on the other rows; the created
    assets are appended to the store and their number is reported (nothing
    is reported and the store is left alone when there is none).  Every
    text reads as a header and rows in this way.  The three rows of the
    example yield two assets. *)
Theorem import_creates_one_asset_per_named_row :
  (forall (st : App.Store) (today : jsstring) (random : nat -> JS.Draw)
          (content header : jsstring) (rows : list jsstring)
          (cells : list (list jsstring)),
     cutAt 10 content (header :: rows) ->
     Forall2 cellsOf rows cells ->
     let created := createdFromRows today random cells in
     AdminView.parseCSV today random content = created
     /\ length created = length (filter named cells)
     /\ AdminView.handleFileUpload st today random content
        = (if (0 <? length created)%nat
           then (App.mkStore (App.assets st ++ created) (App.transactions st),
                 Some (length created))
           else (st, None)))
  /\ (forall content : jsstring,
        exists header rows cells,
          cutAt 10 content (header :: rows) /\ Forall2 cellsOf rows cells)
  /\ (let content :=
        js "Name,Category,Model,Serial" ++ [JS.newline]
          ++ js "Drone X,Drone,V2,SN1" ++ [JS.newline]
          ++ js ",BadRow,," ++ [JS.newline]
          ++ js "Tablet Y,Tablet,T1,SN2" in
      forall today random,
        map fields4 (AdminView.parseCSV today random content)
        = [ (js "Drone X", js "Drone", js "V2", js "SN1");
            (js "Tablet Y", js "Tablet", js "T1", js "SN2") ]
        /\ map Asset.status (AdminView.parseCSV today random content)
           = [AVAILABLE; AVAILABLE]).
Proof.
  split; [|split].
  - intros st today random content header rows cells Hc Hr created.
    apply cutAt_split in Hc. apply rows_cells in Hr.
    assert (E : AdminView.parseCSV today random content = created).
    { rewrite parseCSV_cells. unfold dataRows.
      change (JS.split JS.newline content) with (JS.split 10 content).
      rewrite Hc. cbn [tl]. now rewrite Hr. }
    split; [exact E|]. split.
    + unfold created, createdFromRows.
      now rewrite length_map, length_combine, length_seq, Nat.min_id.
    + unfold AdminView.handleFileUpload. rewrite E.
      now destruct (0 <? length created)%nat.
  - intros content. destruct (split_header content) as (header & rows & E).
    exists header, rows, (map rowCells rows). split.
    + now apply cutAt_split.
    + now apply rows_cells.
  - intros content today random. rewrite parseCSV_cells.
    vm_compute. split; reflexivity.
Qed.

Lemma import_creates_one_asset_per_named_row_witness :
  let header := js "Name,Category,Model,Serial" in
  let rows :=
    [ js "  " ++ [JS.quote] ++ js "Drone X" ++ [JS.quote]
        ++ js " , Drone,V2,SN1 " ++ [13];
      js ",BadRow,,";
      [JS.quote] ++ js "Tablet Y" ++ [JS.quote] ] in
  let content := JS.join [JS.newline] (header :: rows) in
  let cells :=
    [ [js "Drone X"; js "Drone"; js "V2"; js "SN1"];
      [[]; js "BadRow"; []; []];
      [js "Tablet Y"] ] in
  let today := js "2026-01-01" in
  let random := fun _ : nat => JS.mkDraw (fun _ => 7) (js "0.5") in
  cutAt 10 content (header :: rows)
  /\ Forall2 cellsOf rows cells
  /\ AdminView.parseCSV today random content
     = createdFromRows today random cells
  /\ map fields4 (createdFromRows today random cells)
     = [ (js "Drone X", js "Drone", js "V2", js "SN1");
         (js "Tablet Y", js "General", js "Standard", js "N/A") ].
Proof.
  intros header rows content cells today random.
  assert (H1 : cutAt 10 content (header :: rows))
    by (apply cutAt_split; vm_compute; reflexivity).
  assert (H2 : Forall2 cellsOf rows cells)
    by (apply rows_cells; vm_compute; reflexivity).
  split; [exact H1|]. split; [exact H2|]. split.
  - exact (proj1 (proj1 import_creates_one_asset_per_named_row
                    (Constants.initialStore 0) today random content header
                    rows cells H1 H2)).
  - vm_compute. reflexivity.
Defined.

(** *** The platform: what [encodeURI] writes is what the reader gets *)

(** Decide the comparisons of the goal one by one, dropping the cases the
    hypotheses exclude. *)
Ltac tests :=
  repeat match goal with
         | |- context [N.leb ?a ?b] => destruct (N.leb_spec a b); try lia
         | |- context [N.ltb ?a ?b] => destruct (N.ltb_spec a b); try lia
         | |- context [N.eqb ?a ?b] => destruct (N.eqb_spec a b); try lia
         end.

(** Name quotient and remainder of a division by a constant. *)
Ltac divide x d :=
  pose proof (N.div_mod' x d);
  pose proof (N.mod_lt x d ltac:(discriminate));
  generalize dependent (x mod d); generalize dependent (x / d); intros.

Lemma unescaped_ascii (c : N) :
  URI.unescaped c = true -> c < 128 /\ c <> 37 /\ c < 0xD800.
Proof.
  unfold URI.unescaped. cbn [existsb]. rewrite orb_false_r.
  rewrite !orb_true_iff, !andb_true_iff, !N.leb_le, !N.eqb_eq. lia.
Qed.

Lemma hexValue_hexDigit (d : N) :
  d < 16 -> Browser.hexValue (URI.hexDigit d) = Some d.
Proof.
  intros H. unfold URI.hexDigit, Browser.hexValue. tests; cbn [andb]; f_equal; lia.
Qed.

Lemma hexDigit_no_hash (d : N) : d < 16 -> (URI.hexDigit d =? 35) = false.
Proof. intros H. unfold URI.hexDigit. tests; reflexivity. Qed.

Lemma percentDecode_percent (b : N) (rest : jsstring) :
  b < 256 ->
  Browser.percentDecode (URI.percent b ++ rest)
  = b :: Browser.percentDecode rest.
Proof.
  intros H. unfold URI.percent. cbn [app Browser.percentDecode].
  change (37 =? 37) with true. cbv iota.
  divide b 16.
  rewrite !hexValue_hexDigit by lia. f_equal. lia.
Qed.

Lemma withoutFragment_percent (b : N) (rest : jsstring) :
  b < 256 ->
  Browser.withoutFragment (URI.percent b ++ rest)
  = URI.percent b ++ Browser.withoutFragment rest.
Proof.
  intros H. unfold URI.percent. cbn [app Browser.withoutFragment].
  change (37 =? 35) with false. cbv iota.
  divide b 16.
  now rewrite !hexDigit_no_hash by lia.
Qed.

(** The body of escaped octets is these octets. *)
Lemma body_percent (octets : list N) (rest : jsstring) :
  Forall (fun b => b < 256) octets ->
  Browser.percentDecode
    (Browser.withoutFragment (flat_map URI.percent octets ++ rest))
  = octets ++ Browser.percentDecode (Browser.withoutFragment rest).
Proof.
  induction 1 as [|b octets Hb _ IH]; [reflexivity|].
  cbn [flat_map]. rewrite <- app_assoc.
  rewrite (withoutFragment_percent _ _ Hb), (percentDecode_percent _ _ Hb).
  cbn [app]. now rewrite IH.
Qed.

(** The body of an unescaped unit other than [#] is that unit. *)
Lemma body_unescaped (c : N) (rest : jsstring) :
  URI.unescaped c = true -> c <> 35 ->
  Browser.percentDecode (Browser.withoutFragment (c :: rest))
  = c :: Browser.percentDecode (Browser.withoutFragment rest).
Proof.
  intros U H. apply unescaped_ascii in U.
  cbn [Browser.withoutFragment]. tests.
  cbn [Browser.percentDecode]. tests. reflexivity.
Qed.

(** The octets of a code point that is no surrogate are read back as that
    code point. *)
Lemma utf8_octets (cp : N) :
  cp < 0x110000 -> Forall (fun b => b < 256) (URI.utf8 cp).
Proof.
  intros H. unfold URI.utf8.
  divide (cp / 64 / 64) 64. divide (cp / 64) 64. divide cp 64.
  tests; repeat constructor; lia.
Qed.

Lemma decode_utf8 (cp : N) (rest : list N) :
  cp < 0x110000 -> ~ (0xD800 <= cp <= 0xDFFF) ->
  FileReader.decode FileReader.Idle (URI.utf8 cp ++ rest)
  = cp :: FileReader.decode FileReader.Idle rest.
Proof.
  intros H S. unfold URI.utf8.
  divide (cp / 64 / 64) 64. divide (cp / 64) 64. divide cp 64.
  tests; cbn [app FileReader.decode]; unfold FileReader.lead; tests;
    cbn [fst snd app FileReader.decode andb]; tests;
    cbn [fst snd app FileReader.decode andb]; tests;
    cbn [fst snd app FileReader.decode andb]; tests;
    cbn [fst snd app FileReader.decode andb]; f_equal; lia.
Qed.

Lemma wellFormed_cases (P : jsstring -> Prop) :
  P [] ->
  (forall c s, URI.isHighSurrogate c = false -> URI.isLowSurrogate c = false ->
               URI.wellFormed s = true -> P s -> P (c :: s)) ->
  (forall h l s, URI.isHighSurrogate h = true -> URI.isLowSurrogate l = true ->
                 URI.wellFormed s = true -> P s -> P (h :: l :: s)) ->
  forall s, URI.wellFormed s = true -> P s.
Proof.
  intros P0 P1 P2 s.
  assert (G : forall n s, (length s <= n)%nat -> URI.wellFormed s = true -> P s).
  { clear s. induction n as [|n IH]; intros [|c s] L W; try exact P0.
    - simpl in L. lia.
    - simpl in L. cbn [URI.wellFormed] in W.
      destruct (URI.isHighSurrogate c) eqn:Hc.
      + destruct s as [|d s]; [discriminate|].
        apply andb_true_iff in W. destruct W as [Hd W].
        apply P2; try assumption. apply IH; [simpl in L; lia|exact W].
      + apply andb_true_iff in W. destruct W as [Hl W].
        apply negb_true_iff in Hl.
        apply P1; try assumption. apply IH; [lia|exact W]. }
  exact (G (length s) s (le_n _)).
Qed.

Lemma wellFormed_app (s u : jsstring) :
  URI.wellFormed s = true -> URI.wellFormed u = true ->
  URI.wellFormed (s ++ u) = true.
Proof.
  intros Hs Hu. revert s Hs.
  apply (wellFormed_cases (fun s => URI.wellFormed (s ++ u) = true)).
  - exact Hu.
  - intros c s Hh Hl _ IH. cbn [app URI.wellFormed]. now rewrite Hh, Hl, IH.
  - intros h l s Hh Hl _ IH. cbn [app URI.wellFormed]. now rewrite Hh, Hl, IH.
Qed.

Lemma surrogate_tests (c : N) :
  (URI.isHighSurrogate c = true <-> 0xD800 <= c <= 0xDBFF)
  /\ (URI.isLowSurrogate c = true <-> 0xDC00 <= c <= 0xDFFF).
Proof.
  unfold URI.isHighSurrogate, URI.isLowSurrogate.
  rewrite !andb_true_iff, !N.leb_le. tauto.
Qed.

Lemma surrogate_false (c : N) :
  URI.isHighSurrogate c = false -> URI.isLowSurrogate c = false ->
  ~ (0xD800 <= c <= 0xDFFF).
Proof.
  intros Hh Hl R.
  destruct (N.le_gt_cases c 0xDBFF) as [L|L].
  - assert (X : URI.isHighSurrogate c = true)
      by (apply surrogate_tests; lia). congruence.
  - assert (X : URI.isLowSurrogate c = true)
      by (apply surrogate_tests; lia). congruence.
Qed.

(** The code point of a pair is read back as the pair. *)
Lemma units_pair (h l : N) :
  URI.isHighSurrogate h = true -> URI.isLowSurrogate l = true ->
  let cp := URI.pairCodePoint h l in
  cp < 0x110000 /\ ~ (0xD800 <= cp <= 0xDFFF)
  /\ FileReader.units cp = [h; l].
Proof.
  intros Hh Hl. apply surrogate_tests in Hh. apply surrogate_tests in Hl.
  unfold URI.pairCodePoint, FileReader.units. cbn zeta.
  split; [lia|]. split; [lia|].
  tests.
  replace (65536 + (h - 55296) * 1024 + (l - 56320) - 65536)
    with ((l - 56320) + (h - 55296) * 1024) by lia.
  rewrite N.div_add by discriminate. rewrite N.Div0.mod_add.
  rewrite N.div_small, N.mod_small by lia. f_equal; [lia|f_equal; lia].
Qed.

Lemma encodeURI_unescaped (c : N) (s : jsstring) :
  URI.unescaped c = true ->
  URI.encodeURI (c :: s) = option_map (cons c) (URI.encodeURI s).
Proof. intros U. cbn [URI.encodeURI]. now rewrite U. Qed.

Lemma encodeURI_escaped (c : N) (s : jsstring) :
  URI.unescaped c = false ->
  URI.isHighSurrogate c = false -> URI.isLowSurrogate c = false ->
  URI.encodeURI (c :: s)
  = option_map (app (flat_map URI.percent (URI.utf8 c))) (URI.encodeURI s).
Proof. intros U Hh Hl. cbn [URI.encodeURI]. now rewrite U, Hh, Hl. Qed.

Lemma encodeURI_pair (h l : N) (s : jsstring) :
  URI.isHighSurrogate h = true -> URI.isLowSurrogate l = true ->
  URI.encodeURI (h :: l :: s)
  = option_map (app (flat_map URI.percent (URI.utf8 (URI.pairCodePoint h l))))
      (URI.encodeURI s).
Proof.
  intros Hh Hl. cbn [URI.encodeURI].
  assert (U : URI.unescaped h = false).
  { destruct (URI.unescaped h) eqn:U; [|reflexivity].
    apply unescaped_ascii in U. apply surrogate_tests in Hh. lia. }
  assert (L : URI.isLowSurrogate h = false).
  { destruct (URI.isLowSurrogate h) eqn:L; [|reflexivity].
    apply surrogate_tests in Hh. apply surrogate_tests in L. lia. }
  now rewrite U, L, Hh, Hl.
Qed.

Lemma beforeFirst_free (c : N) (s : jsstring) :
  freeOf c s = true -> beforeFirst c s = s.
Proof.
  unfold freeOf. induction s as [|x s IH]; [reflexivity|].
  cbn [forallb beforeFirst]. intros H. apply andb_true_iff in H.
  destruct H as [Hx Hs]. apply negb_true_iff in Hx. now rewrite Hx, IH.
Qed.

(** What is encoded, saved and decoded again is read as it was written,
    up to the first [#], when it holds no surrogate without its
    partner. *)
Lemma encode_then_decode (s : jsstring) :
  URI.wellFormed s = true ->
  codeUnits s = true ->
  exists h,
    URI.encodeURI s = Some h
    /\ FileReader.utf8Decode
         (Browser.percentDecode (Browser.withoutFragment h))
       = beforeFirst 35 s.
Proof.
  intros W. revert s W.
  apply (wellFormed_cases
           (fun s =>
              codeUnits s = true ->
              exists h,
                URI.encodeURI s = Some h
                /\ FileReader.utf8Decode
                     (Browser.percentDecode (Browser.withoutFragment h))
                   = beforeFirst 35 s)).
  - intros _. exists []. split; reflexivity.
  - intros c s Hh Hl _ IH B.
    unfold codeUnits in B. cbn [forallb] in B. apply andb_true_iff in B.
    destruct B as [Bc B]. apply N.ltb_lt in Bc.
    destruct (IH B) as (h & E & D).
    pose proof (surrogate_false c Hh Hl) as S.
    cbn [beforeFirst].
    destruct (URI.unescaped c) eqn:U.
    + exists (c :: h). rewrite (encodeURI_unescaped _ _ U), E.
      split; [reflexivity|].
      destruct (N.eqb_spec c 35) as [->|Fc]; [reflexivity|].
      rewrite (body_unescaped _ _ U Fc).
      apply unescaped_ascii in U.
      unfold FileReader.utf8Decode in *. cbn [FileReader.decode].
      unfold FileReader.lead. tests. cbn [fst snd app flat_map].
      rewrite D. unfold FileReader.units. tests. reflexivity.
    + exists (flat_map URI.percent (URI.utf8 c) ++ h).
      rewrite (encodeURI_escaped _ _ U Hh Hl), E.
      split; [reflexivity|].
      destruct (N.eqb_spec c 35) as [->|Fc]; [discriminate U|].
      rewrite body_percent by (apply utf8_octets; lia).
      unfold FileReader.utf8Decode in *.
      rewrite decode_utf8 by (try exact S; lia).
      cbn [flat_map]. rewrite D. unfold FileReader.units. tests. reflexivity.
  - intros h l s Hh Hl _ IH B.
    unfold codeUnits in B. cbn [forallb] in B. apply andb_true_iff in B.
    destruct B as [_ B]. apply andb_true_iff in B. destruct B as [_ B].
    destruct (IH B) as (x & E & D).
    destruct (units_pair h l Hh Hl) as (R1 & R2 & R3).
    exists (flat_map URI.percent (URI.utf8 (URI.pairCodePoint h l)) ++ x).
    rewrite (encodeURI_pair _ _ _ Hh Hl), E. split; [reflexivity|].
    rewrite body_percent by (now apply utf8_octets).
    unfold FileReader.utf8Decode in *.
    rewrite decode_utf8 by assumption.
    cbn [flat_map]. rewrite D, R3.
    apply surrogate_tests in Hh. apply surrogate_tests in Hl.
    cbn [beforeFirst app]. tests. reflexivity.
Qed.

(** [encodeURI] throws on a text with a surrogate without its partner. *)
Lemma encodeURI_throws (s : jsstring) :
  URI.wellFormed s = false -> URI.encodeURI s = None.
Proof.
  assert (G : forall n s, (length s <= n)%nat ->
                          URI.wellFormed s = false -> URI.encodeURI s = None).
  { clear s. induction n as [|n IH]; intros [|c s] L W; try discriminate.
    - simpl in L. lia.
    - simpl in L. cbn [URI.wellFormed] in W. cbn [URI.encodeURI].
      destruct (URI.unescaped c) eqn:U.
      + apply unescaped_ascii in U.
        assert (Hh : URI.isHighSurrogate c = false).
        { destruct (URI.isHighSurrogate c) eqn:X; [|reflexivity].
          apply surrogate_tests in X. lia. }
        assert (Hl : URI.isLowSurrogate c = false).
        { destruct (URI.isLowSurrogate c) eqn:X; [|reflexivity].
          apply surrogate_tests in X. lia. }
        rewrite Hh, Hl in W. cbn [negb andb] in W.
        rewrite IH; [reflexivity|lia|exact W].
      + destruct (URI.isLowSurrogate c) eqn:Hl; [reflexivity|].
        destruct (URI.isHighSurrogate c) eqn:Hh.
        * destruct s as [|d s]; [reflexivity|].
          destruct (URI.isLowSurrogate d); [|reflexivity].
          cbn [andb] in W. rewrite IH; [reflexivity|simpl in L; lia|exact W].
        * cbn [negb andb] in W. rewrite IH; [reflexivity|lia|exact W]. }
  exact (G (length s) s (le_n _)).
Qed.

Lemma encodeURI_unescaped_app (p s : jsstring) :
  forallb URI.unescaped p = true ->
  URI.encodeURI (p ++ s) = option_map (app p) (URI.encodeURI s).
Proof.
  induction p as [|c p IH]; intros H.
  - cbn [app]. now destruct (URI.encodeURI s).
  - cbn [forallb] in H. apply andb_true_iff in H. destruct H as [Hc Hp].
    cbn [app]. rewrite (encodeURI_unescaped _ _ Hc), (IH Hp).
    now destruct (URI.encodeURI s).
Qed.

Lemma startsWith_app (p s : jsstring) : JSText.startsWith (p ++ s) p = true.
Proof.
  induction p as [|c p IH]; [now destruct s|].
  cbn [app JSText.startsWith]. now rewrite N.eqb_refl, IH.
Qed.

Lemma skipn_prefix {A : Type} (p s : list A) : skipn (length p) (p ++ s) = s.
Proof. induction p as [|c p IH]; [reflexivity|exact IH]. Qed.

Lemma wellFormed_unescaped_app (p s : jsstring) :
  forallb URI.unescaped p = true ->
  URI.wellFormed (p ++ s) = URI.wellFormed s.
Proof.
  induction p as [|c p IH]; intros H; [reflexivity|].
  cbn [forallb] in H. apply andb_true_iff in H. destruct H as [Hc Hp].
  apply unescaped_ascii in Hc.
  cbn [app URI.wellFormed].
  assert (Hh : URI.isHighSurrogate c = false).
  { destruct (URI.isHighSurrogate c) eqn:X; [|reflexivity].
    apply surrogate_tests in X. lia. }
  assert (Hl : URI.isLowSurrogate c = false).
  { destruct (URI.isLowSurrogate c) eqn:X; [|reflexivity].
    apply surrogate_tests in X. lia. }
  rewrite Hh, Hl. cbn [negb andb]. now apply IH.
Qed.

Lemma percent_ascii (octets : list N) :
  Forall (fun b => b < 256) octets ->
  Forall (fun c => c < 128) (flat_map URI.percent octets).
Proof.
  induction 1 as [|b octets Hb _ IH]; [constructor|].
  cbn [flat_map]. apply Forall_app. split; [|exact IH].
  unfold URI.percent, URI.hexDigit. divide b 16.
  repeat constructor; tests; lia.
Qed.

(** What [encodeURI] returns holds ASCII units only. *)
Lemma encodeURI_ascii (s h : jsstring) :
  codeUnits s = true -> URI.encodeURI s = Some h ->
  Forall (fun c => c < 128) h.
Proof.
  assert (G : forall n s h, (length s <= n)%nat -> codeUnits s = true ->
                            URI.encodeURI s = Some h ->
                            Forall (fun c => c < 128) h).
  { clear s h. induction n as [|n IH]; intros [|c s] h L B E;
      try (injection E as <-; constructor).
    - simpl in L. lia.
    - simpl in L. unfold codeUnits in B. cbn [forallb] in B.
      apply andb_true_iff in B. destruct B as [Bc B]. apply N.ltb_lt in Bc.
      cbn [URI.encodeURI] in E.
      destruct (URI.unescaped c) eqn:U.
      + destruct (URI.encodeURI s) as [h'|] eqn:E'; [|discriminate].
        injection E as <-. constructor.
        * now apply unescaped_ascii in U.
        * apply (IH s); [lia|exact B|exact E'].
      + destruct (URI.isLowSurrogate c) eqn:Hl; [discriminate|].
        destruct (URI.isHighSurrogate c) eqn:Hh.
        * destruct s as [|d s]; [discriminate|].
          destruct (URI.isLowSurrogate d) eqn:Hd; [|discriminate].
          destruct (URI.encodeURI s) as [h'|] eqn:E'; [|discriminate].
          injection E as <-. apply Forall_app. split.
          -- apply percent_ascii, utf8_octets.
             now apply (units_pair c d Hh Hd).
          -- cbn [forallb] in B. apply andb_true_iff in B.
             apply (IH s); [simpl in L; lia|apply B|exact E'].
        * destruct (URI.encodeURI s) as [h'|] eqn:E'; [|discriminate].
          injection E as <-. apply Forall_app. split.
          -- apply percent_ascii, utf8_octets. lia.
          -- apply (IH s); [lia|exact B|exact E']. }
  intros B E. exact (G (length s) s h (le_n _) B E).
Qed.

(** The file of an export: the link made for a text without a surrogate
    lacking its partner holds ASCII units only and is saved as the
    byte-order mark followed by octets that are read back as that text up
    to its first [#]. *)
Lemma exported_file (text : jsstring) :
  URI.wellFormed text = true ->
  codeUnits text = true ->
  exists href octets,
    URI.encodeURI (AdminView.dataUriPrefix ++ AdminView.BOM :: text)
    = Some href
    /\ Forall (fun c => c < 128) href
    /\ Browser.savedFile href = Some (utf8Mark ++ octets)
    /\ FileReader.readAsText (utf8Mark ++ octets)
       = Some (beforeFirst 35 text).
Proof.
  intros W B. destruct (encode_then_decode text W B) as (h & E & D).
  exists (AdminView.dataUriPrefix ++ flat_map URI.percent utf8Mark ++ h),
    (Browser.percentDecode (Browser.withoutFragment h)).
  assert (X : URI.encodeURI (AdminView.dataUriPrefix ++ AdminView.BOM :: text)
              = Some (AdminView.dataUriPrefix
                        ++ flat_map URI.percent utf8Mark ++ h)).
  { rewrite encodeURI_unescaped_app by reflexivity.
    rewrite encodeURI_escaped by reflexivity.
    rewrite E. reflexivity. }
  split; [exact X|]. split; [|split].
  - apply (encodeURI_ascii (AdminView.dataUriPrefix ++ AdminView.BOM :: text));
      [|exact X].
    unfold codeUnits in *. rewrite forallb_app. cbn [forallb].
    now rewrite B.
  - unfold Browser.savedFile.
    change Browser.csvDataUrlPrefix with AdminView.dataUriPrefix.
    rewrite startsWith_app, skipn_prefix.
    rewrite body_percent; [reflexivity|].
    unfold utf8Mark. repeat constructor.
  - unfold utf8Mark. cbn [app FileReader.readAsText]. now rewrite D.
Qed.

(** *** CSV export: the written text *)

Lemma plain_split (s : jsstring) :
  plain s = true -> freeOf JS.comma s = true /\ freeOf JS.newline s = true.
Proof. unfold plain. apply andb_true_iff. Qed.

Lemma forallb_plain (l : list jsstring) :
  forallb plain l = true ->
  forallb (freeOf JS.comma) l = true /\ forallb (freeOf JS.newline) l = true.
Proof.
  intros H. rewrite forallb_forall in H.
  split; apply forallb_forall; intros x Hx; now apply plain_split, H.
Qed.

Lemma clean_split (s : jsstring) :
  clean s = true -> plain s = true /\ encodable s = true.
Proof. unfold clean. apply andb_true_iff. Qed.

Lemma forallb_clean (l : list jsstring) :
  forallb clean l = true ->
  forallb plain l = true /\ forallb encodable l = true.
Proof.
  intros H. rewrite forallb_forall in H.
  split; apply forallb_forall; intros x Hx; now apply clean_split, H.
Qed.

Lemma encodable_app (s u : jsstring) :
  encodable s = true -> encodable u = true -> encodable (s ++ u) = true.
Proof.
  unfold encodable, codeUnits. rewrite !andb_true_iff.
  intros ((W1 & C1) & F1) ((W2 & C2) & F2).
  rewrite forallb_app, freeOf_app, C1, C2, F1, F2.
  now rewrite wellFormed_app.
Qed.

(** A text joined from encodable texts by an encodable separator. *)
Lemma encodable_join (sep : jsstring) (l : list jsstring) :
  encodable sep = true -> forallb encodable l = true ->
  encodable (JS.join sep l) = true.
Proof.
  intros Hs. induction l as [|x l IH]; intros H; [reflexivity|].
  cbn [forallb] in H. apply andb_true_iff in H. destruct H as [Hx Hl].
  destruct l as [|y l]; [exact Hx|].
  rewrite join_cons. apply encodable_app; [exact Hx|].
  apply encodable_app; [exact Hs|now apply IH].
Qed.








Lemma exportRow_length (inheritedText : jsstring -> jsstring)
    (featureHeaders : list jsstring) (a : Asset.t) (lang : Lang) :
  length (AdminView.exportRow inheritedText featureHeaders a)
  = length (AdminView.exportHeaders lang featureHeaders).
Proof.
  unfold AdminView.exportRow, AdminView.exportHeaders.
  now rewrite !length_app, length_map.
Qed.

Lemma exportHeaders_fixed_clean (lang : Lang) :
  forallb clean (AdminView.exportHeaders lang []) = true.
Proof. destruct lang; vm_compute; reflexivity. Qed.

(** The header line is free of line breaks and encodable when the column
    names are. *)
Lemma headerLine_fit (lang : Lang) (featureHeaders : list jsstring) :
  forallb (freeOf JS.newline) featureHeaders = true ->
  forallb encodable featureHeaders = true ->
  freeOf JS.newline (JS.join [JS.comma] (AdminView.exportHeaders lang featureHeaders))
  = true
  /\ encodable (JS.join [JS.comma] (AdminView.exportHeaders lang featureHeaders))
     = true.
Proof.
  intros Hn He.
  pose proof (exportHeaders_fixed_clean lang) as F.
  apply forallb_clean in F. destruct F as [Fp Fe].
  apply forallb_plain in Fp. destruct Fp as [_ Fn].
  unfold AdminView.exportHeaders in *. rewrite app_nil_r in Fn, Fe.
  split.
  - apply freeOf_join; [reflexivity|]. rewrite forallb_app.
    now rewrite Fn, Hn.
  - apply encodable_join; [reflexivity|]. rewrite forallb_app.
    now rewrite Fe, He.
Qed.

(** The written text is encodable and falls into the header line and the
    lines of the assets when the cells are clean. *)
Lemma csvText_fit (lang : Lang) (inheritedText : jsstring -> jsstring)
    (featureHeaders : list jsstring) (filteredAssets : list Asset.t) :
  forallb (freeOf JS.newline) featureHeaders = true ->
  forallb encodable featureHeaders = true ->
  (forall a, In a filteredAssets ->
             forallb clean (AdminView.exportRow inheritedText featureHeaders a)
             = true) ->
  filteredAssets <> [] ->
  let text := csvText lang inheritedText featureHeaders filteredAssets in
  encodable text = true
  /\ JS.split JS.newline text
     = JS.join [JS.comma] (AdminView.exportHeaders lang featureHeaders)
       :: map (exportLine inheritedText featureHeaders) filteredAssets.
Proof.
  intros Hn He Hrows Hne text.
  destruct (headerLine_fit lang featureHeaders Hn He) as [Hh1 Hh2].
  assert (Ln : forallb (freeOf JS.newline)
                 (map (exportLine inheritedText featureHeaders) filteredAssets)
               = true).
  { apply forallb_forall. intros r Hr. apply in_map_iff in Hr.
    destruct Hr as (a & <- & Ha). apply freeOf_join; [reflexivity|].
    now apply forallb_plain, forallb_clean, Hrows. }
  assert (Le : forallb encodable
                 (map (exportLine inheritedText featureHeaders) filteredAssets)
               = true).
  { apply forallb_forall. intros r Hr. apply in_map_iff in Hr.
    destruct Hr as (a & <- & Ha). apply encodable_join; [reflexivity|].
    now apply forallb_clean, Hrows. }
  unfold text, csvText. split.
  - apply encodable_app; [exact Hh2|]. apply encodable_app; [reflexivity|].
    now apply encodable_join.
  - cbn [app]. rewrite (split_app_sep _ _ _ Hh1). f_equal.
    apply split_join; [|exact Ln].
    destruct filteredAssets; [contradiction|discriminate].
Qed.

Lemma encodable_split (s : jsstring) :
  encodable s = true ->
  URI.wellFormed s = true /\ codeUnits s = true /\ freeOf 35 s = true.
Proof. unfold encodable. rewrite !andb_true_iff. tauto. Qed.

Lemma csvBody_text (lang : Lang) (inheritedText : jsstring -> jsstring)
    (featureHeaders : list jsstring) (filteredAssets : list Asset.t) :
  AdminView.csvBody lang inheritedText featureHeaders filteredAssets
  = AdminView.BOM :: csvText lang inheritedText featureHeaders filteredAssets.
Proof. reflexivity. Qed.

(** What [handleExportCSV] does for a view that is not empty. *)
Lemma handleExportCSV_shown (lang : Lang) (inheritedText : jsstring -> jsstring)
    (isoNow : jsstring) (assets filteredAssets : list Asset.t) :
  filteredAssets <> [] ->
  AdminView.handleExportCSV lang inheritedText isoNow assets filteredAssets
  = match URI.encodeURI
            (AdminView.dataUriPrefix
               ++ AdminView.BOM
                  :: csvText lang inheritedText
                       (AdminView.getAllCustomFeatureKeys assets)
                       filteredAssets) with
    | Some encodedUri =>
        AdminView.LinkClicked encodedUri
          (js "assets_export_" ++ firstn 10 isoNow ++ js ".csv")
    | None => AdminView.URIErrorThrown
    end.
Proof. intros H. destruct filteredAssets; [contradiction|reflexivity]. Qed.

(** *** Export followed by import *)











(** *** The exported file as a table *)

(** X13: nothing is exported for an empty view.  For a view that is not
    empty, an export whose text (header line and asset lines) holds a
    surrogate without its partner throws a URIError and no link is
    clicked; otherwise a link is clicked, and the file saved for it is
    the byte-order mark followed by the text up to its first [#], what
    follows being lost.  When the column names and the written cells hold
    no comma, no line break, no [#] and no surrogate without its partner,
    the saved file is a rectangular table: read back as text and cut at
    line breaks and then at commas, it gives the column names and then
    the cells of every asset shown, each row with as many cells as there
    are columns. *)
Theorem export_text_is_the_table (lang : Lang)
    (inheritedText : jsstring -> jsstring) (isoNow : jsstring)
    (assets filteredAssets : list Asset.t) :
  let columns := AdminView.getAllCustomFeatureKeys assets in
  AdminView.handleExportCSV lang inheritedText isoNow assets []
  = AdminView.NothingExported
  /\ (filteredAssets <> [] ->
      URI.wellFormed (csvText lang inheritedText columns filteredAssets)
      = false ->
      AdminView.handleExportCSV lang inheritedText isoNow assets filteredAssets
      = AdminView.URIErrorThrown)
  /\ (filteredAssets <> [] ->
      URI.wellFormed (csvText lang inheritedText columns filteredAssets)
      = true ->
      codeUnits (csvText lang inheritedText columns filteredAssets) = true ->
      exists href octets,
        AdminView.handleExportCSV lang inheritedText isoNow assets
          filteredAssets
        = AdminView.LinkClicked href
            (js "assets_export_" ++ firstn 10 isoNow ++ js ".csv")
        /\ Forall (fun c => c < 128) href
        /\ Browser.savedFile href = Some (utf8Mark ++ octets)
        /\ FileReader.readAsText (utf8Mark ++ octets)
           = Some (beforeFirst 35
                     (csvText lang inheritedText columns filteredAssets)))
  /\ (filteredAssets <> [] ->
      forallb clean columns = true ->
      (forall a, In a filteredAssets ->
                 forallb clean (AdminView.exportRow inheritedText columns a)
                 = true) ->
      exists href octets content header rows,
        AdminView.handleExportCSV lang inheritedText isoNow assets
          filteredAssets
        = AdminView.LinkClicked href
            (js "assets_export_" ++ firstn 10 isoNow ++ js ".csv")
        /\ Browser.savedFile href = Some (utf8Mark ++ octets)
        /\ FileReader.readAsText (utf8Mark ++ octets) = Some content
        /\ JS.split JS.newline content = header :: rows
        /\ JS.split JS.comma header = AdminView.exportHeaders lang columns
        /\ map (JS.split JS.comma) rows
           = map (AdminView.exportRow inheritedText columns) filteredAssets
        /\ Forall (fun cells =>
                     length cells
                     = length (AdminView.exportHeaders lang columns))
             (map (JS.split JS.comma) rows)).
Proof.
  intros columns. split; [reflexivity|]. split; [|split].
  - intros Hne W. rewrite (handleExportCSV_shown _ _ _ _ _ Hne). fold columns.
    rewrite encodeURI_throws; [reflexivity|].
    rewrite wellFormed_unescaped_app by reflexivity.
    cbn [URI.wellFormed]. exact W.
  - intros Hne W C.
    destruct (exported_file _ W C) as (href & octets & E & A & Sv & R).
    exists href, octets. split; [|split; [|split]]; try assumption.
    rewrite (handleExportCSV_shown _ _ _ _ _ Hne). fold columns.
    now rewrite E.
  - intros Hne Hcols Hrows.
    destruct (forallb_clean _ Hcols) as [Cp Ce].
    destruct (forallb_plain _ Cp) as [Cc Cn].
    destruct (csvText_fit lang inheritedText columns filteredAssets Cn Ce
                Hrows Hne) as [Fit Lines].
    apply encodable_split in Fit. destruct Fit as (W & C & F).
    destruct (exported_file _ W C) as (href & octets & E & _ & Sv & R).
  rewrite (beforeFirst_free _ _ F) in R.
    exists href, octets, (csvText lang inheritedText columns filteredAssets),
      (JS.join [JS.comma] (AdminView.exportHeaders lang columns)),
      (map (exportLine inheritedText columns) filteredAssets).
    split; [|split; [exact Sv|split; [exact R|split; [exact Lines|]]]].
    + rewrite (handleExportCSV_shown _ _ _ _ _ Hne). fold columns.
      now rewrite E.
    + assert (Cells : forall a, In a filteredAssets ->
                        JS.split JS.comma (exportLine inheritedText columns a)
                        = AdminView.exportRow inheritedText columns a).
      { intros a Ha. unfold exportLine. apply split_join.
        - unfold AdminView.exportRow. discriminate.
        - now apply forallb_plain, forallb_clean, Hrows. }
      split; [|split].
      * apply split_join.
        -- unfold AdminView.exportHeaders. discriminate.
        -- pose proof (exportHeaders_fixed_clean lang) as X.
           apply forallb_clean in X. destruct X as [X _].
           apply forallb_plain in X. destruct X as [X _].
           unfold AdminView.exportHeaders in *. rewrite app_nil_r in X.
           rewrite forallb_app. now rewrite X, Cc.
      * rewrite map_map. now apply map_ext_in.
      * apply Forall_forall. intros cells Hc. rewrite map_map in Hc.
        apply in_map_iff in Hc. destruct Hc as (a & <- & Ha).
        rewrite (Cells a Ha). apply exportRow_length.
Qed.

Lemma export_text_is_the_table_witness :
  let inheritedText := fun _ : jsstring => js "function () { [native code] }" in
  let isoNow := js "2026-01-01T08:00:00.000Z" in
  let columns := AdminView.getAllCustomFeatureKeys Constants.MOCK_ASSETS in
  Constants.MOCK_ASSETS <> []
  /\ forallb clean columns = true
  /\ (forall a, In a Constants.MOCK_ASSETS ->
        forallb clean (AdminView.exportRow inheritedText columns a) = true)
  /\ exists href octets content header rows,
       AdminView.handleExportCSV en inheritedText isoNow Constants.MOCK_ASSETS
         Constants.MOCK_ASSETS
       = AdminView.LinkClicked href (js "assets_export_2026-01-01.csv")
       /\ Browser.savedFile href = Some (utf8Mark ++ octets)
       /\ FileReader.readAsText (utf8Mark ++ octets) = Some content
       /\ JS.split JS.newline content = header :: rows
       /\ JS.split JS.comma header = AdminView.exportHeaders en columns
       /\ map (JS.split JS.comma) rows
          = map (AdminView.exportRow inheritedText columns)
              Constants.MOCK_ASSETS
       /\ Forall (fun cells =>
                    length cells
                    = length (AdminView.exportHeaders en columns))
            (map (JS.split JS.comma) rows).
Proof.
  intros inheritedText isoNow columns.
  assert (H1 : Constants.MOCK_ASSETS <> []) by discriminate.
  assert (H2 : forallb clean columns = true) by (vm_compute; reflexivity).
  assert (H3 : forall a, In a Constants.MOCK_ASSETS ->
                 forallb clean (AdminView.exportRow inheritedText columns a)
                 = true).
  { intros a Ha. unfold Constants.MOCK_ASSETS in Ha. cbn [In] in Ha.
    repeat (destruct Ha as [<-|Ha]; [vm_compute; reflexivity|]).
    destruct Ha. }
  split; [exact H1|]. split; [exact H2|]. split; [exact H3|].
  exact (proj2 (proj2 (proj2 (export_text_is_the_table en inheritedText
                                isoNow Constants.MOCK_ASSETS
                                Constants.MOCK_ASSETS)))
           H1 H2 H3).
Defined.

(** *** The export on texts that do not come through *)

(** The seed laptop, renamed and given an own feature [constructor], and
    the seed camera, exported in English: with the name [A#1] the saved
    file ends before the [#]; with a name that is one high surrogate the
    export throws; the camera, which has no own feature [constructor],
    gets the engine's text of the inherited member in that column. *)
Lemma export_of_hash_surrogate_and_inherited_member :
  let inheritedText := fun _ : jsstring => js "function Object() { [native code] }" in
  let isoNow := js "2026-01-01T08:00:00.000Z" in
  let laptop name :=
    Asset.mk (js "AST-001") name (js "Laptop") (js "M3 Max") (js "FVFX1234K9")
      (js "2024-01-15") AVAILABLE None [] [] None
      (Some [(js "constructor", js "Apple")]) in
  (exists href download file content,
     AdminView.handleExportCSV en inheritedText isoNow [laptop (js "A#1")]
       [laptop (js "A#1")]
     = AdminView.LinkClicked href download
     /\ Browser.savedFile href = Some file
     /\ FileReader.readAsText file = Some content
     /\ content
        = js "ID,Asset Name,Category,Model,SN,Status,Holder,Date,Desc,constructor"
            ++ [JS.newline] ++ js "AST-001," ++ [JS.quote] ++ js "A")
  /\ AdminView.handleExportCSV en inheritedText isoNow [laptop [0xD83D]]
       [laptop [0xD83D]]
     = AdminView.URIErrorThrown
  /\ nth 11
       (AdminView.exportRow inheritedText
          (AdminView.getAllCustomFeatureKeys
             [laptop (js "A"); seedAsset 1])
          (seedAsset 1)) []
     = [JS.quote] ++ js "function Object() { [native code] }" ++ [JS.quote].
Proof.
  intros inheritedText isoNow laptop. split; [|split].
  - eexists. eexists. eexists. eexists.
    split; [vm_compute; reflexivity|].
    split; [vm_compute; reflexivity|].
    split; vm_compute; reflexivity.
  - vm_compute. reflexivity.
  - vm_compute. reflexivity.
Qed.
